(** * Job orchestration of the photo editor's Electron application

    A shallow embedding of [PhotoEditorMain] (electron/src/main/main.ts):
    the job table, [startProcessing] with the [close] handler it installs,
    [handleProcessOutput], [updateJobProgress], [handleProcessError],
    [cancelJob], the queries on the table, the settings, the dropped files
    and the check of API keys; and of the job list and the active job of
    [ProcessingPanel] (electron/src/renderer/components/ProcessingPanel.tsx)
    with the handlers that keep them.

    Conventions.
    - A JavaScript string is a [string]; every [ascii] stands for the UTF-16
      code unit of the same number, so the model covers the strings whose
      code units are below 256.
    - What Node and the operating system answer (the file system, [spawn],
      [kill], the job id drawn from the clock) is an explicit argument of the
      operation that asks.
    - What the main process does to the outside (IPC messages to the
      renderer, console lines, spawned processes, signals) is appended to
      logs kept in the state.
    - A call that can throw returns, with the state it leaves, how it
      ended. *)

From stdpp Require Import base option list strings gmap pretty.
From Stdlib Require Import ZArith Ascii String Bool Lia.

Local Open Scope string_scope.
Local Open Scope list_scope.
Set Warnings "-register-all".

(** ** JavaScript strings *)

Module JsString.

Definition LF : ascii := "010"%char.
Definition DQUOTE : ascii := "034"%char.

(** [WhiteSpace] and [LineTerminator] of ECMAScript, below U+0100:
    TAB, LF, VT, FF, CR, SP and NBSP. *)
Definition is_whitespace (c : ascii) : bool :=
  let n := nat_of_ascii c in
  (Nat.leb 9 n && Nat.leb n 13) || Nat.eqb n 32 || Nat.eqb n 160.

Definition is_empty (s : string) : bool :=
  match s with EmptyString => true | String _ _ => false end.

Fixpoint trimStart (s : string) : string :=
  match s with
  | EmptyString => EmptyString
  | String c r => if is_whitespace c then trimStart r else s
  end.

Fixpoint trimEnd (s : string) : string :=
  match s with
  | EmptyString => EmptyString
  | String c r =>
      let r' := trimEnd r in
      if is_whitespace c && is_empty r' then EmptyString else String c r'
  end.

Fixpoint all_whitespace (s : string) : bool :=
  match s with
  | EmptyString => true
  | String c r => is_whitespace c && all_whitespace r
  end.

(** [String.prototype.trim] *)
Definition trim (s : string) : string := trimEnd (trimStart s).

(** [s.startsWith(p)] *)
Fixpoint startsWith (p s : string) : bool :=
  match p, s with
  | EmptyString, _ => true
  | String a p', String b s' => if Ascii.eqb a b then startsWith p' s' else false
  | String _ _, EmptyString => false
  end.

Fixpoint rev_string (s acc : string) : string :=
  match s with
  | EmptyString => acc
  | String c r => rev_string r (String c acc)
  end.

(** [s.endsWith(p)] *)
Definition endsWith (p s : string) : bool :=
  startsWith (rev_string p EmptyString) (rev_string s EmptyString).

(** [s.includes(p)] *)
Fixpoint includes (p s : string) : bool :=
  startsWith p s ||
  match s with
  | EmptyString => false
  | String _ r => includes p r
  end.

(** [s.split('\n')]: the pieces between line feeds, never an empty list. *)
Fixpoint split_lines (s : string) : list string :=
  match s with
  | EmptyString => [EmptyString]
  | String c r =>
      if Ascii.eqb c LF then EmptyString :: split_lines r
      else match split_lines r with
           | h :: t => String c h :: t
           | [] => [String c EmptyString]
           end
  end.

(** ASCII lower case: how a regular expression with the [i] flag (and no
    [u] flag) folds the code units below 128; the others fold to
    themselves as far as matching an ASCII letter goes. *)
Definition lower (c : ascii) : ascii :=
  let n := nat_of_ascii c in
  if Nat.leb 65 n && Nat.leb n 90 then ascii_of_nat (n + 32) else c.

Fixpoint lower_string (s : string) : string :=
  match s with
  | EmptyString => EmptyString
  | String c r => String (lower c) (lower_string r)
  end.

End JsString.
Import JsString.

(** ** JavaScript values that come out of [JSON.parse] *)

(** A number is a finite decimal [m * 10^e] or an infinity (the value of a
    literal beyond the range of a double); only its being zero matters
    below. *)
Inductive number : Type :=
| Finite (m e : Z)
| Infinite (negative : bool).

Inductive json : Type :=
| JNull
| JBool (b : bool)
| JNum (x : number)
| JStr (s : string)
| JArr (items : list json)
| JObj (members : list (string * json)).

(** A property read: [None] is [undefined]. *)
Definition property : Type := option json.

(** [ToBoolean] *)
Definition truthy (v : json) : bool :=
  match v with
  | JNull => false
  | JBool b => b
  | JNum (Finite m _) => negb (Z.eqb m 0)
  | JNum (Infinite _) => true
  | JStr s => negb (is_empty s)
  | JArr _ | JObj _ => true
  end.

Definition truthy_prop (p : property) : bool :=
  match p with Some v => truthy v | None => false end.

(** [o.k] on a parsed object: of two members with one name the last
    stays. *)
Fixpoint get (k : string) (members : list (string * json)) : property :=
  match members with
  | [] => None
  | (k', v) :: rest =>
      match get k rest with
      | Some w => Some w
      | None => if String.eqb k k' then Some v else None
      end
  end.

(** What [ToPropertyKey] gives for a value used as [table[value]]: a key,
    or a thrown [TypeError]. The text of a number always holds a digit or
    is [Infinity] or [-Infinity]; no key of the tables looked up below
    holds either, so a key that holds the text of a number is not spelled
    out ([key_of_number]): it misses every table. *)
Inductive PropertyKey : Type :=
| key_of (s : string)
| key_of_number
| key_throws.

(** [a + "," + b] inside [Array.prototype.join]; the items are turned into
    text from left to right, and the first that throws ends the join. *)
Definition join_keys2 (a b : PropertyKey) : PropertyKey :=
  match a, b with
  | key_throws, _ => key_throws
  | _, key_throws => key_throws
  | key_of x, key_of y => key_of (x +:+ "," +:+ y)
  | _, _ => key_of_number
  end.

(** [ToPropertyKey] on a parsed value. An object is turned into text by
    its [toString] and then its [valueOf]: with a member of its own named
    [toString] (never a function, the value being parsed from JSON) the
    first is skipped, the second is its own and skipped too or inherited
    and returns the object, and a [TypeError] is thrown; without one, the
    inherited [toString] answers [[object Object]]. An array joins the
    texts of its items with commas, [null] giving the empty text, and
    throws when an item does. *)
Fixpoint js_key (v : json) : PropertyKey :=
  match v with
  | JNull => key_of "null"
  | JBool b => key_of (if b then "true" else "false")
  | JNum _ => key_of_number
  | JStr s => key_of s
  | JObj members =>
      match get "toString" members with
      | Some _ => key_throws
      | None => key_of "[object Object]"
      end
  | JArr items =>
      (fix join_keys (l : list json) : PropertyKey :=
         match l with
         | [] => key_of EmptyString
         | x :: r =>
             let kx := match x with JNull => key_of EmptyString | _ => js_key x end in
             match r with
             | [] => kx
             | _ :: _ => join_keys2 kx (join_keys r)
             end
         end) items
  end.

(** [stage.includes(p)]: [String.prototype.includes] on a string,
    [Array.prototype.includes] on an array (some item is the string [p]).
    The other values have no such method; [stage_reaches_includes] below
    shows that they never get here. *)
Definition stage_includes (p : string) (stage : json) : bool :=
  match stage with
  | JStr s => includes p s
  | JArr items =>
      existsb (fun x => match x with JStr s => String.eqb s p | _ => false end) items
  | _ => false
  end.

(** The members of a parsed object that are its properties: of several
    members with one name the last stays. (JavaScript lists them in another
    order; the names being distinct, the order in which they are assigned
    does not change what [Object.assign] leaves behind.) *)
Fixpoint last_members (members : list (string * json)) : list (string * json) :=
  match members with
  | [] => []
  | (k, v) :: rest =>
      if existsb (fun kv => String.eqb k (fst kv)) rest then last_members rest
      else (k, v) :: last_members rest
  end.

(** The own enumerable properties [Object.assign] copies from a source:
    the properties of an object, the items of an array and the code units
    of a string under their indices, nothing for the other values. *)
Definition own_enumerable (source : json) : list (string * json) :=
  match source with
  | JObj members => last_members members
  | JArr items => imap (fun i v => (pretty i, v)) items
  | JStr s => imap (fun i c => (pretty i, JStr (String c EmptyString))) (list_ascii_of_string s)
  | _ => []
  end.

(** ** The job table *)

Inductive Status : Type := pending | running | completed | failed.

(** [progress.agentStatus]: its own properties, and whether the name
    [__proto__] has stopped reaching the setter of [Object.prototype]
    (see [assign_property]). *)
Record AgentStatus : Type := mkAgentStatus {
  props : gmap string json;
  proto_shadowed : bool
}.

Record ProcessingProgress : Type := mkProgress {
  stage : json;
  message : json;
  agentStatus : AgentStatus;
  qualityScore : property;
  strategy : property
}.

(** A [ChildProcess] is known by its handle. *)
Definition ChildProcess : Type := nat.

Record ProcessingJob : Type := mkJob {
  id : string;
  status : Status;
  inputPath : string;
  outputPath : property;
  progress : ProcessingProgress;
  process : option ChildProcess
}.

Inductive Mode : Type := single | batch.

Record StartOptions : Type := mkOptions {
  opt_inputPath : string;
  opt_outputDir : option string;
  opt_instructions : option string;
  opt_mode : Mode
}.

(** What [spawn] is called with: the command, its arguments, the working
    directory, and for a virtual environment the directory put in front of
    [PATH] and the value given to [VIRTUAL_ENV]; the rest of the
    environment is inherited as it is. *)
Record SpawnRequest : Type := mkSpawn {
  command : string;
  args : list string;
  cwd : string;
  venv : option (string * string)
}.

(** [webContents.send(channel, payload)] *)
Inductive IpcMessage : Type :=
| job_progress (jobId : string) (p : ProcessingProgress)
| job_completed (jobId : string) (success : bool) (finalStatus : ProcessingProgress)
    (out : property)
| job_error (jobId : string) (error : string).

(** [console.log] and [console.error], one constructor per call site;
    [log_virtual_env] carries the value [startProcessing] gave the
    variable, if it gave one. *)
Inductive ConsoleLine : Type :=
| log_processing_options (o : StartOptions) (outputDir : string) (inputPathExists : bool)
| log_command_args (a : list string)
| log_starting_process (r : SpawnRequest)
| log_working_directory (dir : string)
| log_virtual_env (v : option string)
| error_start_failed
| error_stderr (jobId : string) (text : string)
| error_find_output
| log_output (jobId : string) (line : string)
| log_non_json (jobId : string) (line : string)
| error_cancel (jobId : string).

(** The fields of [PhotoEditorMain], and the logs of what it did to the
    outside. [mainWindow] tells whether there is a window ([null] until the
    application is ready); a window that exists is taken to be open, a send
    to a closed one is not covered. *)
Record Main : Type := mkMain {
  mainWindow : bool;
  pythonExecutable : string;
  projectRoot : string;
  jobs : gmap string ProcessingJob;
  ipc : list IpcMessage;
  console : list ConsoleLine;
  spawned : list (SpawnRequest * ChildProcess);
  signals : list (ChildProcess * string)
}.

(** ** What the runtime provides *)

(** The pure library functions the main process calls. [JSON_parse] is only
    ever applied to a text that starts with an opening and ends with a
    closing brace, so when it returns it returns an object, given by its
    members in the order of the text; [None] is a thrown [SyntaxError]. *)
Class Runtime : Type := mkRuntime {
  JSON_parse : string -> option (list (string * json));
  path_join : list string -> string;
  path_dirname : string -> string;
  os_tmpdir : string;
  os_homedir : string
}.

(** What the operating system answers during one call. [None] and [false]
    stand for a thrown exception where the comment says so. *)
Record Host : Type := mkHost {
  existsSync : string -> bool;
  (** [fs.statSync(p).isFile()]; [None]: [statSync] throws *)
  statSync_isFile : string -> option bool;
  (** [fs.mkdirSync(p, {recursive: true})]; [false]: it throws *)
  mkdirSync : string -> bool;
  (** [fs.readdirSync(p)]; [None]: it throws, as it does when [p] is no
      path or no directory *)
  readdirSync : json -> option (list string);
  (** [spawn(command, args, options)]; [None]: it throws *)
  spawn : SpawnRequest -> option ChildProcess;
  (** [process.kill(signal)]; [false]: it throws *)
  kill : ChildProcess -> string -> bool;
  (** [job_${Date.now()}_${Math.random()...}] *)
  generateJobId : string
}.

(** ** Field updates *)

Definition set_status (s : Status) (j : ProcessingJob) : ProcessingJob :=
  mkJob (id j) s (inputPath j) (outputPath j) (progress j) (process j).

Definition set_outputPath (o : property) (j : ProcessingJob) : ProcessingJob :=
  mkJob (id j) (status j) (inputPath j) o (progress j) (process j).

Definition set_progress (p : ProcessingProgress) (j : ProcessingJob) : ProcessingJob :=
  mkJob (id j) (status j) (inputPath j) (outputPath j) p (process j).

Definition set_process (c : option ChildProcess) (j : ProcessingJob) : ProcessingJob :=
  mkJob (id j) (status j) (inputPath j) (outputPath j) (progress j) c.

Definition set_stage (v : json) (p : ProcessingProgress) : ProcessingProgress :=
  mkProgress v (message p) (agentStatus p) (qualityScore p) (strategy p).

Definition set_message (v : json) (p : ProcessingProgress) : ProcessingProgress :=
  mkProgress (stage p) v (agentStatus p) (qualityScore p) (strategy p).

Definition set_agentStatus (a : AgentStatus) (p : ProcessingProgress) : ProcessingProgress :=
  mkProgress (stage p) (message p) a (qualityScore p) (strategy p).

Definition set_qualityScore (v : property) (p : ProcessingProgress) : ProcessingProgress :=
  mkProgress (stage p) (message p) (agentStatus p) v (strategy p).

Definition set_strategy (v : property) (p : ProcessingProgress) : ProcessingProgress :=
  mkProgress (stage p) (message p) (agentStatus p) (qualityScore p) v.

(** [this.jobs.set(jobId, job)], and every write to a job object that the
    table holds. *)
Definition put_job (jobId : string) (j : ProcessingJob) (m : Main) : Main :=
  mkMain (mainWindow m) (pythonExecutable m) (projectRoot m) (<[jobId := j]> (jobs m))
    (ipc m) (console m) (spawned m) (signals m).

(** [this.mainWindow?.webContents.send(...)] *)
Definition send (msg : IpcMessage) (m : Main) : Main :=
  mkMain (mainWindow m) (pythonExecutable m) (projectRoot m) (jobs m)
    (if mainWindow m then ipc m ++ [msg] else ipc m) (console m) (spawned m) (signals m).

Definition console_write (l : ConsoleLine) (m : Main) : Main :=
  mkMain (mainWindow m) (pythonExecutable m) (projectRoot m) (jobs m)
    (ipc m) (console m ++ [l]) (spawned m) (signals m).

Definition record_spawn (r : SpawnRequest) (c : ChildProcess) (m : Main) : Main :=
  mkMain (mainWindow m) (pythonExecutable m) (projectRoot m) (jobs m)
    (ipc m) (console m) (spawned m ++ [(r, c)]) (signals m).

Definition record_signal (c : ChildProcess) (sig : string) (m : Main) : Main :=
  mkMain (mainWindow m) (pythonExecutable m) (projectRoot m) (jobs m)
    (ipc m) (console m) (spawned m) (signals m ++ [(c, sig)]).

(** ** [updateJobProgress] *)

(** [target[k] = v] on [agentStatus]. The name [__proto__] is special
    while the prototype chain of [agentStatus] leads to the setter of
    [Object.prototype]: the value is not stored, an object or [null]
    becomes the new prototype, any other value is dropped. After [null],
    or an object that has a member of that name itself, the setter is out
    of reach and the name is stored like any other. *)
Definition assign_property (a : AgentStatus) (kv : string * json) : AgentStatus :=
  let (k, v) := kv in
  if String.eqb k "__proto__" && negb (proto_shadowed a) then
    match v with
    | JNull => mkAgentStatus (props a) true
    | JObj members =>
        mkAgentStatus (props a)
          (match get "__proto__" members with Some _ => true | None => false end)
    | _ => a
    end
  else mkAgentStatus (<[k := v]> (props a)) (proto_shadowed a).

(** [Object.assign(target, source)] *)
Definition Object_assign (target : AgentStatus) (source : json) : AgentStatus :=
  fold_left assign_property (own_enumerable source) target.

(** The literal [stageAgentMap]. *)
Definition stageAgentMap : list (string * string) :=
  [ ("analysis", "analysis");
    ("analysis_complete", "analysis");
    ("gemini_editing", "gemini");
    ("gemini_complete", "gemini");
    ("imagemagick_optimization", "imagemagick");
    ("background_removal", "background");
    ("quality_control", "qc") ].

Fixpoint assoc (k : string) (l : list (string * string)) : option string :=
  match l with
  | [] => None
  | (k', v) :: r => if String.eqb k k' then Some v else assoc k r
  end.

(** What an object literal inherits from [Object.prototype], each name
    with the property key its value turns into when it is used as one:
    the source text of a built-in function, and for [__proto__] the text
    of [Object.prototype] itself. *)
Definition Object_prototype_functions : list string :=
  [ "toString"; "toLocaleString"; "valueOf"; "hasOwnProperty"; "isPrototypeOf";
    "propertyIsEnumerable"; "__defineGetter__"; "__defineSetter__";
    "__lookupGetter__"; "__lookupSetter__" ].

Definition native_function (name : string) : string :=
  "function " +:+ name +:+ "() { [native code] }".

Definition Object_prototype_key (k : string) : option string :=
  if String.eqb k "constructor" then Some (native_function "Object")
  else if String.eqb k "__proto__" then Some "[object Object]"
  else if existsb (String.eqb k) Object_prototype_functions then Some (native_function k)
  else None.

(** [const agent = stageAgentMap[progressData.stage]] followed by
    [if (agent)], for a stage that can be made a key: the key under which
    [agentStatus[agent]] is written, or [None] when the lookup gives
    [undefined]. Every value found is truthy. (When the stage cannot be
    made a key the lookup throws: see [update_from_stage].) *)
Definition stageAgentMap_lookup (stage_value : json) : option string :=
  match js_key stage_value with
  | key_of k =>
      match assoc k stageAgentMap with
      | Some agent => Some agent
      | None => Object_prototype_key k
      end
  | key_of_number | key_throws => None
  end.

(** The status derived from the stage name. *)
Definition stage_status (stage_value : json) : string :=
  if stage_includes "complete" stage_value then "completed"
  else if stage_includes "failed" stage_value || stage_includes "error" stage_value then "error"
  else "running".

(** [stageAgentMap[progressData.stage]] throws a [TypeError]. *)
Definition lookup_throws (stage_value : json) : bool :=
  match js_key stage_value with
  | key_throws => true
  | key_of _ | key_of_number => false
  end.

(** The [else if (progressData.stage)] branch; [None] when the lookup
    throws, which is before anything is written. *)
Definition update_from_stage (progressData : list (string * json)) (a : AgentStatus)
  : option AgentStatus :=
  match get "stage" progressData with
  | Some st =>
      if truthy st then
        if lookup_throws st then None
        else
          match stageAgentMap_lookup st with
          | Some agent =>
              Some (mkAgentStatus (<[agent := JStr (stage_status st)]> (props a))
                      (proto_shadowed a))
          | None => Some a
          end
      else Some a
  | None => Some a
  end.

(** The first [if]/[else if] of [updateJobProgress]; [None] when it
    throws. *)
Definition update_agentStatus (progressData : list (string * json)) (a : AgentStatus)
  : option AgentStatus :=
  match get "agentStatus" progressData with
  | Some direct =>
      if truthy direct then Some (Object_assign a direct)
      else update_from_stage progressData a
  | None => update_from_stage progressData a
  end.

(** The records on which [updateJobProgress] throws for a job that is in
    the table: no truthy [agentStatus], and a truthy [stage] that cannot
    be made a property key. *)
Definition record_throws (progressData : list (string * json)) : bool :=
  negb (truthy_prop (get "agentStatus" progressData))
  && match get "stage" progressData with
     | Some st => truthy st && lookup_throws st
     | None => false
     end.

(** [if (v) x.f = v] *)
Definition when_truthy {A : Type} (p : property) (f : json -> A -> A) (x : A) : A :=
  match p with
  | Some v => if truthy v then f v x else x
  | None => x
  end.

(** [if (v !== undefined) x.f = v] *)
Definition when_defined {A : Type} (p : property) (f : json -> A -> A) (x : A) : A :=
  match p with
  | Some v => f v x
  | None => x
  end.

(** What [updateJobProgress] does to the job object once the agent status
    is settled. *)
Definition apply_fields (progressData : list (string * json)) (a : AgentStatus)
    (job : ProcessingJob) : ProcessingJob :=
  let pr := progress job in
  let pr := set_agentStatus a pr in
  let pr := when_truthy (get "message" progressData) set_message pr in
  let pr := when_truthy (get "stage" progressData) set_stage pr in
  let pr := when_defined (get "quality_score" progressData)
              (fun v => set_qualityScore (Some v)) pr in
  let pr := when_truthy (get "strategy" progressData) (fun v => set_strategy (Some v)) pr in
  let job := set_progress pr job in
  let job := when_truthy (get "output_path" progressData)
               (fun v => set_outputPath (Some v)) job in
  when_truthy (get "success" progressData) (fun _ => set_status completed) job.

(** What [updateJobProgress] does to the job object; [None] when it throws,
    the job then being as it was. *)
Definition apply_progress (progressData : list (string * json)) (job : ProcessingJob)
  : option ProcessingJob :=
  match update_agentStatus progressData (agentStatus (progress job)) with
  | Some a => Some (apply_fields progressData a job)
  | None => None
  end.

(** How a call that returns no value ends. *)
Inductive CallResult : Type :=
| call_returned
| call_threw.

(** The state [updateJobProgress] leaves, and how it ended. It throws only
    at [stageAgentMap[progressData.stage]], before its first write, so a
    call that throws leaves the state as it found it. *)
Definition updateJobProgress (m : Main) (jobId : string) (progressData : list (string * json))
  : Main * CallResult :=
  match jobs m !! jobId with
  | None => (m, call_returned)
  | Some job =>
      match apply_progress progressData job with
      | Some job' =>
          (send (job_progress jobId (progress job')) (put_job jobId job' m), call_returned)
      | None => (m, call_threw)
      end
  end.

(** ** [handleProcessError], and the [stderr] listener that calls it *)

Definition handleProcessError (m : Main) (jobId : string) (error : string) : Main :=
  match jobs m !! jobId with
  | None => m
  | Some job =>
      let job' := set_progress (set_message (JStr ("Error: " +:+ error)) (progress job)) job in
      send (job_error jobId error) (put_job jobId job' m)
  end.

Definition on_stderr (m : Main) (jobId : string) (data : string) : Main :=
  handleProcessError (console_write (error_stderr jobId data) m) jobId data.

(** ** [cancelJob] *)

Definition cancelJob (h : Host) (m : Main) (jobId : string) : Main * bool :=
  match jobs m !! jobId with
  | None => (m, false)
  | Some job =>
      match process job with
      | None => (m, false)
      | Some child =>
          if kill h child "SIGTERM" then
            let job' :=
              set_progress (set_message (JStr "Processing cancelled by user") (progress job))
                (set_status failed job) in
            (put_job jobId job' (record_signal child "SIGTERM" m), true)
          else (console_write (error_cancel jobId) m, false)
      end
  end.

Section WithRuntime.
Context {rt : Runtime}.

(** ** [handleProcessOutput], and the [stdout] listener that calls it *)

(** The body of the [for] loop. The [catch] block runs when [JSON.parse]
    throws and when [updateJobProgress] does. *)
Definition process_line (jobId : string) (m : Main) (line : string) : Main :=
  let t := trim line in
  if startsWith "{" t && endsWith "}" t then
    match JSON_parse t with
    | Some progressData =>
        match updateJobProgress m jobId progressData with
        | (m', call_returned) => m'
        | (m', call_threw) => console_write (log_non_json jobId line) m'
        end
    | None => console_write (log_non_json jobId line) m
    end
  else console_write (log_output jobId line) m.

(** [output.split('\n').filter(line => line.trim())] *)
Definition output_lines (output : string) : list string :=
  List.filter (fun line => negb (is_empty (trim line))) (split_lines output).

Definition handleProcessOutput (m : Main) (jobId : string) (output : string) : Main :=
  match jobs m !! jobId with
  | None => m
  | Some _ => fold_left (process_line jobId) (output_lines output) m
  end.

(** ** The [close] handler installed by [startProcessing] *)

(** [/\.(jpg|jpeg|png|webp)$/i.test(f)] *)
Definition is_image_file (f : string) : bool :=
  let l := lower_string f in
  endsWith ".jpg" l || endsWith ".jpeg" l || endsWith ".png" l || endsWith ".webp" l.

(** The [try] block of the handler: the job with its output path refined
    to the first image of the directory, or [None] when [readdirSync] or
    [path.join] throws (the [catch] then writes to the console). *)
Definition find_output_file (h : Host) (job : ProcessingJob) : option ProcessingJob :=
  match outputPath job with
  | None => Some job
  | Some dir =>
      match readdirSync h dir with
      | None => None
      | Some files =>
          match List.filter is_image_file files with
          | [] => Some job
          | first :: _ =>
              match dir with
              | JStr d => Some (set_outputPath (Some (JStr (path_join [d; first]))) job)
              | _ => None
              end
          end
      end
  end.

(** [code === 0]; [code] is the exit code, [None] ([null]) when a signal
    ended the process. *)
Definition exit_ok (code : option Z) : bool :=
  match code with Some c => Z.eqb c 0 | None => false end.

(** What the handler does to the job object, and whether the [catch]
    block ran. *)
Definition close_job (h : Host) (code : option Z) (job : ProcessingJob)
  : ProcessingJob * bool :=
  let ok := exit_ok code in
  let job1 := set_process None (set_status (if ok then completed else failed) job) in
  if ok && truthy_prop (outputPath job1) then
    match find_output_file h job1 with
    | Some j => (j, false)
    | None => (job1, true)
    end
  else (job1, false).

Definition on_close (h : Host) (m : Main) (jobId : string) (code : option Z) : Main :=
  match jobs m !! jobId with
  | None => m
  | Some job =>
      let (job2, caught) := close_job h code job in
      let m1 := if caught then console_write error_find_output m else m in
      send (job_completed jobId (exit_ok code) (progress job2) (outputPath job2))
        (put_job jobId job2 m1)
  end.

(** ** [startProcessing] *)

Inductive StartError : Type :=
| input_path_required
| input_path_does_not_exist (p : string)
| fs_error
| spawn_error.

Inductive StartResult : Type :=
| returned (jobId : string)
| thrown (e : StartError).

Definition initial_agentStatus : AgentStatus :=
  mkAgentStatus
    (<["analysis" := JStr "pending"]>
       (<["background" := JStr "pending"]>
          (<["gemini" := JStr "pending"]>
             (<["imagemagick" := JStr "pending"]>
                (<["qc" := JStr "pending"]> ∅)))))
    false.

Definition initial_job (jobId inputPath : string) : ProcessingJob :=
  mkJob jobId pending inputPath None
    (mkProgress (JStr "initializing") (JStr "Starting processing...")
       initial_agentStatus None None)
    None.

(** The output directory chosen when the caller names none; [None] when
    [statSync] throws. *)
Definition default_outputDir (h : Host) (inputPath : string) : option string :=
  match statSync_isFile h inputPath with
  | None => None
  | Some true =>
      let dir := path_dirname inputPath in
      if includes os_tmpdir dir || includes "temp" dir || includes "Temp" dir then
        if existsSync h (path_join [os_homedir; "Pictures"])
        then Some (path_join [os_homedir; "Pictures"; "Agentic Photo Editor"])
        else Some (path_join [os_homedir; "Documents"; "Agentic Photo Editor"])
      else Some dir
  | Some false => Some inputPath
  end.

(** The output directory of a job: the one the caller names, unless it
    names none or an empty one; [None] when [statSync] throws. *)
Definition chosen_outputDir (h : Host) (options : StartOptions) : option string :=
  match opt_outputDir options with
  | Some d => if is_empty d then default_outputDir h (opt_inputPath options) else Some d
  | None => default_outputDir h (opt_inputPath options)
  end.

Definition nonblank (o : option string) : option string :=
  match o with
  | Some s => if is_empty s || is_empty (trim s) then None else Some s
  | None => None
  end.

Definition command_args (options : StartOptions) (outputDir : string) : list string :=
  ["photo_editor.py"]
    ++ (match opt_mode options with
        | single => ["process"; opt_inputPath options]
        | batch => ["batch"; opt_inputPath options]
        end)
    ++ ["--output-dir"; outputDir; "--json-output"]
    ++ (match nonblank (opt_instructions options) with
        | Some text => ["--instructions"; text]
        | None => []
        end).

Definition process_env (m : Main) : option (string * string) :=
  if includes "venv" (pythonExecutable m)
  then let venvBinDir := path_dirname (pythonExecutable m) in
       Some (venvBinDir, path_dirname venvBinDir)
  else None.

Definition startProcessing (h : Host) (m : Main) (options : StartOptions)
  : Main * StartResult :=
  let inputPath := opt_inputPath options in
  if is_empty inputPath || is_empty (trim inputPath) then (m, thrown input_path_required)
  else if negb (existsSync h inputPath) then (m, thrown (input_path_does_not_exist inputPath))
  else
    let jobId := generateJobId h in
    let job := initial_job jobId inputPath in
    let m := put_job jobId job m in
    match chosen_outputDir h options with
    | None => (m, thrown fs_error)
    | Some outputDir =>
        if negb (existsSync h outputDir) && negb (mkdirSync h outputDir)
        then (m, thrown fs_error)
        else
          let job := set_outputPath (Some (JStr outputDir)) job in
          let m := put_job jobId job m in
          let a := command_args options outputDir in
          let m := console_write
                     (log_processing_options options outputDir (existsSync h inputPath)) m in
          let m := console_write (log_command_args a) m in
          let env := process_env m in
          let request := mkSpawn (pythonExecutable m) a (projectRoot m) env in
          let m := console_write (log_starting_process request) m in
          let m := console_write (log_working_directory (projectRoot m)) m in
          let m := console_write (log_virtual_env (option_map snd env)) m in
          match spawn h request with
          | Some child =>
              let job := set_status running (set_process (Some child) job) in
              (record_spawn request child (put_job jobId job m), returned jobId)
          | None =>
              let job := set_status failed job in
              (console_write error_start_failed (put_job jobId job m), thrown spawn_error)
          end
    end.

End WithRuntime.

(** ** A reference runtime, to evaluate the model on concrete inputs *)

(** [JSON.parse] on the JSON grammar (RFC 8259) for texts whose code units
    are below 256, with values in the same range: a [\u] escape that names
    a code unit from 256 on has no value here and the text is refused. A
    number literal that rounds to zero as a double is zero and one beyond
    the range of a double is an infinity; any other keeps the decimal of
    its literal. [path.join] and [path.dirname] are those of POSIX. The
    theorems about every runtime do not depend on this module. *)
Module Reference.

Definition is_json_ws (c : ascii) : bool :=
  let n := nat_of_ascii c in
  Nat.eqb n 32 || Nat.eqb n 9 || Nat.eqb n 10 || Nat.eqb n 13.

Fixpoint skip_ws (s : string) : string :=
  match s with
  | String c r => if is_json_ws c then skip_ws r else s
  | EmptyString => s
  end.

Definition digit (c : ascii) : option Z :=
  let n := nat_of_ascii c in
  if Nat.leb 48 n && Nat.leb n 57 then Some (Z.of_nat (n - 48)) else None.

Definition hex_digit (c : ascii) : option nat :=
  let n := nat_of_ascii c in
  if Nat.leb 48 n && Nat.leb n 57 then Some (n - 48)
  else if Nat.leb 65 n && Nat.leb n 70 then Some (n - 55)
  else if Nat.leb 97 n && Nat.leb n 102 then Some (n - 87)
  else None.

Definition simple_escape (c : ascii) : option ascii :=
  if Ascii.eqb c DQUOTE then Some DQUOTE
  else if Ascii.eqb c "\" then Some "\"%char
  else if Ascii.eqb c "/" then Some "/"%char
  else if Ascii.eqb c "b" then Some "008"%char
  else if Ascii.eqb c "f" then Some "012"%char
  else if Ascii.eqb c "n" then Some "010"%char
  else if Ascii.eqb c "r" then Some "013"%char
  else if Ascii.eqb c "t" then Some "009"%char
  else None.

Fixpoint drop_chars (n : nat) (s : string) : string :=
  match n, s with
  | S k, String _ r => drop_chars k r
  | _, _ => s
  end.

Definition cons_char (c : ascii) (r : option (string * string)) : option (string * string) :=
  match r with
  | Some (s, rest) => Some (String c s, rest)
  | None => None
  end.

(** The characters of a string literal after its opening quote, and what
    follows the closing quote. *)
Fixpoint string_body (s : string) : option (string * string) :=
  match s with
  | EmptyString => None
  | String c r =>
      if Ascii.eqb c DQUOTE then Some (EmptyString, r)
      else if Ascii.eqb c "\" then
        match r with
        | EmptyString => None
        | String e r1 =>
            match simple_escape e with
            | Some ch => cons_char ch (string_body r1)
            | None =>
                if Ascii.eqb e "u" then
                  match r1 with
                  | String h1 (String h2 (String h3 (String h4 r2))) =>
                      match hex_digit h1, hex_digit h2, hex_digit h3, hex_digit h4 with
                      | Some 0, Some 0, Some a, Some b =>
                          cons_char (ascii_of_nat (16 * a + b)) (string_body r2)
                      | _, _, _, _ => None
                      end
                  | _ => None
                  end
                else None
            end
        end
      else if Nat.ltb (nat_of_ascii c) 32 then None
      else cons_char c (string_body r)
  end.

(** A run of digits: its value, its length, what follows. *)
Fixpoint digits (acc : Z) (len : nat) (s : string) : Z * nat * string :=
  match s with
  | String c r =>
      match digit c with
      | Some d => digits (10 * acc + d) (S len) r
      | None => (acc, len, s)
      end
  | EmptyString => (acc, len, s)
  end.

Definition leading_zero (s : string) : bool :=
  match s with
  | String c (String d _) =>
      Ascii.eqb c "0" && match digit d with Some _ => true | None => false end
  | _ => false
  end.

(** [-? int frac? exp?] *)
Definition parse_number (s : string) : option (number * string) :=
  let (neg, s1) :=
    match s with
    | String c r => if Ascii.eqb c "-" then (true, r) else (false, s)
    | EmptyString => (false, s)
    end in
  if leading_zero s1 then None
  else
    match digits 0 0 s1 with
    | (_, 0, _) => None
    | (i, S _, s2) =>
        let frac :=
          match s2 with
          | String c r =>
              if Ascii.eqb c "." then
                match digits i 0 r with
                | (_, 0, _) => None
                | (m, S k, s3) => Some (m, Z.of_nat (S k), s3)
                end
              else Some (i, 0%Z, s2)
          | EmptyString => Some (i, 0%Z, s2)
          end in
        match frac with
        | None => None
        | Some (m, scale, s3) =>
            let signed := if neg then Z.opp m else m in
            let plain := Some (Finite signed (Z.opp scale), s3) in
            match s3 with
            | String c r =>
                if Ascii.eqb c "e" || Ascii.eqb c "E" then
                  let (eneg, s4) :=
                    match r with
                    | String c' r' =>
                        if Ascii.eqb c' "-" then (true, r')
                        else if Ascii.eqb c' "+" then (false, r')
                        else (false, r)
                    | EmptyString => (false, r)
                    end in
                  match digits 0 0 s4 with
                  | (_, 0, _) => None
                  | (e, S _, s5) =>
                      Some (Finite signed ((if eneg then Z.opp e else e) - scale), s5)
                  end
                else plain
            | EmptyString => plain
            end
        end
    end.

(** The largest double is [2^1024 - 2^971] and the smallest above zero is
    [2^-1074]; a literal rounds to an infinity from [2^1024 - 2^970] on and
    to zero up to [2^-1075]. *)
Definition as_double (x : number) : number :=
  match x with
  | Finite m e =>
      let a := Z.abs m in
      if Z.eqb a 0 then x
      else if Z.leb 0 e then
        if Z.leb (2 ^ 1024 - 2 ^ 970) (a * 10 ^ e) then Infinite (Z.ltb m 0) else x
      else if Z.leb (a * 2 ^ 1075) (10 ^ (- e)) then Finite 0 0
      else if Z.leb ((2 ^ 1024 - 2 ^ 970) * 10 ^ (- e)) a then Infinite (Z.ltb m 0)
      else x
  | Infinite _ => x
  end.

Fixpoint parse_value (fuel : nat) (s : string) {struct fuel} : option (json * string) :=
  match fuel with
  | 0 => None
  | S n =>
      match skip_ws s with
      | EmptyString => None
      | String c r =>
          if Ascii.eqb c "{" then
            match skip_ws r with
            | String c' r' =>
                if Ascii.eqb c' "}" then Some (JObj [], r')
                else match parse_members n r with
                     | Some (ms, rest) => Some (JObj ms, rest)
                     | None => None
                     end
            | EmptyString => None
            end
          else if Ascii.eqb c "[" then
            match skip_ws r with
            | String c' r' =>
                if Ascii.eqb c' "]" then Some (JArr [], r')
                else match parse_items n r with
                     | Some (vs, rest) => Some (JArr vs, rest)
                     | None => None
                     end
            | EmptyString => None
            end
          else if Ascii.eqb c DQUOTE then
            match string_body r with
            | Some (str, rest) => Some (JStr str, rest)
            | None => None
            end
          else if startsWith "true" (String c r) then Some (JBool true, drop_chars 4 (String c r))
          else if startsWith "false" (String c r) then Some (JBool false, drop_chars 5 (String c r))
          else if startsWith "null" (String c r) then Some (JNull, drop_chars 4 (String c r))
          else match parse_number (String c r) with
               | Some (x, rest) => Some (JNum (as_double x), rest)
               | None => None
               end
      end
  end
with parse_members (fuel : nat) (s : string) {struct fuel}
  : option (list (string * json) * string) :=
  match fuel with
  | 0 => None
  | S n =>
      match skip_ws s with
      | String q r =>
          if Ascii.eqb q DQUOTE then
            match string_body r with
            | Some (key, r1) =>
                match skip_ws r1 with
                | String colon r2 =>
                    if Ascii.eqb colon ":" then
                      match parse_value n r2 with
                      | Some (v, r3) =>
                          match skip_ws r3 with
                          | String sep r4 =>
                              if Ascii.eqb sep "}" then Some ([(key, v)], r4)
                              else if Ascii.eqb sep "," then
                                match parse_members n r4 with
                                | Some (ms, rest) => Some ((key, v) :: ms, rest)
                                | None => None
                                end
                              else None
                          | EmptyString => None
                          end
                      | None => None
                      end
                    else None
                | EmptyString => None
                end
            | None => None
            end
          else None
      | EmptyString => None
      end
  end
with parse_items (fuel : nat) (s : string) {struct fuel} : option (list json * string) :=
  match fuel with
  | 0 => None
  | S n =>
      match parse_value n s with
      | Some (v, r) =>
          match skip_ws r with
          | String sep r1 =>
              if Ascii.eqb sep "]" then Some ([v], r1)
              else if Ascii.eqb sep "," then
                match parse_items n r1 with
                | Some (vs, rest) => Some (v :: vs, rest)
                | None => None
                end
              else None
          | EmptyString => None
          end
      | None => None
      end
  end.

(** The whole text is one value; enough fuel for any text, since every
    call consumes a character first. *)
Definition parse (s : string) : option json :=
  match parse_value (2 * String.length s + 2) s with
  | Some (v, rest) => if is_empty (skip_ws rest) then Some v else None
  | None => None
  end.

Definition parse_object (s : string) : option (list (string * json)) :=
  match parse s with
  | Some (JObj members) => Some members
  | _ => None
  end.

Fixpoint join (sep : string) (l : list string) : string :=
  match l with
  | [] => EmptyString
  | [x] => x
  | x :: r => x +:+ sep +:+ join sep r
  end.

Definition is_slash (c : ascii) : bool := Ascii.eqb c "/".

(** The pieces between slashes, never an empty list. *)
Fixpoint split_slash (s : string) : list string :=
  match s with
  | EmptyString => [EmptyString]
  | String c r =>
      if is_slash c then EmptyString :: split_slash r
      else match split_slash r with
           | h :: t => String c h :: t
           | [] => [String c EmptyString]
           end
  end.

(** One segment more, on the segments kept so far (the last first). *)
Definition push_segment (above_root : bool) (kept : list string) (seg : string)
  : list string :=
  if is_empty seg || String.eqb seg "." then kept
  else if String.eqb seg ".." then
    match kept with
    | top :: rest => if String.eqb top ".." then seg :: kept else rest
    | [] => if above_root then [seg] else []
    end
  else seg :: kept.

Definition ends_with_slash (s : string) : bool :=
  match rev_string s EmptyString with
  | String c _ => is_slash c
  | EmptyString => false
  end.

(** [path.posix.normalize] *)
Definition normalize (p : string) : string :=
  match p with
  | EmptyString => "."
  | String c _ =>
      let absolute := is_slash c in
      let body :=
        join "/" (List.rev (fold_left (push_segment (negb absolute)) (split_slash p) [])) in
      if is_empty body then
        if absolute then "/" else if ends_with_slash p then "./" else "."
      else
        let body := if ends_with_slash p then body +:+ "/" else body in
        if absolute then "/" +:+ body else body
  end.

(** [path.posix.join]: the arguments that are not empty, joined with
    slashes and normalized. *)
Definition path_join (l : list string) : string :=
  normalize (join "/" (List.filter (fun x => negb (is_empty x)) l)).

Fixpoint drop_while (f : ascii -> bool) (l : list ascii) : list ascii :=
  match l with
  | c :: r => if f c then drop_while f r else l
  | [] => []
  end.

(** [path.posix.dirname]: the trailing slashes and the last segment are
    left out, and of the slashes in front of that segment the last one. *)
Definition dirname (s : string) : string :=
  match list_ascii_of_string s with
  | [] => "."
  | first :: others =>
      let back := drop_while is_slash (List.rev others) in
      match drop_while (fun c => negb (is_slash c)) back with
      | [] => if is_slash first then "/" else "."
      | _ :: front =>
          match front with
          | [] => if is_slash first then "//" else String first EmptyString
          | _ :: _ => string_of_list_ascii (first :: List.rev front)
          end
      end
  end.

Definition runtime : Runtime :=
  mkRuntime parse_object path_join dirname "/tmp" "/home/user".

End Reference.

(** ** Reading the state *)

Definition job_status (m : Main) (jobId : string) : option Status :=
  status <$> jobs m !! jobId.

Definition job_outputPath (m : Main) (jobId : string) : option property :=
  outputPath <$> jobs m !! jobId.

Definition agent_status (m : Main) (jobId agent : string) : option json :=
  jobs m !! jobId ≫= fun job => props (agentStatus (progress job)) !! agent.


Definition is_terminal (s : Status) : bool :=
  match s with
  | completed | failed => true
  | pending | running => false
  end.

(** How far along [pending], [running], finished a status is. *)
Definition rank (s : Status) : nat :=
  match s with
  | pending => 0
  | running => 1
  | completed | failed => 2
  end.

(** The status of a job before and after: the job is still there and its
    status is not further back. *)
Definition status_le (before after : option Status) : Prop :=
  match before, after with
  | Some s, Some s' => rank s <= rank s'
  | Some _, None => False
  | None, _ => True
  end.

(** The same host with another content of the directories. *)
Definition with_listing (h : Host) (listing : json -> option (list string)) : Host :=
  mkHost (existsSync h) (statSync_isFile h) (mkdirSync h) listing (spawn h) (kill h)
    (generateJobId h).

(** What the worker process of a job can make the main process do, each
    with the answers of the operating system at that moment; [cancel] is
    the user's request. *)
Inductive Notification : Type :=
| stdout_data (chunk : string)
| stderr_data (chunk : string)
| close (code : option Z)
| cancel.

Definition step {rt : Runtime} (jobId : string) (m : Main) (hn : Host * Notification) : Main :=
  match hn with
  | (_, stdout_data chunk) => handleProcessOutput m jobId chunk
  | (_, stderr_data chunk) => on_stderr m jobId chunk
  | (h, close code) => on_close h m jobId code
  | (h, cancel) => fst (cancelJob h m jobId)
  end.

Definition run {rt : Runtime} (jobId : string) (m : Main) (trace : list (Host * Notification))
  : Main :=
  fold_left (step jobId) trace m.

(** A line with its line feed, and the text of several such lines
    followed by an unfinished one. *)
Definition with_LF (l : string) : string := l +:+ String LF EmptyString.

Definition stream (ls : list string) (rest : string) : string :=
  fold_right (fun l acc => l +:+ String LF acc) rest ls.

(** A line as the [for] loop sees one: it holds no line feed and is not
    blank. *)
Definition is_line (l : string) : bool :=
  negb (existsb (Ascii.eqb LF) (list_ascii_of_string l)) && negb (is_empty (trim l)).

(** The state without what was written to the console. *)
Definition forget_console (m : Main) : Main :=
  mkMain (mainWindow m) (pythonExecutable m) (projectRoot m) (jobs m)
    (ipc m) [] (spawned m) (signals m).

(** A line is a structured record when, trimmed, it is wrapped in braces
    and [JSON.parse] accepts it. *)
Definition structured_record {rt : Runtime} (line : string) : option (list (string * json)) :=
  let t := trim line in
  if startsWith "{" t && endsWith "}" t then JSON_parse t else None.

(** A structured record that [updateJobProgress] takes without throwing:
    the lines that reach the job. *)
Definition applied_record {rt : Runtime} (line : string) : option (list (string * json)) :=
  match structured_record line with
  | Some pd => if record_throws pd then None else Some pd
  | None => None
  end.

(** What the [for] loop writes to the console for a line that does not
    reach the job. *)
Definition diagnostic {rt : Runtime} (jobId line : string) : ConsoleLine :=
  if startsWith "{" (trim line) && endsWith "}" (trim line)
  then log_non_json jobId line
  else log_output jobId line.

(** ** Concrete inputs *)

Module Sample.

Definition quoted (s : string) : string :=
  String DQUOTE s +:+ String DQUOTE EmptyString.

Definition line (s : string) : string := with_LF s.

(** [{"stage":"analysis"}] and the like: one member with a string value. *)
Definition record1 (k v : string) : string :=
  "{" +:+ quoted k +:+ ":" +:+ quoted v +:+ "}".

(** [{"success":true}] *)
Definition success_true : string := "{" +:+ quoted "success" +:+ ":true}".

(** [{"success":false,"output_path":"/out/a.jpg"}] *)
Definition quality_fail : string :=
  "{" +:+ quoted "success" +:+ ":false," +:+ quoted "output_path" +:+ ":"
      +:+ quoted "/out/a.jpg" +:+ "}".

(** [{"stage":{"toString":1}}]: a stage that cannot be made a property
    key. *)
Definition throwing_stage : string :=
  "{" +:+ quoted "stage" +:+ ":{" +:+ quoted "toString" +:+ ":1}}".

Definition ten_files : list string :=
  ["01.jpg"; "02.jpg"; "03.jpg"; "04.jpg"; "05.jpg";
   "06.jpg"; "07.jpg"; "08.jpg"; "09.jpg"; "10.jpg"].

(** A host where [/photos] is a directory of ten images, every path
    exists, and the k-th process spawned has handle [k]. *)
Definition host (k : nat) : Host :=
  mkHost (fun _ => true)
    (fun p => Some (negb (String.eqb p "/photos")))
    (fun _ => true)
    (fun p => match p with
              | JStr d => if String.eqb d "/photos" then Some ten_files else None
              | _ => None
              end)
    (fun _ => Some k)
    (fun _ _ => true)
    ("job_" +:+ pretty k).

Definition empty_main : Main :=
  mkMain true "python" "/app" ∅ [] [] [] [].

(** One job, running, bound to process 1. *)
Definition running_job : ProcessingJob :=
  mkJob "job_1" running "/tmp/a.jpg" (Some (JStr "/out"))
    (mkProgress (JStr "initializing") (JStr "Starting processing...")
       initial_agentStatus None None)
    (Some 1).

Definition one_running : Main :=
  mkMain true "python" "/app" {[ "job_1" := running_job ]} [] [] [] [].

End Sample.

(** ** The model on concrete inputs *)

Example trim_strips_both_ends : trim (String LF "  {a}  ") = "{a}".
Proof. reflexivity. Qed.

Example split_keeps_empty_pieces :
  split_lines (String "a" (String LF (String LF "b"))) = ["a"; ""; "b"]
  /\ split_lines (with_LF "a") = ["a"; ""]
  /\ output_lines (String "a" (String LF (String LF " "))) = ["a"].
Proof. repeat split; reflexivity. Qed.

Example image_files :
  is_image_file "A.JPG" = true
  /\ is_image_file "a.webp" = true
  /\ is_image_file "a.jpg.txt" = false
  /\ is_image_file "jpg" = false.
Proof. repeat split; reflexivity. Qed.

Example parse_records :
  Reference.parse_object (Sample.record1 "stage" "analysis") = Some [("stage", JStr "analysis")]
  /\ Reference.parse_object Sample.success_true = Some [("success", JBool true)]
  /\ Reference.parse_object
       ("{ " +:+ Sample.quoted "quality_score" +:+ " : 9.5e1, "
             +:+ Sample.quoted "a" +:+ ":[1,null,{}] }")
     = Some [("quality_score", JNum (Finite 95 0));
             ("a", JArr [JNum (Finite 1 0); JNull; JObj []])]
  /\ Reference.parse_object ("{" +:+ Sample.quoted "stage" +:+ ":01}") = None
  /\ Reference.parse_object ("{" +:+ Sample.quoted "stage" +:+ ":1,}") = None
  /\ Reference.parse_object "{} x" = None.
Proof. repeat split; vm_compute; reflexivity. Qed.

Example stage_lookups :
  stageAgentMap_lookup (JStr "quality_control") = Some "qc"
  /\ stageAgentMap_lookup (JStr "qc_complete") = None
  /\ stageAgentMap_lookup (JArr [JStr "analysis_complete"]) = Some "analysis"
  /\ stage_status (JArr [JStr "analysis_complete"]) = "running"
  /\ stage_status (JStr "analysis_failed_complete") = "completed"
  /\ stageAgentMap_lookup (JStr "toString") = Some "function toString() { [native code] }"
  /\ stageAgentMap_lookup (JNum (Finite 5 0)) = None.
Proof. repeat split; vm_compute; reflexivity. Qed.

(** The worker of a single job prints [{"stage":"qc_complete","quality_score":9}]
    and exits with code 0: the job is [completed] with quality score 9. *)
Example quality_score_then_exit :
  let m := on_close (rt := Reference.runtime) (Sample.host 1)
             (handleProcessOutput (rt := Reference.runtime) Sample.one_running "job_1"
                (with_LF ("{" +:+ Sample.quoted "stage" +:+ ":" +:+ Sample.quoted "qc_complete"
                              +:+ "," +:+ Sample.quoted "quality_score" +:+ ":9}")))
             "job_1" (Some 0%Z) in
  job_status m "job_1" = Some completed
  /\ (qualityScore ∘ progress) <$> jobs m !! "job_1" = Some (Some (JNum (Finite 9 0)))
  /\ agent_status m "job_1" "qc" = Some (JStr "pending").
Proof. repeat split; vm_compute; reflexivity. Qed.

(** A traceback and a broken record between two records: both records are
    applied, the other two lines go to the console. *)
Example malformed_lines_between_records :
  let m := handleProcessOutput (rt := Reference.runtime) Sample.one_running "job_1"
             (stream [Sample.record1 "stage" "analysis";
                      "Traceback (most recent call last):";
                      "{" +:+ Sample.quoted "stage" +:+ ": }";
                      Sample.record1 "stage" "analysis_complete"] "") in
  job_status m "job_1" = Some running
  /\ agent_status m "job_1" "analysis" = Some (JStr "completed")
  /\ console m = [log_output "job_1" "Traceback (most recent call last):";
                  log_non_json "job_1" ("{" +:+ Sample.quoted "stage" +:+ ": }")]
  /\ List.length (ipc m) = 2.
Proof. repeat split; vm_compute; reflexivity. Qed.

(** [{"stage":{"toString":1},"success":true,"output_path":"/x"}]: the
    stage cannot be made a key of [stageAgentMap], [updateJobProgress]
    throws before it writes anything, and the line ends in the console as
    non-JSON output; with the stage ["done"] the same record is applied. *)
Example throwing_stage_is_logged :
  let record stage_text :=
    "{" +:+ Sample.quoted "stage" +:+ ":" +:+ stage_text +:+ ","
        +:+ Sample.quoted "success" +:+ ":true,"
        +:+ Sample.quoted "output_path" +:+ ":" +:+ Sample.quoted "/x" +:+ "}" in
  let bad := record ("{" +:+ Sample.quoted "toString" +:+ ":1}") in
  let m := handleProcessOutput (rt := Reference.runtime) Sample.one_running "job_1"
             (with_LF bad) in
  let m' := handleProcessOutput (rt := Reference.runtime) Sample.one_running "job_1"
              (with_LF (record (Sample.quoted "done"))) in
  js_key (JObj [("toString", JNum (Finite 1 0))]) = key_throws
  /\ js_key (JArr [JStr "analysis"; JObj [("toString", JNull)]]) = key_throws
  /\ js_key (JObj [("valueOf", JNull)]) = key_of "[object Object]"
  /\ jobs m = jobs Sample.one_running
  /\ ipc m = []
  /\ console m = [log_non_json "job_1" bad]
  /\ job_status m' "job_1" = Some completed
  /\ job_outputPath m' "job_1" = Some (Some (JStr "/x"))
  /\ console m' = [].
Proof. repeat split; vm_compute; reflexivity. Qed.

(** The reference runtime on numbers out of the range of a double and on
    paths that are not normal. *)
Example reference_numbers_and_paths :
  Reference.parse_object ("{" +:+ Sample.quoted "a" +:+ ":1e-400,"
                              +:+ Sample.quoted "b" +:+ ":-1e400,"
                              +:+ Sample.quoted "c" +:+ ":5e-324}")
  = Some [("a", JNum (Finite 0 0)); ("b", JNum (Infinite true)); ("c", JNum (Finite 5 (-324)))]
  /\ truthy (JNum (Finite 0 0)) = false
  /\ Reference.path_join ["/a/"; "../b"; ""; "./c/"] = "/b/c/"
  /\ Reference.path_join ["a"; ".."; ".."; "b"] = "../b"
  /\ Reference.path_join [""; ""] = "."
  /\ Reference.path_join ["/home/user"; "Pictures"; "Agentic Photo Editor"]
     = "/home/user/Pictures/Agentic Photo Editor"
  /\ Reference.dirname "/a/b/" = "/a"
  /\ Reference.dirname "/a" = "/"
  /\ Reference.dirname "a" = "."
  /\ Reference.dirname "a//b" = "a/".
Proof. repeat split; vm_compute; reflexivity. Qed.

(** * The rest of the main process *)

(** ** [getJobStatus], [getSerializableJob], [getSerializableJobs] *)

(** A job as it leaves the main process: every property but [process]. *)
Record SerializableJob : Type := mkSerializableJob {
  s_id : string;
  s_status : Status;
  s_inputPath : string;
  s_outputPath : property;
  s_progress : ProcessingProgress
}.

Definition getSerializableJob (job : ProcessingJob) : SerializableJob :=
  mkSerializableJob (id job) (status job) (inputPath job) (outputPath job) (progress job).

(** [None] is [null]. *)
Definition getJobStatus (m : Main) (jobId : string) : option SerializableJob :=
  getSerializableJob <$> jobs m !! jobId.

(** The jobs of the table, each without its process. The table of the
    model does not keep the order of insertion, so the order of this list
    is not the order of the array; only what the list holds is meant. *)
Definition getSerializableJobs (m : Main) : list SerializableJob :=
  (fun kv => getSerializableJob (snd kv)) <$> map_to_list (jobs m).

(** ** Traces without an exit notification *)

Definition is_close (hn : Host * Notification) : bool :=
  match snd hn with
  | close _ => true
  | _ => false
  end.

(** A line that [handleProcessOutput] drops, applies as a structured
    record or writes to the console. *)
Definition count_records {rt : Runtime} (output : string) : nat :=
  List.length (omap applied_record (output_lines output)).

Definition is_diagnostic {rt : Runtime} (l : string) : bool :=
  match applied_record l with Some _ => false | None => true end.

Definition count_diagnostics {rt : Runtime} (output : string) : nat :=
  List.length (List.filter is_diagnostic (output_lines output)).

(** * The processing panel of the renderer *)

(** The state of [ProcessingPanel] (ProcessingPanel.tsx) that shows jobs:
    the list [jobs], and [activeJob], the copy of one job that the detail
    pane shows. Every handler is a function of the previous state, as the
    updaters it passes to [setJobs] and [setActiveJob] are. The loading
    flag and the time of the last update hold nothing about a job and are
    left out. *)
Module ProcessingPanel.

Record ProcessingJob : Type := mkJob {
  id : string;
  status : Status;
  inputPath : string;
  outputPath : property;
  progress : ProcessingProgress;
  startTime : option Z;
  endTime : option Z
}.

Record Panel : Type := mkPanel {
  jobs : list ProcessingJob;
  activeJob : option ProcessingJob
}.

(** A job as [getAllJobs] and [getJobStatus] deliver it. *)
Definition of_serializable (s : SerializableJob) : ProcessingJob :=
  mkJob (s_id s) (s_status s) (s_inputPath s) (s_outputPath s) (s_progress s) None None.

(** [prev.map(job => job.id === jobId ? f(job) : job)] *)
Definition update_job (jobId : string) (f : ProcessingJob -> ProcessingJob)
    (prev : list ProcessingJob) : list ProcessingJob :=
  List.map (fun job => if String.eqb (id job) jobId then f job else job) prev.

(** [activeJob?.id === jobId], on the [activeJob] a handler sees: that of
    the render in which the handler was defined. *)
Definition is_active (seen : option ProcessingJob) (jobId : string) : bool :=
  match seen with
  | Some job => String.eqb (id job) jobId
  | None => false
  end.

(** [{ ...job, progress: data.progress }] *)
Definition with_progress (p : ProcessingProgress) (job : ProcessingJob) : ProcessingJob :=
  mkJob (id job) (status job) (inputPath job) (outputPath job) p
    (startTime job) (endTime job).

(** The entry [handleJobCompleted] writes; [now] is [Date.now()]. *)
Definition as_completed (now : Z) (success : bool) (finalStatus : ProcessingProgress)
    (out : property) (job : ProcessingJob) : ProcessingJob :=
  mkJob (id job) (if success then completed else failed) (inputPath job)
    (if truthy_prop out then out else outputPath job) finalStatus
    (startTime job) (Some now).

(** The entry [handleJobError] writes. *)
Definition as_failed (now : Z) (error : string) (job : ProcessingJob) : ProcessingJob :=
  mkJob (id job) failed (inputPath job) (outputPath job)
    (set_message (JStr ("Error: " +:+ error)) (progress job))
    (startTime job) (Some now).

(** The entry [cancelJob] writes. *)
Definition as_cancelled (job : ProcessingJob) : ProcessingJob :=
  mkJob (id job) failed (inputPath job) (outputPath job)
    (set_message (JStr "Cancelled by user") (progress job))
    (startTime job) (endTime job).

(** [setActiveJob(prev => prev ? f(prev) : null)], under the test the
    handler makes first. *)
Definition update_active (seen : option ProcessingJob) (jobId : string)
    (f : ProcessingJob -> ProcessingJob) (prev : option ProcessingJob)
  : option ProcessingJob :=
  if is_active seen jobId then option_map f prev else prev.

Definition handleJobProgress (seen : option ProcessingJob) (jobId : string)
    (p : ProcessingProgress) (s : Panel) : Panel :=
  mkPanel (update_job jobId (with_progress p) (jobs s))
    (update_active seen jobId (with_progress p) (activeJob s)).

Definition handleJobCompleted (seen : option ProcessingJob) (now : Z) (jobId : string)
    (success : bool) (finalStatus : ProcessingProgress) (out : property) (s : Panel)
  : Panel :=
  mkPanel (update_job jobId (as_completed now success finalStatus out) (jobs s))
    (update_active seen jobId (as_completed now success finalStatus out) (activeJob s)).

(** [handleJobError] does not write to [activeJob]. *)
Definition handleJobError (now : Z) (jobId : string) (error : string) (s : Panel) : Panel :=
  mkPanel (update_job jobId (as_failed now error) (jobs s)) (activeJob s).

(** The update made once the call of the main process's [cancelJob] has
    come back; what it returned is not looked at, and [activeJob] is not
    written to. *)
Definition cancelJob (jobId : string) (s : Panel) : Panel :=
  mkPanel (update_job jobId as_cancelled (jobs s)) (activeJob s).

(** The update of the one-second timer that polls the active job while it
    is shown as running: [updatedJob] is what the main process's
    [getJobStatus] answered for that job, and [null] changes nothing. The
    answer becomes the active job and replaces its entry in the list
    whole, start and end time included. *)
Definition refresh (updatedJob : option SerializableJob) (s : Panel) : Panel :=
  match updatedJob with
  | Some u =>
      mkPanel (update_job (s_id u) (fun _ => of_serializable u) (jobs s))
        (Some (of_serializable u))
  | None => s
  end.

(** A click on the entry at place [i] of the list: [setActiveJob(job)]. *)
Definition select (i : nat) (s : Panel) : Panel :=
  match jobs s !! i with
  | Some job => mkPanel (jobs s) (Some job)
  | None => s
  end.

(** [loadJobs], called when the panel is mounted, with what [getAllJobs]
    answered: the first running job becomes the active one, or else the
    first job. *)
Definition loadJobs (allJobs : list SerializableJob) (s : Panel) : Panel :=
  let loaded := List.map of_serializable allJobs in
  mkPanel loaded
    (match List.find (fun job => match status job with running => true | _ => false end)
             loaded with
     | Some job => Some job
     | None =>
         match loaded with
         | first :: _ => Some first
         | [] => activeJob s
         end
     end).

(** The state before [loadJobs] has answered. *)
Definition initial : Panel := mkPanel [] None.

(** The listeners on the three channels. The effect that registers them
    has no dependencies: it runs once, after the first render, and the
    handlers it registers are those of that render, which see the
    [activeJob] of that render, [null]. *)
Definition receive (now : Z) (s : Panel) (msg : IpcMessage) : Panel :=
  match msg with
  | job_progress jobId p => handleJobProgress None jobId p s
  | job_completed jobId success finalStatus out =>
      handleJobCompleted None now jobId success finalStatus out s
  | job_error jobId error => handleJobError now jobId error s
  end.

Definition is_separator (c : ascii) : bool := Ascii.eqb c "/" || Ascii.eqb c "\".

(** [path.split(/[/\\]/)]: the pieces between separators, never an empty
    list. *)
Fixpoint split_path (s : string) : list string :=
  match s with
  | EmptyString => [EmptyString]
  | String c r =>
      if is_separator c then EmptyString :: split_path r
      else match split_path r with
           | h :: t => String c h :: t
           | [] => [String c EmptyString]
           end
  end.

(** [path.split(/[/\\]/).pop() || path] *)
Definition getFileName (path : string) : string :=
  let name := List.last (split_path path) EmptyString in
  if is_empty name then path else name.

End ProcessingPanel.

(** A panel mounted when the table holds the one running job of
    [Sample.one_running]. *)
Definition mounted_panel : ProcessingPanel.Panel :=
  ProcessingPanel.loadJobs [getSerializableJob Sample.running_job] ProcessingPanel.initial.

(** The updates of the panel: for a message received, for a cancel
    request of the user, for the answer to a poll, for a click on an entry
    of the list. *)
Inductive PanelUpdate : Type :=
  | received (now : Z) (msg : IpcMessage)
  | cancelled (jobId : string)
  | polled (updatedJob : option SerializableJob)
  | clicked (i : nat).

Definition panel_update (prev : ProcessingPanel.Panel) (u : PanelUpdate)
  : ProcessingPanel.Panel :=
  match u with
  | received now msg => ProcessingPanel.receive now prev msg
  | cancelled jobId => ProcessingPanel.cancelJob jobId prev
  | polled updatedJob => ProcessingPanel.refresh updatedJob prev
  | clicked i => ProcessingPanel.select i prev
  end.

Definition is_polled (u : PanelUpdate) : bool :=
  match u with
  | polled _ => true
  | _ => false
  end.

(** ** The main process and a mounted panel together *)

(** The messages a step of the main process has added to the channel. *)
Definition new_messages (before after : Main) : list IpcMessage :=
  drop (List.length (ipc before)) (ipc after).

(** The panel receives, in order, the messages added between two states of
    the main process. *)
Definition deliver (now : Z) (before after : Main) (panel : ProcessingPanel.Panel)
  : ProcessingPanel.Panel :=
  fold_left (ProcessingPanel.receive now) (new_messages before after) panel.

(** What happens to the two together: the main process is notified of
    something about the job (at the panel's time [now]), the panel's
    timer polls the job [activeId], or the user clicks on the entry at
    place [i] of the list. *)
Inductive SystemEvent : Type :=
  | notified (now : Z) (h : Host) (n : Notification)
  | refreshed (activeId : string)
  | selected (i : nat).

(** One event. A notification: the main process handles it, then the panel
    receives the messages this has sent, in order; after a cancel request
    the panel makes its own update. A poll: the panel takes the answer of
    [getJobStatus], which is taken to arrive before the main process is
    notified of anything else. The timer asks for the job that was active
    when it was set; the model lets a poll come for any job at any
    time. *)
Definition system_step {rt : Runtime} (jobId : string)
    (s : Main * ProcessingPanel.Panel) (e : SystemEvent)
  : Main * ProcessingPanel.Panel :=
  match e with
  | notified now h n =>
      let m' := step jobId (fst s) (h, n) in
      let panel := deliver now (fst s) m' (snd s) in
      (m', match n with
           | cancel => ProcessingPanel.cancelJob jobId panel
           | _ => panel
           end)
  | refreshed activeId =>
      (fst s, ProcessingPanel.refresh (getJobStatus (fst s) activeId) (snd s))
  | selected i => (fst s, ProcessingPanel.select i (snd s))
  end.

Definition system_run {rt : Runtime} (jobId : string)
    (s : Main * ProcessingPanel.Panel) (trace : list SystemEvent)
  : Main * ProcessingPanel.Panel :=
  fold_left (system_step jobId) trace s.

(** The notifications of a trace, as the main process gets them. *)
Definition notifications (trace : list SystemEvent) : list (Host * Notification) :=
  omap (fun e => match e with
                 | notified _ h n => Some (h, n)
                 | refreshed _ | selected _ => None
                 end) trace.

Definition is_notified (e : SystemEvent) : bool :=
  match e with
  | notified _ _ _ => true
  | refreshed _ | selected _ => false
  end.

(** The main process has only appended to the channel. *)
Definition extends (m m' : Main) : Prop := exists news, ipc m' = ipc m ++ news.

(** Every entry of the list for the job shows the progress the main
    process has for it. *)
Definition mirrors_progress (jobId : string) (m : Main)
    (entries : list ProcessingPanel.ProcessingJob) : Prop :=
  forall rj, In rj entries -> ProcessingPanel.id rj = jobId ->
             Some (ProcessingPanel.progress rj) = progress <$> jobs m !! jobId.

Definition is_cancel (e : SystemEvent) : bool :=
  match e with
  | notified _ _ cancel => true
  | _ => false
  end.

(** What the main process does over its life with its table of jobs: it
    starts a job, or it is notified of something about one (the handlers
    of a job are closures over its id). Nothing else writes to the
    table. *)
Inductive Operation : Type :=
  | started (h : Host) (options : StartOptions)
  | job_notified (jobId : string) (h : Host) (n : Notification).

Definition operate {rt : Runtime} (m : Main) (op : Operation) : Main :=
  match op with
  | started h options => fst (startProcessing h m options)
  | job_notified jobId h n => step jobId m (h, n)
  end.

(** Every job of the table is filed under its own id. *)
Definition keyed_by_id (m : Main) : Prop :=
  forall k job, jobs m !! k = Some job -> id job = k.

(** The five agents every job starts with. *)
Definition agent_names : list string :=
  ["analysis"; "background"; "gemini"; "imagemagick"; "qc"].

(** * Settings, keys and dropped files in the main process *)

(** ** [validateAPIKey] *)

(** [String.prototype.toLowerCase] on code units below 256: the letters
    A to Z and the accented capitals U+00C0 to U+00DE (but not the
    multiplication sign U+00D7) move up by 32. *)
Definition toLowerCase_char (c : ascii) : ascii :=
  let n := nat_of_ascii c in
  if (Nat.leb 65 n && Nat.leb n 90)
     || (Nat.leb 192 n && Nat.leb n 222 && negb (Nat.eqb n 215))
  then ascii_of_nat (n + 32) else c.

Fixpoint toLowerCase (s : string) : string :=
  match s with
  | EmptyString => EmptyString
  | String c r => String (toLowerCase_char c) (toLowerCase r)
  end.

Definition is_alphanumeric (c : ascii) : bool :=
  let n := nat_of_ascii c in
  (Nat.leb 97 n && Nat.leb n 122) || (Nat.leb 65 n && Nat.leb n 90)
  || (Nat.leb 48 n && Nat.leb n 57).

Fixpoint all_chars (p : ascii -> bool) (s : string) : bool :=
  match s with
  | EmptyString => true
  | String c r => p c && all_chars p r
  end.

(** [/^[a-zA-Z0-9_-]+$/.test(s)] *)
Definition gemini_pattern (s : string) : bool :=
  negb (is_empty s)
  && all_chars (fun c => is_alphanumeric c || Ascii.eqb c "_" || Ascii.eqb c "-") s.

(** [/^[a-zA-Z0-9]+$/.test(s)] *)
Definition removebg_pattern (s : string) : bool :=
  negb (is_empty s) && all_chars is_alphanumeric s.

(** [{ valid, message? }] *)
Record KeyValidation : Type := mkKeyValidation {
  key_valid : bool;
  key_message : option string
}.

Definition rejected (why : string) : KeyValidation := mkKeyValidation false (Some why).
Definition accepted : KeyValidation := mkKeyValidation true None.

(** Nothing in the [try] block throws on strings, so the [catch] block is
    never entered. *)
Definition validateAPIKey (provider key : string) : KeyValidation :=
  if is_empty key || is_empty (trim key) then rejected "API key is required"
  else
    let p := toLowerCase provider in
    if String.eqb p "anthropic" then
      if negb (startsWith "sk-ant-" key) then rejected "Invalid Anthropic API key format"
      else if Nat.ltb (String.length key) 20 then rejected "Anthropic API key appears too short"
      else accepted
    else if String.eqb p "gemini" then
      if Nat.ltb (String.length key) 20 || negb (gemini_pattern key)
      then rejected "Invalid Gemini API key format"
      else accepted
    else if String.eqb p "removebg" then
      if Nat.ltb (String.length key) 10 || negb (removebg_pattern key)
      then rejected "Invalid Remove.bg API key format"
      else accepted
    else rejected "Unknown API provider".

(** ** [loadSettings], [saveSettings], [saveFileData] *)

(** More of the library: [JSON.parse] on any text, [JSON.stringify] with
    an indentation of 2, and the [ext] and [name] of [path.parse]. *)
Class Library : Type := mkLibrary {
  JSON_parse_text : string -> option json;
  JSON_stringify : json -> string;
  path_parse_ext : string -> string;
  path_parse_name : string -> string
}.

(** What the file system and the clock answer during one call; [None] and
    [false] stand for a thrown exception. *)
Record Disk : Type := mkDisk {
  d_existsSync : string -> bool;
  d_readFileSync : string -> option string;
  d_mkdirSync : string -> bool;
  d_writeFileSync : string -> string -> bool;
  (** [Date.now()] *)
  d_now : N
}.

(** What a call has done to the file system. *)
Inductive DiskEffect : Type :=
| made_directory (p : string)
| wrote_file (p : string) (content : string).

Inductive SettingsConsole : Type :=
| error_load_settings
| error_save_settings
| log_saved_file (fileName tempFilePath : string)
| error_save_file_data.

Definition default_settings : json :=
  JObj [ ("apiKeys", JObj [ ("anthropic", JStr ""); ("gemini", JStr "");
                            ("removeBg", JStr "") ]);
         ("processing", JObj [ ("qualityThreshold", JNum (Finite 8 0));
                               ("retryAttempts", JNum (Finite 2 0));
                               ("maxConcurrent", JNum (Finite 3 0)) ]);
         ("ui", JObj [ ("theme", JStr "dark"); ("showPreview", JBool true);
                       ("autoSave", JBool true) ]) ].

Section Files.
Context {rt : Runtime} {lib : Library}.

Definition loadSettings (d : Disk) : json * list SettingsConsole :=
  let settingsPath := path_join [os_homedir; ".agentic-photo-editor"; "settings.json"] in
  if d_existsSync d settingsPath then
    match d_readFileSync d settingsPath with
    | Some settingsData =>
        match JSON_parse_text settingsData with
        | Some settings => (settings, [])
        | None => (default_settings, [error_load_settings])
        end
    | None => (default_settings, [error_load_settings])
    end
  else (default_settings, []).

(** [settings] is taken to be a JSON value. *)
Definition saveSettings (d : Disk) (settings : json)
  : list DiskEffect * list SettingsConsole * bool :=
  let settingsDir := path_join [os_homedir; ".agentic-photo-editor"] in
  let settingsPath := path_join [settingsDir; "settings.json"] in
  let made := if d_existsSync d settingsDir then [] else [made_directory settingsDir] in
  if negb (d_existsSync d settingsDir) && negb (d_mkdirSync d settingsDir)
  then ([], [error_save_settings], false)
  else
    let text := JSON_stringify settings in
    if d_writeFileSync d settingsPath text
    then (made ++ [wrote_file settingsPath text], [], true)
    else (made, [error_save_settings], false).

Inductive SaveFileError : Type :=
| unsupported_file_type (extension : string)
| mkdir_threw
| failed_to_save_file (fileName : string).

Definition allowedExtensions : list string := [".jpg"; ".jpeg"; ".png"; ".webp"].

(** [fileData] is the content of the buffer, one character per byte. *)
Definition saveFileData (d : Disk) (fileName fileData : string)
  : list DiskEffect * list SettingsConsole * (SaveFileError + string) :=
  let extension := toLowerCase (path_parse_ext fileName) in
  if negb (existsb (String.eqb extension) allowedExtensions)
  then ([], [], inl (unsupported_file_type extension))
  else
    let tempDir := path_join [os_tmpdir; "agentic-photo-editor-temp"] in
    let made := if d_existsSync d tempDir then [] else [made_directory tempDir] in
    if negb (d_existsSync d tempDir) && negb (d_mkdirSync d tempDir)
    then ([], [], inl mkdir_threw)
    else
      let baseName := path_parse_name fileName in
      let uniqueFileName := baseName +:+ "_" +:+ pretty (d_now d) +:+ extension in
      let tempFilePath := path_join [tempDir; uniqueFileName] in
      if d_writeFileSync d tempFilePath fileData
      then (made ++ [wrote_file tempFilePath fileData],
            [log_saved_file fileName tempFilePath], inr tempFilePath)
      else (made, [error_save_file_data], inl (failed_to_save_file fileName)).

End Files.

(** ** A reference library, to evaluate the model on concrete inputs *)

(** [JSON.stringify(v, null, 2)] for values whose objects have no member
    twice and whose numbers are between 1e-6 and 1e21 in size, and
    [path.parse] of POSIX for a plain file name. The theorems about every
    library do not depend on this module. *)
Module ReferenceLibrary.

Definition hex (n : nat) : ascii :=
  ascii_of_nat (if Nat.ltb n 10 then 48 + n else 87 + n).

Definition escape_char (c : ascii) : string :=
  let n := nat_of_ascii c in
  if Ascii.eqb c DQUOTE then String "\" (String DQUOTE EmptyString)
  else if Ascii.eqb c "\" then "\\"
  else if Nat.eqb n 8 then "\b"
  else if Nat.eqb n 12 then "\f"
  else if Nat.eqb n 10 then "\n"
  else if Nat.eqb n 13 then "\r"
  else if Nat.eqb n 9 then "\t"
  else if Nat.ltb n 32
       then "\u00" +:+ String (hex (Nat.div n 16)) (String (hex (Nat.modulo n 16)) EmptyString)
       else String c EmptyString.

Fixpoint escape (s : string) : string :=
  match s with
  | EmptyString => EmptyString
  | String c r => escape_char c +:+ escape r
  end.

Definition quote (s : string) : string :=
  String DQUOTE (escape s) +:+ String DQUOTE EmptyString.

Fixpoint zeros (n : nat) : string :=
  match n with
  | 0 => EmptyString
  | S k => String "0" (zeros k)
  end.

Fixpoint strip_zeros (s : string) : string :=
  match s with
  | EmptyString => EmptyString
  | String c r =>
      match strip_zeros r with
      | EmptyString => if Ascii.eqb c "0" then EmptyString else String c EmptyString
      | r' => String c r'
      end
  end.

Fixpoint take_chars (n : nat) (s : string) : string :=
  match n, s with
  | S k, String c r => String c (take_chars k r)
  | _, _ => EmptyString
  end.

Definition print_number (x : number) : string :=
  match x with
  | Infinite _ => "null"
  | Finite m e =>
      if Z.eqb m 0 then "0"
      else
        let sign := if Z.ltb m 0 then "-" else "" in
        let ds := pretty (Z.abs m) in
        if Z.leb 0 e then sign +:+ ds +:+ zeros (Z.to_nat e)
        else
          let k := Z.to_nat (Z.opp e) in
          let padded := zeros (S k - String.length ds) +:+ ds in
          let n := String.length padded - k in
          let frac := strip_zeros (Reference.drop_chars n padded) in
          sign +:+ take_chars n padded
               +:+ (if is_empty frac then EmptyString else String "." frac)
  end.

Definition newline (indent : string) : string := String LF indent.

Fixpoint stringify_at (indent : string) (v : json) : string :=
  match v with
  | JNull => "null"
  | JBool b => if b then "true" else "false"
  | JNum x => print_number x
  | JStr s => quote s
  | JArr [] => "[]"
  | JArr (first :: rest) =>
      let inner := "  " +:+ indent in
      "[" +:+ newline inner +:+ stringify_at inner first
          +:+ (fix items (l : list json) : string :=
                 match l with
                 | [] => EmptyString
                 | x :: r => "," +:+ newline inner +:+ stringify_at inner x +:+ items r
                 end) rest
          +:+ newline indent +:+ "]"
  | JObj [] => "{}"
  | JObj ((k, first) :: rest) =>
      let inner := "  " +:+ indent in
      "{" +:+ newline inner +:+ quote k +:+ ": " +:+ stringify_at inner first
          +:+ (fix members (l : list (string * json)) : string :=
                 match l with
                 | [] => EmptyString
                 | (k', x) :: r =>
                     "," +:+ newline inner +:+ quote k' +:+ ": " +:+ stringify_at inner x
                         +:+ members r
                 end) rest
          +:+ newline indent +:+ "}"
  end.

Definition stringify (v : json) : string := stringify_at EmptyString v.

(** The position of the last dot of a name, if it is not its first
    character. *)
Fixpoint last_dot (s : string) : option nat :=
  match s with
  | EmptyString => None
  | String c r =>
      match last_dot r with
      | Some i => Some (S i)
      | None => if Ascii.eqb c "." then Some 0 else None
      end
  end.

Definition parse_name_ext (base : string) : string * string :=
  if String.eqb base ".." then (base, EmptyString)
  else match last_dot base with
       | Some (S i) => (take_chars (S i) base, Reference.drop_chars (S i) base)
       | _ => (base, EmptyString)
       end.

Definition library : Library :=
  mkLibrary Reference.parse stringify (fun p => snd (parse_name_ext p))
    (fun p => fst (parse_name_ext p)).

End ReferenceLibrary.

Example stringify_settings :
  ReferenceLibrary.stringify
    (JObj [("a", JObj [("k", JStr "x")]); ("n", JNum (Finite 85 (-1))); ("l", JArr [])])
  = stream ["{"; "  " +:+ Sample.quoted "a" +:+ ": {";
            "    " +:+ Sample.quoted "k" +:+ ": " +:+ Sample.quoted "x"; "  },";
            "  " +:+ Sample.quoted "n" +:+ ": 8.5,";
            "  " +:+ Sample.quoted "l" +:+ ": []"] "}"
  /\ Reference.parse (ReferenceLibrary.stringify default_settings) = Some default_settings
  /\ ReferenceLibrary.parse_name_ext "photo.final.JPG" = ("photo.final", ".JPG")
  /\ ReferenceLibrary.parse_name_ext ".hidden" = (".hidden", "").
Proof. repeat split; vm_compute; reflexivity. Qed.

(** * Properties *)

(** ** The state after a write *)

Section Projections.
Variables (m : Main) (jobId : string).

Lemma jobs_put_job j : jobs (put_job jobId j m) = <[jobId := j]> (jobs m).
Proof. reflexivity. Qed.

Lemma jobs_send msg : jobs (send msg m) = jobs m.
Proof. reflexivity. Qed.

Lemma jobs_console_write l : jobs (console_write l m) = jobs m.
Proof. reflexivity. Qed.

Lemma jobs_record_signal c sig : jobs (record_signal c sig m) = jobs m.
Proof. reflexivity. Qed.

Lemma jobs_record_spawn r c : jobs (record_spawn r c m) = jobs m.
Proof. reflexivity. Qed.

Lemma lookup_put_job j : jobs (put_job jobId j m) !! jobId = Some j.
Proof. rewrite jobs_put_job. apply lookup_insert_eq. Qed.

Lemma lookup_put_job_ne other j :
  jobId <> other -> jobs (put_job jobId j m) !! other = jobs m !! other.
Proof. intros Hne. rewrite jobs_put_job. by apply lookup_insert_ne. Qed.

End Projections.

(** ** What [updateJobProgress] does to status and output path *)

Lemma when_truthy_true {A : Type} (v : json) (f : json -> A -> A) (x : A) :
  truthy v = true -> when_truthy (Some v) f x = f v x.
Proof. intros H. unfold when_truthy. by rewrite H. Qed.

Lemma when_truthy_false {A : Type} (p : property) (f : json -> A -> A) (x : A) :
  truthy_prop p = false -> when_truthy p f x = x.
Proof. destruct p as [v|]; simpl; [|done]. intros H. by rewrite H. Qed.

Lemma status_apply_fields pd a job :
  status (apply_fields pd a job)
  = if truthy_prop (get "success" pd) then completed else status job.
Proof.
  unfold apply_fields.
  destruct (get "success" pd) as [sv|]; simpl.
  - destruct (truthy sv); simpl.
    + reflexivity.
    + destruct (get "output_path" pd) as [ov|]; simpl; [destruct (truthy ov)|]; reflexivity.
  - destruct (get "output_path" pd) as [ov|]; simpl; [destruct (truthy ov)|]; reflexivity.
Qed.

Lemma outputPath_apply_fields pd a job :
  outputPath (apply_fields pd a job)
  = if truthy_prop (get "output_path" pd) then get "output_path" pd else outputPath job.
Proof.
  unfold apply_fields.
  destruct (get "success" pd) as [sv|]; simpl; [destruct (truthy sv); simpl|];
    (destruct (get "output_path" pd) as [ov|]; simpl; [destruct (truthy ov)|]; reflexivity).
Qed.

Lemma process_apply_fields pd a job : process (apply_fields pd a job) = process job.
Proof.
  unfold apply_fields.
  destruct (get "success" pd) as [sv|]; simpl; [destruct (truthy sv); simpl|];
    (destruct (get "output_path" pd) as [ov|]; simpl; [destruct (truthy ov)|]; reflexivity).
Qed.

(** [updateJobProgress] throws on exactly the records of [record_throws]. *)
Lemma update_agentStatus_throws pd a :
  update_agentStatus pd a = None <-> record_throws pd = true.
Proof.
  unfold update_agentStatus, update_from_stage, record_throws.
  destruct (get "agentStatus" pd) as [d|]; cbn [truthy_prop];
    [destruct (truthy d); cbn [negb andb]; [done|]|cbn [negb andb]];
    (destruct (get "stage" pd) as [st|]; [|done];
     destruct (truthy st); cbn [andb]; [|done];
     destruct (lookup_throws st); [done|];
     by destruct (stageAgentMap_lookup st)).
Qed.

Lemma apply_progress_throws pd job :
  apply_progress pd job = None <-> record_throws pd = true.
Proof.
  rewrite <- (update_agentStatus_throws pd (agentStatus (progress job))).
  unfold apply_progress. by destruct (update_agentStatus pd _).
Qed.

Lemma apply_progress_Some pd job job' :
  apply_progress pd job = Some job' ->
  record_throws pd = false
  /\ exists a, update_agentStatus pd (agentStatus (progress job)) = Some a
               /\ job' = apply_fields pd a job.
Proof.
  intros H. split.
  - destruct (record_throws pd) eqn:E; [|done].
    apply (apply_progress_throws pd job) in E. congruence.
  - unfold apply_progress in H.
    destruct (update_agentStatus pd _) as [a|]; [|done].
    injection H as <-. eauto.
Qed.

Lemma apply_progress_returns pd job :
  record_throws pd = false -> is_Some (apply_progress pd job).
Proof.
  intros E. destruct (apply_progress pd job) eqn:H; [by eexists|].
  apply apply_progress_throws in H. congruence.
Qed.

Lemma status_apply_progress pd job job' :
  apply_progress pd job = Some job' ->
  status job' = if truthy_prop (get "success" pd) then completed else status job.
Proof. intros (_ & a & _ & ->)%apply_progress_Some. apply status_apply_fields. Qed.

Lemma outputPath_apply_progress pd job job' :
  apply_progress pd job = Some job' ->
  outputPath job'
  = if truthy_prop (get "output_path" pd) then get "output_path" pd else outputPath job.
Proof. intros (_ & a & _ & ->)%apply_progress_Some. apply outputPath_apply_fields. Qed.

Lemma process_apply_progress pd job job' :
  apply_progress pd job = Some job' -> process job' = process job.
Proof. intros (_ & a & _ & ->)%apply_progress_Some. apply process_apply_fields. Qed.

(** The job after a call of [updateJobProgress], whether it returned or
    threw. *)
Lemma lookup_updateJobProgress m jobId pd :
  jobs (fst (updateJobProgress m jobId pd)) !! jobId
  = (fun job => default job (apply_progress pd job)) <$> jobs m !! jobId.
Proof.
  unfold updateJobProgress.
  destruct (jobs m !! jobId) as [job|] eqn:E; simpl.
  - destruct (apply_progress pd job) as [job'|]; cbn [fst default from_option Datatypes.id].
    + apply lookup_insert_eq.
    + exact E.
  - by rewrite E.
Qed.

Lemma lookup_updateJobProgress_ne m jobId other pd :
  jobId <> other -> jobs (fst (updateJobProgress m jobId pd)) !! other = jobs m !! other.
Proof.
  intros Hne. unfold updateJobProgress.
  destruct (jobs m !! jobId) as [job|]; simpl; [|done].
  destruct (apply_progress pd job); cbn [fst]; [|done].
  by apply lookup_insert_ne.
Qed.

Lemma snd_updateJobProgress m jobId pd job :
  jobs m !! jobId = Some job ->
  snd (updateJobProgress m jobId pd)
  = if record_throws pd then call_threw else call_returned.
Proof.
  intros Hjob. unfold updateJobProgress. rewrite Hjob.
  destruct (apply_progress pd job) as [job'|] eqn:E.
  - apply apply_progress_Some in E as [-> _]. reflexivity.
  - apply apply_progress_throws in E as ->. reflexivity.
Qed.

Lemma updateJobProgress_throws m jobId pd :
  snd (updateJobProgress m jobId pd) = call_threw ->
  fst (updateJobProgress m jobId pd) = m /\ record_throws pd = true.
Proof.
  unfold updateJobProgress.
  destruct (jobs m !! jobId) as [job|]; [|done].
  destruct (apply_progress pd job) as [job'|] eqn:E; [done|].
  intros _. split; [done|]. by apply (apply_progress_throws pd job).
Qed.

Lemma updateJobProgress_returns m jobId pd :
  record_throws pd = false ->
  snd (updateJobProgress m jobId pd) = call_returned.
Proof.
  intros E. destruct (snd (updateJobProgress m jobId pd)) eqn:H; [done|].
  apply updateJobProgress_throws in H as [_ H]. congruence.
Qed.

Lemma job_status_updateJobProgress m jobId pd :
  job_status (fst (updateJobProgress m jobId pd)) jobId
  = (fun s => if truthy_prop (get "success" pd) && negb (record_throws pd)
              then completed else s) <$> job_status m jobId.
Proof.
  unfold job_status. rewrite lookup_updateJobProgress.
  destruct (jobs m !! jobId) as [job|]; [|done].
  cbn [fmap option_fmap option_map]. f_equal.
  destruct (apply_progress pd job) as [job'|] eqn:E; cbn [default from_option Datatypes.id].
  - rewrite (status_apply_progress _ _ _ E).
    apply apply_progress_Some in E as [-> _]. by rewrite andb_true_r.
  - apply apply_progress_throws in E as ->. by rewrite andb_false_r.
Qed.

(** ** The [close] handler *)

Lemma find_output_file_status h {rt : Runtime} job j :
  find_output_file h job = Some j -> status j = status job /\ process j = process job.
Proof.
  unfold find_output_file. intros H.
  destruct (outputPath job) as [dir|]; [|by inversion H].
  destruct (readdirSync h dir) as [files|]; [|done].
  destruct (List.filter is_image_file files); [by inversion H|].
  destruct dir; inversion H; done.
Qed.

Lemma close_job_status {rt : Runtime} h code job :
  status (fst (close_job h code job)) = (if exit_ok code then completed else failed)
  /\ process (fst (close_job h code job)) = None.
Proof.
  unfold close_job.
  destruct (exit_ok code && _); [|done].
  destruct (find_output_file h _) as [j|] eqn:F; [|done].
  cbn [fst]. apply find_output_file_status in F as [-> ->]. done.
Qed.

Lemma lookup_on_close {rt : Runtime} h m jobId code :
  jobs (on_close h m jobId code) !! jobId
  = (fun job => fst (close_job h code job)) <$> jobs m !! jobId.
Proof.
  unfold on_close.
  destruct (jobs m !! jobId) as [job|] eqn:E; [|by rewrite E].
  cbn [fmap option_fmap option_map].
  destruct (close_job h code job) as [job2 caught].
  cbn [send put_job jobs fst]. apply lookup_insert_eq.
Qed.

Lemma job_status_on_close {rt : Runtime} h m jobId code :
  job_status (on_close h m jobId code) jobId
  = (fun _ => if exit_ok code then completed else failed) <$> job_status m jobId.
Proof.
  unfold job_status. rewrite lookup_on_close.
  destruct (jobs m !! jobId) as [job|]; simpl; [|done].
  by destruct (close_job_status h code job) as [-> _].
Qed.

(** ** An explicit success event against the exit code *)

(** C1, as the code has it: an event whose [success] is truthy sets the
    status to [completed] at once, unless [updateJobProgress] throws on
    it, which it does exactly when the event has no truthy [agentStatus]
    and its [stage] cannot be made a property key (an object with a
    [toString] member of its own, or an array that holds one); the state
    is then as it was. The exit notification that follows sets the status
    again from the exit code alone: [completed] for code 0, [failed] for
    any other code or a signal, whatever the events said. *)
Theorem success_event_then_exit {rt : Runtime} (h : Host) (m : Main) (jobId : string)
    (progressData : list (string * json)) (code : option Z) (job : ProcessingJob) :
  jobs m !! jobId = Some job ->
  truthy_prop (get "success" progressData) = true ->
  let m1 := fst (updateJobProgress m jobId progressData) in
  snd (updateJobProgress m jobId progressData)
  = (if record_throws progressData then call_threw else call_returned)
  /\ (if record_throws progressData then m1 = m
      else job_status m1 jobId = Some completed)
  /\ job_status (on_close h m1 jobId code) jobId
     = Some (if exit_ok code then completed else failed).
Proof.
  intros Hjob Hsuccess m1. subst m1.
  pose proof (snd_updateJobProgress m jobId progressData job Hjob) as Hsnd.
  pose proof (job_status_updateJobProgress m jobId progressData) as H1.
  unfold job_status at 2 in H1. rewrite Hjob, Hsuccess in H1. cbn in H1.
  split; [exact Hsnd|]. split.
  - destruct (record_throws progressData) eqn:E; [|exact H1].
    by apply updateJobProgress_throws in Hsnd as [-> _].
  - rewrite job_status_on_close, H1. reflexivity.
Qed.

Lemma success_event_then_exit_witness :
  (jobs Sample.one_running !! "job_1" = Some Sample.running_job
   /\ truthy_prop (get "success" [("success", JBool true)]) = true)
  /\ snd (updateJobProgress Sample.one_running "job_1" [("success", JBool true)])
     = call_returned
  /\ job_status (fst (updateJobProgress Sample.one_running "job_1" [("success", JBool true)]))
       "job_1" = Some completed
  /\ job_status
       (on_close (rt := Reference.runtime) (Sample.host 1)
          (fst (updateJobProgress Sample.one_running "job_1" [("success", JBool true)]))
          "job_1" (Some 0%Z)) "job_1"
     = Some completed.
Proof.
  split; [split; reflexivity|].
  exact (success_event_then_exit (rt := Reference.runtime) (Sample.host 1)
           Sample.one_running "job_1" [("success", JBool true)] (Some 0%Z)
           Sample.running_job eq_refl eq_refl).
Defined.

(** C1 fails on the code: the worker prints [{"success":true}], the job is
    [completed]; the process then exits with code 1 and the job is
    [failed]. *)
Lemma exit_code_downgrades_success :
  let m1 := handleProcessOutput (rt := Reference.runtime) Sample.one_running "job_1"
              (Sample.line Sample.success_true) in
  job_status m1 "job_1" = Some completed
  /\ job_status (on_close (rt := Reference.runtime) (Sample.host 1) m1 "job_1" (Some 1%Z))
       "job_1" = Some failed.
Proof. split; vm_compute; reflexivity. Qed.

(** ** Cancelling without a live process *)

(** C9: when the table has no job under [jobId], or the job has no process
    bound, [cancelJob] returns [false] and the whole state (every job, the
    messages sent, the signals sent) is as it was. *)
Theorem cancel_without_process (h : Host) (m : Main) (jobId : string) :
  (jobs m !! jobId = None
   \/ exists job, jobs m !! jobId = Some job /\ process job = None) ->
  cancelJob h m jobId = (m, false).
Proof.
  unfold cancelJob. intros [Hnone | (job & Hjob & Hproc)].
  - by rewrite Hnone.
  - by rewrite Hjob, Hproc.
Qed.

Lemma cancel_without_process_witness :
  (jobs Sample.empty_main !! "job_1" = None
   \/ exists job, jobs Sample.empty_main !! "job_1" = Some job /\ process job = None)
  /\ cancelJob (Sample.host 1) Sample.empty_main "job_1" = (Sample.empty_main, false).
Proof.
  split; [left; reflexivity|].
  apply (cancel_without_process (Sample.host 1) Sample.empty_main "job_1").
  left; reflexivity.
Defined.

(** ** Input validation of [startProcessing] *)

Lemma trimStart_all_whitespace s : all_whitespace s = true -> trimStart s = EmptyString.
Proof.
  induction s as [|c r IH]; simpl; [done|].
  intros [Hc Hr]%andb_prop. rewrite Hc. auto.
Qed.

Lemma trim_all_whitespace s : all_whitespace s = true -> trim s = EmptyString.
Proof. intros H. unfold trim. by rewrite trimStart_all_whitespace. Qed.

(** C10: when [inputPath] is empty or holds only whitespace,
    [startProcessing] throws the input-path-required error and the state
    is untouched: no job is added to the table and nothing is spawned. *)
Theorem start_rejects_blank_input {rt : Runtime} (h : Host) (m : Main)
    (options : StartOptions) :
  (opt_inputPath options = EmptyString \/ all_whitespace (opt_inputPath options) = true) ->
  startProcessing h m options = (m, thrown input_path_required).
Proof.
  intros Hblank. unfold startProcessing.
  assert (Hws : all_whitespace (opt_inputPath options) = true).
  { destruct Hblank as [-> | H]; [reflexivity | exact H]. }
  rewrite (trim_all_whitespace _ Hws). simpl.
  by rewrite orb_true_r.
Qed.

Lemma start_rejects_blank_input_witness :
  (opt_inputPath (mkOptions "   " None None single) = EmptyString
   \/ all_whitespace (opt_inputPath (mkOptions "   " None None single)) = true)
  /\ startProcessing (rt := Reference.runtime) (Sample.host 1) Sample.one_running
       (mkOptions "   " None None single)
     = (Sample.one_running, thrown input_path_required).
Proof.
  split; [right; reflexivity|].
  apply (start_rejects_blank_input (rt := Reference.runtime) (Sample.host 1)
           Sample.one_running (mkOptions "   " None None single)).
  right; reflexivity.
Defined.

(** ** How the status moves *)

Lemma status_le_refl o : status_le o o.
Proof. destruct o; simpl; lia. Qed.

Lemma status_le_trans a b c : status_le a b -> status_le b c -> status_le a c.
Proof. destruct a, b, c; simpl; try done; lia. Qed.

Lemma rank_terminal s s' : rank s <= rank s' -> is_terminal s = true -> is_terminal s' = true.
Proof. destruct s, s'; simpl; try done; lia. Qed.

Section StatusMoves.
Context {rt : Runtime}.
Variable jobId : string.

Lemma updateJobProgress_status_le m pd :
  status_le (job_status m jobId) (job_status (fst (updateJobProgress m jobId pd)) jobId).
Proof.
  rewrite job_status_updateJobProgress.
  destruct (job_status m jobId) as [s|]; simpl; [|done].
  destruct (_ && _); [destruct s; simpl; lia | lia].
Qed.

Lemma process_line_status_le m line :
  status_le (job_status m jobId) (job_status (process_line jobId m line) jobId).
Proof.
  unfold process_line.
  destruct (_ && _); [|apply status_le_refl].
  destruct (JSON_parse _) as [pd|]; [|apply status_le_refl].
  pose proof (updateJobProgress_status_le m pd) as H.
  by destruct (updateJobProgress m jobId pd) as [m' []].
Qed.

Lemma fold_process_line_status_le lines m :
  status_le (job_status m jobId) (job_status (fold_left (process_line jobId) lines m) jobId).
Proof.
  revert m. induction lines as [|l ls IH]; intros m; simpl; [apply status_le_refl|].
  eapply status_le_trans; [apply process_line_status_le | apply IH].
Qed.

Lemma handleProcessOutput_status_le m output :
  status_le (job_status m jobId) (job_status (handleProcessOutput m jobId output) jobId).
Proof.
  unfold handleProcessOutput.
  destruct (jobs m !! jobId); [apply fold_process_line_status_le | apply status_le_refl].
Qed.

Lemma job_status_handleProcessError m error :
  job_status (handleProcessError m jobId error) jobId = job_status m jobId.
Proof.
  unfold handleProcessError, job_status.
  destruct (jobs m !! jobId) as [job|] eqn:E; [|by rewrite E].
  cbn [send put_job jobs]. by rewrite lookup_insert_eq.
Qed.

Lemma on_stderr_status_le m data :
  status_le (job_status m jobId) (job_status (on_stderr m jobId data) jobId).
Proof.
  unfold on_stderr. rewrite job_status_handleProcessError. apply status_le_refl.
Qed.

Lemma on_close_status_le h m code :
  status_le (job_status m jobId) (job_status (on_close h m jobId code) jobId).
Proof.
  rewrite job_status_on_close.
  destruct (job_status m jobId) as [s|]; simpl; [|done].
  destruct (exit_ok code), s; simpl; lia.
Qed.

Lemma cancelJob_status_le h m :
  status_le (job_status m jobId) (job_status (fst (cancelJob h m jobId)) jobId).
Proof.
  unfold cancelJob, job_status.
  destruct (jobs m !! jobId) as [job|] eqn:E; [|cbn [fst]; rewrite E; done].
  destruct (process job) as [child|]; [|cbn [fst]; rewrite E; simpl; lia].
  destruct (kill h child "SIGTERM"); cbn [fst put_job record_signal console_write jobs].
  - rewrite lookup_insert_eq. simpl. destruct (status job); simpl; lia.
  - rewrite E. simpl. lia.
Qed.

Lemma step_status_le m hn :
  status_le (job_status m jobId) (job_status (step jobId m hn) jobId).
Proof.
  destruct hn as [h [chunk | chunk | code | ]]; simpl.
  - apply handleProcessOutput_status_le.
  - apply on_stderr_status_le.
  - apply on_close_status_le.
  - apply cancelJob_status_le.
Qed.

Lemma run_status_le trace m :
  status_le (job_status m jobId) (job_status (run jobId m trace) jobId).
Proof.
  unfold run. revert m.
  induction trace as [|hn trace IH]; intros m; simpl; [apply status_le_refl|].
  eapply status_le_trans; [apply step_status_le | apply IH].
Qed.

End StatusMoves.

(** C2, as the code has it: over every sequence of output chunks, error
    chunks, exit notifications and cancel requests for a job, the job stays
    in the table and its status never moves back along
    pending, running, finished; in particular a job that is [completed] or
    [failed] is [completed] or [failed] ever after, never [pending] or
    [running] again. (Which of the two it is can still change, and there
    is no cancelled status.) *)
Theorem status_never_moves_back {rt : Runtime} (jobId : string) (m : Main)
    (trace : list (Host * Notification)) (s : Status) :
  job_status m jobId = Some s ->
  exists s', job_status (run jobId m trace) jobId = Some s'
             /\ rank s <= rank s'
             /\ (is_terminal s = true -> is_terminal s' = true).
Proof.
  intros Hs.
  pose proof (run_status_le jobId trace m) as H. rewrite Hs in H.
  destruct (job_status (run jobId m trace) jobId) as [s'|]; simpl in H; [|done].
  exists s'. split; [done|]. split; [done|]. by apply rank_terminal.
Qed.

Lemma status_never_moves_back_witness :
  job_status Sample.one_running "job_1" = Some running
  /\ exists s',
       job_status
         (run (rt := Reference.runtime) "job_1" Sample.one_running
            [(Sample.host 1, stdout_data (Sample.line Sample.success_true));
             (Sample.host 1, close (Some 1%Z))]) "job_1" = Some s'
       /\ rank running <= rank s'
       /\ (is_terminal running = true -> is_terminal s' = true).
Proof.
  split; [reflexivity|].
  apply (status_never_moves_back (rt := Reference.runtime) "job_1" Sample.one_running
           [(Sample.host 1, stdout_data (Sample.line Sample.success_true));
            (Sample.host 1, close (Some 1%Z))] running).
  reflexivity.
Defined.

(** C2 fails on the code: the job is cancelled, which makes it [failed];
    the worker, not yet dead, prints [{"success":true}] and the job is
    [completed]. *)
Lemma terminal_status_changes :
  job_status
    (run (rt := Reference.runtime) "job_1" Sample.one_running [(Sample.host 1, cancel)])
    "job_1" = Some failed
  /\ job_status
       (run (rt := Reference.runtime) "job_1" Sample.one_running
          [(Sample.host 1, cancel);
           (Sample.host 1, stdout_data (Sample.line Sample.success_true))])
       "job_1" = Some completed.
Proof. split; vm_compute; reflexivity. Qed.

(** ** Cancelling a job with a live process *)

(** C3, as the code has it: for a job with a process bound, when [kill]
    does not throw, [cancelJob] sends SIGTERM to that process, returns
    [true], and leaves the job [failed] with the message
    "Processing cancelled by user", the process still bound. After that an
    event without a truthy [success] keeps the job [failed], and the exit
    notification is handled like any other: the status follows the exit
    code, [failed] unless the code is 0. *)
Theorem cancel_running_job {rt : Runtime} (h : Host) (m : Main) (jobId : string)
    (job : ProcessingJob) (child : ChildProcess) :
  jobs m !! jobId = Some job ->
  process job = Some child ->
  kill h child "SIGTERM" = true ->
  let m' := fst (cancelJob h m jobId) in
  snd (cancelJob h m jobId) = true
  /\ signals m' = signals m ++ [(child, "SIGTERM")]
  /\ (exists job', jobs m' !! jobId = Some job'
                   /\ status job' = failed
                   /\ message (progress job') = JStr "Processing cancelled by user"
                   /\ process job' = Some child)
  /\ (forall pd, truthy_prop (get "success" pd) = false ->
                 job_status (fst (updateJobProgress m' jobId pd)) jobId = Some failed)
  /\ (forall h' code, job_status (on_close h' m' jobId code) jobId
                      = Some (if exit_ok code then completed else failed)).
Proof.
  intros Hjob Hproc Hkill m'. subst m'.
  unfold cancelJob. rewrite Hjob, Hproc, Hkill. cbn [fst snd].
  set (job' := set_progress _ _).
  set (m' := put_job jobId job' _).
  assert (Hlookup : jobs m' !! jobId = Some job') by apply lookup_put_job.
  assert (Hstatus : job_status m' jobId = Some failed).
  { unfold job_status. by rewrite Hlookup. }
  split; [reflexivity|]. split; [reflexivity|]. split.
  { exists job'. split; [exact Hlookup|]. by rewrite <- Hproc. }
  split.
  - intros pd Hpd. rewrite job_status_updateJobProgress, Hstatus. simpl. by rewrite Hpd.
  - intros h' code. rewrite job_status_on_close, Hstatus. reflexivity.
Qed.

Lemma cancel_running_job_witness :
  (jobs Sample.one_running !! "job_1" = Some Sample.running_job
   /\ process Sample.running_job = Some 1
   /\ kill (Sample.host 1) 1 "SIGTERM" = true)
  /\ snd (cancelJob (Sample.host 1) Sample.one_running "job_1") = true
  /\ signals (fst (cancelJob (Sample.host 1) Sample.one_running "job_1"))
     = signals Sample.one_running ++ [(1, "SIGTERM")].
Proof.
  split; [repeat split; reflexivity|].
  pose proof (cancel_running_job (rt := Reference.runtime) (Sample.host 1)
                Sample.one_running "job_1" Sample.running_job 1
                eq_refl eq_refl eq_refl) as H.
  split; [exact (proj1 H) | exact (proj1 (proj2 H))].
Defined.

(** C3 fails on the code: after the cancel the job is [failed]; a late
    [{"success":true}] from the worker makes it [completed], and so does
    an exit with code 0, which is not ignored: it also unbinds the process
    and sends [job-completed] with [success] set. *)
Lemma cancelled_job_is_overwritten :
  let m' := fst (cancelJob (Sample.host 1) Sample.one_running "job_1") in
  job_status m' "job_1" = Some failed
  /\ job_status
       (handleProcessOutput (rt := Reference.runtime) m' "job_1"
          (Sample.line Sample.success_true)) "job_1" = Some completed
  /\ job_status (on_close (rt := Reference.runtime) (Sample.host 1) m' "job_1" (Some 0%Z))
       "job_1" = Some completed
  /\ exists p o,
       ipc (on_close (rt := Reference.runtime) (Sample.host 1) m' "job_1" (Some 0%Z))
       = [job_completed "job_1" true p o].
Proof.
  repeat split; try (vm_compute; reflexivity).
  eexists _, _. vm_compute. reflexivity.
Qed.

(** ** A completion reported with [success:false] *)

Lemma close_job_outputPath_failed {rt : Runtime} h code job :
  exit_ok code = false -> outputPath (fst (close_job h code job)) = outputPath job.
Proof. intros H. unfold close_job. by rewrite H. Qed.

Lemma close_job_outputPath_ok {rt : Runtime} h code job v :
  exit_ok code = true -> outputPath job = Some v -> truthy v = true ->
  outputPath (fst (close_job h code job))
  = match readdirSync h v with
    | Some files =>
        match List.filter is_image_file files, v with
        | first :: _, JStr d => Some (JStr (path_join [d; first]))
        | _, _ => Some v
        end
    | None => Some v
    end.
Proof.
  intros Hok Hout Hv. unfold close_job, find_output_file. rewrite Hok.
  cbn [set_process set_status outputPath]. rewrite Hout. cbn [truthy_prop andb]. rewrite Hv.
  destruct (readdirSync h v) as [files|]; [|done].
  destruct (List.filter is_image_file files) as [|first rest]; [done|].
  destruct v; done.
Qed.

(** C6, as the code has it: an event with a truthy [output_path] and no
    truthy [success] records the path and leaves the status alone, unless
    [updateJobProgress] throws on it (no truthy [agentStatus], and a
    [stage] that cannot be made a property key), which leaves the state
    as it was, the path not recorded. After an event that was recorded
    the exit notification decides: with exit code 0 the job is
    [completed] and its output path is the reported one, or, when the
    reported path is a directory that holds an image file, the first image
    in it; with any other exit code or a signal the job is [failed] and
    keeps the reported path. *)
Theorem quality_fail_then_exit {rt : Runtime} (h : Host) (m : Main) (jobId : string)
    (job : ProcessingJob) (progressData : list (string * json)) (v : json)
    (code : option Z) :
  jobs m !! jobId = Some job ->
  get "output_path" progressData = Some v ->
  truthy v = true ->
  truthy_prop (get "success" progressData) = false ->
  let m1 := fst (updateJobProgress m jobId progressData) in
  let m2 := on_close h m1 jobId code in
  snd (updateJobProgress m jobId progressData)
  = (if record_throws progressData then call_threw else call_returned)
  /\ if record_throws progressData then m1 = m
     else
       job_status m1 jobId = Some (status job)
       /\ job_outputPath m1 jobId = Some (Some v)
       /\ (exit_ok code = true ->
           job_status m2 jobId = Some completed
           /\ job_outputPath m2 jobId
              = Some (match readdirSync h v with
                      | Some files =>
                          match List.filter is_image_file files, v with
                          | first :: _, JStr d => Some (JStr (path_join [d; first]))
                          | _, _ => Some v
                          end
                      | None => Some v
                      end))
       /\ (exit_ok code = false ->
           job_status m2 jobId = Some failed /\ job_outputPath m2 jobId = Some (Some v)).
Proof.
  intros Hjob Hout Hv Hsuccess m1 m2. subst m1 m2.
  pose proof (snd_updateJobProgress m jobId progressData job Hjob) as Hsnd.
  split; [exact Hsnd|].
  destruct (record_throws progressData) eqn:T.
  { by apply updateJobProgress_throws in Hsnd as [-> _]. }
  destruct (apply_progress_returns progressData job T) as [job' E].
  assert (Hout1 : outputPath job' = Some v).
  { rewrite (outputPath_apply_progress _ _ _ E), Hout. simpl. by rewrite Hv. }
  assert (H1 : jobs (fst (updateJobProgress m jobId progressData)) !! jobId = Some job').
  { rewrite lookup_updateJobProgress, Hjob. cbn [fmap option_fmap option_map].
    by rewrite E. }
  assert (Hst1 : job_status (fst (updateJobProgress m jobId progressData)) jobId
                 = Some (status job)).
  { unfold job_status. rewrite H1. simpl.
    by rewrite (status_apply_progress _ _ _ E), Hsuccess. }
  split; [exact Hst1|].
  split; [unfold job_outputPath; rewrite H1; simpl; by rewrite Hout1|].
  split; intros Hcode.
  - split.
    + rewrite job_status_on_close, Hst1. simpl. by rewrite Hcode.
    + unfold job_outputPath. rewrite lookup_on_close, H1. simpl.
      by rewrite (close_job_outputPath_ok h code _ v Hcode Hout1 Hv).
  - split.
    + rewrite job_status_on_close, Hst1. simpl. by rewrite Hcode.
    + unfold job_outputPath. rewrite lookup_on_close, H1. simpl.
      by rewrite close_job_outputPath_failed, Hout1.
Qed.

Lemma quality_fail_then_exit_witness :
  (jobs Sample.one_running !! "job_1" = Some Sample.running_job
   /\ get "output_path" [("success", JBool false); ("output_path", JStr "/out/a.jpg")]
      = Some (JStr "/out/a.jpg")
   /\ truthy (JStr "/out/a.jpg") = true
   /\ truthy_prop (get "success" [("success", JBool false);
                                  ("output_path", JStr "/out/a.jpg")]) = false)
  /\ job_status
       (on_close (rt := Reference.runtime) (Sample.host 1)
          (fst (updateJobProgress Sample.one_running "job_1"
                  [("success", JBool false); ("output_path", JStr "/out/a.jpg")]))
          "job_1" (Some 0%Z)) "job_1" = Some completed
  /\ job_outputPath
       (on_close (rt := Reference.runtime) (Sample.host 1)
          (fst (updateJobProgress Sample.one_running "job_1"
                  [("success", JBool false); ("output_path", JStr "/out/a.jpg")]))
          "job_1" (Some 0%Z)) "job_1" = Some (Some (JStr "/out/a.jpg")).
Proof.
  split; [repeat split; reflexivity|].
  exact (proj1 (proj2 (proj2 (proj2
    (quality_fail_then_exit (rt := Reference.runtime) (Sample.host 1) Sample.one_running
       "job_1" Sample.running_job
       [("success", JBool false); ("output_path", JStr "/out/a.jpg")]
       (JStr "/out/a.jpg") (Some 0%Z) eq_refl eq_refl eq_refl eq_refl)))) eq_refl).
Defined.

(** C6 fails on the code: the worker reports
    [{"success":false,"output_path":"/out/a.jpg"}] and exits with code 1;
    the job ends [failed]. *)
Lemma quality_fail_with_exit_code_fails :
  let m1 := handleProcessOutput (rt := Reference.runtime) Sample.one_running "job_1"
              (Sample.line Sample.quality_fail) in
  job_outputPath m1 "job_1" = Some (Some (JStr "/out/a.jpg"))
  /\ job_status (on_close (rt := Reference.runtime) (Sample.host 1) m1 "job_1" (Some 1%Z))
       "job_1" = Some failed.
Proof. split; vm_compute; reflexivity. Qed.

(** ** Lines of the worker's output *)

Lemma append_cons c r x : String c r +:+ x = String c (r +:+ x).
Proof. reflexivity. Qed.

Lemma split_lines_nonempty s : split_lines s <> [].
Proof.
  destruct s as [|c r]; simpl; [done|].
  destruct (Ascii.eqb c LF); [done|]. by destruct (split_lines r).
Qed.

Lemma split_lines_app a b :
  split_lines (a +:+ String LF b) = split_lines a ++ split_lines b.
Proof.
  induction a as [|c r IH].
  - reflexivity.
  - rewrite append_cons. cbn [split_lines]. rewrite IH.
    destruct (Ascii.eqb c LF); [reflexivity|].
    pose proof (split_lines_nonempty r) as Hne.
    destruct (split_lines r) as [|h t]; [done|reflexivity].
Qed.

Lemma output_lines_app a b :
  output_lines (a +:+ String LF b) = output_lines a ++ output_lines b.
Proof. unfold output_lines. by rewrite split_lines_app, List.filter_app. Qed.

Lemma output_lines_with_LF a : output_lines (with_LF a) = output_lines a.
Proof. unfold with_LF. rewrite output_lines_app. apply app_nil_r. Qed.

Lemma split_lines_no_LF l :
  existsb (Ascii.eqb LF) (list_ascii_of_string l) = false -> split_lines l = [l].
Proof.
  induction l as [|c r IH]; [done|]. cbn [list_ascii_of_string existsb split_lines].
  rewrite Ascii.eqb_sym. destruct (Ascii.eqb c LF); [done|].
  cbn [orb]. intros H. by rewrite (IH H).
Qed.

Lemma output_lines_line l : is_line l = true -> output_lines l = [l].
Proof.
  unfold is_line. intros [H1 H2]%andb_prop. apply negb_true_iff in H1.
  unfold output_lines. rewrite (split_lines_no_LF l H1). cbn [List.filter].
  by rewrite H2.
Qed.

Section Lines.
Context {rt : Runtime}.
Variable jobId : string.

Lemma process_line_applied m line pd :
  applied_record line = Some pd ->
  process_line jobId m line = fst (updateJobProgress m jobId pd).
Proof.
  unfold applied_record, structured_record, process_line.
  destruct (_ && _); [|done].
  destruct (JSON_parse _) as [pd'|]; [|done].
  destruct (record_throws pd') eqn:T; [done|]. intros [= <-].
  pose proof (updateJobProgress_returns m jobId pd' T) as H.
  by destruct (updateJobProgress m jobId pd') as [m' []].
Qed.

Lemma process_line_diagnostic m line :
  applied_record line = None -> is_Some (jobs m !! jobId) ->
  process_line jobId m line = console_write (diagnostic jobId line) m.
Proof.
  unfold applied_record, structured_record, process_line, diagnostic.
  destruct (_ && _); [|done].
  destruct (JSON_parse _) as [pd|]; [|done].
  destruct (record_throws pd) eqn:T; [|done]. intros _ [job Hjob].
  pose proof (snd_updateJobProgress m jobId pd job Hjob) as H. rewrite T in H.
  destruct (updateJobProgress_throws m jobId pd H) as [Hm _].
  destruct (updateJobProgress m jobId pd) as [m' []]; [done|].
  cbn [fst] in Hm. by subst m'.
Qed.

(** A line either goes through [updateJobProgress], which returns, or
    adds one line to the console and nothing else. *)
Lemma process_line_cases m line :
  (exists pd, process_line jobId m line = fst (updateJobProgress m jobId pd))
  \/ (exists entry, process_line jobId m line = console_write entry m).
Proof.
  unfold process_line. destruct (_ && _); [|right; eauto].
  destruct (JSON_parse _) as [pd|]; [|right; eauto].
  destruct (updateJobProgress m jobId pd) as [m' []] eqn:E.
  - left. exists pd. by rewrite E.
  - right. eexists.
    destruct (updateJobProgress_throws m jobId pd) as [Hm _]; [by rewrite E|].
    rewrite E in Hm. cbn [fst] in Hm. by rewrite Hm.
Qed.

Lemma process_line_keeps_job m line :
  is_Some (jobs m !! jobId) -> is_Some (jobs (process_line jobId m line) !! jobId).
Proof.
  intros [job Hjob]. pose proof (process_line_status_le jobId m line) as H.
  unfold job_status in H. rewrite Hjob in H.
  destruct (jobs (process_line jobId m line) !! jobId); [by eexists | done].
Qed.

Lemma forget_console_updateJobProgress m pd :
  forget_console (fst (updateJobProgress m jobId pd))
  = fst (updateJobProgress (forget_console m) jobId pd).
Proof.
  unfold updateJobProgress. cbn [forget_console jobs].
  destruct (jobs m !! jobId) as [job|]; [|reflexivity].
  destruct (apply_progress pd job); reflexivity.
Qed.

Lemma forget_console_process_line m line :
  is_Some (jobs m !! jobId) ->
  forget_console (process_line jobId m line)
  = match applied_record line with
    | Some pd => fst (updateJobProgress (forget_console m) jobId pd)
    | None => forget_console m
    end.
Proof.
  intros Hjob. destruct (applied_record line) as [pd|] eqn:E.
  - rewrite (process_line_applied _ _ _ E). apply forget_console_updateJobProgress.
  - rewrite (process_line_diagnostic _ _ E Hjob). reflexivity.
Qed.

Lemma forget_console_fold lines m :
  is_Some (jobs m !! jobId) ->
  forget_console (fold_left (process_line jobId) lines m)
  = fold_left (fun m' pd => fst (updateJobProgress m' jobId pd))
      (omap applied_record lines) (forget_console m).
Proof.
  revert m. induction lines as [|l ls IH]; intros m Hjob; [reflexivity|].
  cbn [fold_left]. rewrite IH by (by apply process_line_keeps_job).
  rewrite forget_console_process_line by done.
  cbn [omap list_omap]. destruct (applied_record l); reflexivity.
Qed.

Lemma output_lines_stream ls :
  Forall (fun l => is_line l = true) ls -> output_lines (stream ls EmptyString) = ls.
Proof.
  induction 1 as [|l ls Hl _ IH]; [reflexivity|].
  cbn [stream fold_right]. fold (stream ls EmptyString).
  unfold output_lines in *. rewrite split_lines_app, List.filter_app.
  fold (output_lines l). rewrite (output_lines_line l Hl). by rewrite IH.
Qed.

Lemma omap_applied_record_app pre bad post :
  applied_record bad = None ->
  omap applied_record (pre ++ bad :: post) = omap applied_record (pre ++ post).
Proof.
  intros E. induction pre as [|l pre IH]; cbn [app omap list_omap].
  - by rewrite E.
  - by rewrite IH.
Qed.

End Lines.

(** C8: a line of a chunk that is no record [updateJobProgress] takes (it
    is not wrapped in braces, [JSON.parse] refuses it, or
    [updateJobProgress] throws on it) only adds one line to the console,
    at its place among the others: the table of jobs and the messages
    sent are as the lines before it left them. Apart from the console,
    the state after the chunk is the state after the records of the other
    lines alone, in order. A line that is such a record does change the
    job: the job is replaced by what [updateJobProgress] makes of it, with
    the status [completed] when [success] is truthy, and one
    [job-progress] message is sent. *)
Theorem malformed_lines_only_log {rt : Runtime} (m : Main) (jobId : string)
    (job : ProcessingJob) (pre post : list string) (bad : string) :
  jobs m !! jobId = Some job ->
  Forall (fun l => is_line l = true) (pre ++ bad :: post) ->
  applied_record bad = None ->
  let before := handleProcessOutput m jobId (stream pre EmptyString) in
  let at_bad := handleProcessOutput m jobId (stream (pre ++ [bad]) EmptyString) in
  let after := handleProcessOutput m jobId (stream (pre ++ bad :: post) EmptyString) in
  at_bad = console_write (diagnostic jobId bad) before
  /\ forget_console after
     = fold_left (fun m' pd => fst (updateJobProgress m' jobId pd))
         (omap applied_record (pre ++ post)) (forget_console m)
  /\ forall m' job' good pd,
       jobs m' !! jobId = Some job' ->
       is_line good = true ->
       applied_record good = Some pd ->
       exists job'',
         apply_progress pd job' = Some job''
         /\ handleProcessOutput m' jobId (with_LF good)
            = send (job_progress jobId (progress job'')) (put_job jobId job'' m')
         /\ status job''
            = (if truthy_prop (get "success" pd) then completed else status job')
         /\ outputPath job''
            = (if truthy_prop (get "output_path" pd) then get "output_path" pd
               else outputPath job').
Proof.
  intros Hjob Hlines Hbad before at_bad after. subst before at_bad after.
  assert (Hpre : Forall (fun l => is_line l = true) pre).
  { by apply Forall_app in Hlines as [? _]. }
  assert (Hbadl : is_line bad = true).
  { apply Forall_app in Hlines as [_ H]. by inversion H. }
  split; [|split].
  - unfold handleProcessOutput. rewrite Hjob.
    rewrite (output_lines_stream pre Hpre).
    rewrite output_lines_stream
      by (apply Forall_app; split; [done | by repeat constructor]).
    rewrite fold_left_app. cbn [fold_left].
    apply process_line_diagnostic; [done|].
    clear Hlines Hpre. revert m job Hjob.
    induction pre as [|l pre IH]; intros m job Hjob; [by eexists|].
    cbn [fold_left].
    destruct (process_line_keeps_job jobId m l) as [job1 Hjob1]; [by eexists|].
    by apply (IH _ job1).
  - unfold handleProcessOutput. rewrite Hjob.
    rewrite (output_lines_stream _ Hlines).
    rewrite forget_console_fold by (by eexists).
    by rewrite omap_applied_record_app.
  - intros m' job' good pd Hjob' Hgood Hpd.
    assert (T : record_throws pd = false).
    { unfold applied_record in Hpd. destruct (structured_record good) as [pd'|]; [|done].
      destruct (record_throws pd') eqn:T; [done|]. by injection Hpd as <-. }
    destruct (apply_progress_returns pd job' T) as [job'' E].
    exists job''. split; [exact E|]. split; [|split].
    + unfold handleProcessOutput. rewrite Hjob'.
      unfold with_LF. rewrite output_lines_app, (output_lines_line good Hgood).
      change (output_lines EmptyString) with (@nil string). cbn [app fold_left].
      rewrite (process_line_applied jobId m' good pd Hpd).
      unfold updateJobProgress. by rewrite Hjob', E.
    + apply (status_apply_progress _ _ _ E).
    + apply (outputPath_apply_progress _ _ _ E).
Qed.

Lemma malformed_lines_only_log_witness :
  (jobs Sample.one_running !! "job_1" = Some Sample.running_job
   /\ Forall (fun l => is_line l = true)
        ([Sample.record1 "stage" "analysis"]
           ++ "Traceback (most recent call last):"
           :: [Sample.record1 "stage" "analysis_complete"])
   /\ applied_record (rt := Reference.runtime) "Traceback (most recent call last):" = None)
  /\ handleProcessOutput (rt := Reference.runtime) Sample.one_running "job_1"
       (stream ([Sample.record1 "stage" "analysis"]
                  ++ ["Traceback (most recent call last):"]) EmptyString)
     = console_write
         (diagnostic (rt := Reference.runtime) "job_1" "Traceback (most recent call last):")
         (handleProcessOutput (rt := Reference.runtime) Sample.one_running "job_1"
            (stream [Sample.record1 "stage" "analysis"] EmptyString)).
Proof.
  assert (Hlines : Forall (fun l => is_line l = true)
                     ([Sample.record1 "stage" "analysis"]
                        ++ "Traceback (most recent call last):"
                        :: [Sample.record1 "stage" "analysis_complete"])).
  { repeat constructor. }
  split; [split; [reflexivity | split; [exact Hlines | reflexivity]]|].
  exact (proj1 (malformed_lines_only_log (rt := Reference.runtime) Sample.one_running
                  "job_1" Sample.running_job [Sample.record1 "stage" "analysis"]
                  [Sample.record1 "stage" "analysis_complete"]
                  "Traceback (most recent call last):" eq_refl Hlines eq_refl)).
Defined.

(** ** Stage names and agent status *)

Lemma when_truthy_preserves {A B : Type} (g : A -> B) p (f : json -> A -> A) x :
  (forall v y, g (f v y) = g y) -> g (when_truthy p f x) = g x.
Proof. intros H. destruct p as [v|]; simpl; [destruct (truthy v)|]; auto. Qed.

Lemma when_defined_preserves {A B : Type} (g : A -> B) p (f : json -> A -> A) x :
  (forall v y, g (f v y) = g y) -> g (when_defined p f x) = g x.
Proof. intros H. destruct p as [v|]; simpl; auto. Qed.

Lemma agentStatus_apply_fields pd a job :
  agentStatus (progress (apply_fields pd a job)) = a.
Proof.
  unfold apply_fields.
  rewrite (when_truthy_preserves progress) by reflexivity.
  rewrite (when_truthy_preserves progress) by reflexivity.
  cbn [set_progress progress].
  rewrite (when_truthy_preserves agentStatus) by reflexivity.
  rewrite (when_defined_preserves agentStatus) by reflexivity.
  rewrite (when_truthy_preserves agentStatus) by reflexivity.
  rewrite (when_truthy_preserves agentStatus) by reflexivity.
  reflexivity.
Qed.

Lemma agentStatus_apply_progress pd job job' :
  apply_progress pd job = Some job' ->
  update_agentStatus pd (agentStatus (progress job)) = Some (agentStatus (progress job')).
Proof.
  intros (_ & a & Ha & ->)%apply_progress_Some.
  by rewrite agentStatus_apply_fields.
Qed.

(** Only a string or an array finds an agent, so [includes] is only ever
    called on a value that has it. *)
Lemma stage_reaches_includes v agent :
  stageAgentMap_lookup v = Some agent ->
  (exists s, v = JStr s) \/ (exists items, v = JArr items).
Proof.
  destruct v as [|[|]|x|s|items|members]; intros H;
    try (by eauto); try (by vm_compute in H).
  unfold stageAgentMap_lookup in H. cbn [js_key] in H.
  destruct (get "toString" members); by vm_compute in H.
Qed.

Lemma agent_status_stage_record m jobId job (name agent : string) :
  jobs m !! jobId = Some job ->
  stageAgentMap_lookup (JStr name) = Some agent ->
  is_empty name = false ->
  agent_status (fst (updateJobProgress m jobId [("stage", JStr name)])) jobId agent
  = Some (JStr (stage_status (JStr name))).
Proof.
  intros Hjob Hagent Hname. unfold agent_status.
  rewrite lookup_updateJobProgress, Hjob. cbn [fmap option_fmap option_map mbind option_bind].
  destruct (apply_progress_returns [("stage", JStr name)] job) as [job' E].
  { unfold record_throws.
    change (get "stage" [("stage", JStr name)]) with (Some (JStr name)).
    cbn match. change (lookup_throws (JStr name)) with false.
    by rewrite !andb_false_r. }
  rewrite E. cbn [default from_option Datatypes.id].
  apply agentStatus_apply_progress in E.
  unfold update_agentStatus, update_from_stage in E.
  change (get "agentStatus" [("stage", JStr name)]) with (@None json) in E.
  change (get "stage" [("stage", JStr name)]) with (Some (JStr name)) in E.
  cbn [truthy] in E. rewrite Hname in E. cbn [negb] in E.
  change (lookup_throws (JStr name)) with false in E. rewrite Hagent in E.
  injection E as <-. cbn [props]. apply lookup_insert_eq.
Qed.

(** C7: for every job in the table, after the line [{"stage":"analysis"}]
    its [agentStatus.analysis] is [running], and after the line
    [{"stage":"analysis_complete"}] that follows it is [completed]. Both
    names resolve to the agent [analysis] through [stageAgentMap], and the
    status of a stage name is [completed] when it includes "complete",
    else [error] when it includes "failed" or "error", else [running]. *)
Theorem analysis_then_analysis_complete (m : Main) (jobId : string) (job : ProcessingJob) :
  jobs m !! jobId = Some job ->
  let m1 := handleProcessOutput (rt := Reference.runtime) m jobId
              (with_LF (Sample.record1 "stage" "analysis")) in
  let m2 := handleProcessOutput (rt := Reference.runtime) m1 jobId
              (with_LF (Sample.record1 "stage" "analysis_complete")) in
  agent_status m1 jobId "analysis" = Some (JStr "running")
  /\ agent_status m2 jobId "analysis" = Some (JStr "completed")
  /\ stageAgentMap_lookup (JStr "analysis") = Some "analysis"
  /\ stageAgentMap_lookup (JStr "analysis_complete") = Some "analysis"
  /\ forall name,
       stage_status (JStr name)
       = if includes "complete" name then "completed"
         else if includes "failed" name || includes "error" name then "error"
         else "running".
Proof.
  intros Hjob m1 m2.
  assert (E1 : m1 = fst (updateJobProgress m jobId [("stage", JStr "analysis")])).
  { subst m1. unfold handleProcessOutput. rewrite Hjob.
    change (output_lines (with_LF (Sample.record1 "stage" "analysis")))
      with [Sample.record1 "stage" "analysis"].
    cbn [fold_left]. by apply process_line_applied. }
  assert (Hjob1 : is_Some (jobs m1 !! jobId)).
  { rewrite E1, lookup_updateJobProgress, Hjob. by eexists. }
  destruct Hjob1 as [job1 Hjob1].
  assert (E2 : m2 = fst (updateJobProgress m1 jobId [("stage", JStr "analysis_complete")])).
  { subst m2. unfold handleProcessOutput. rewrite Hjob1.
    change (output_lines (with_LF (Sample.record1 "stage" "analysis_complete")))
      with [Sample.record1 "stage" "analysis_complete"].
    cbn [fold_left]. by apply process_line_applied. }
  split; [|split; [|repeat split]].
  - rewrite E1. by rewrite (agent_status_stage_record m jobId job "analysis" "analysis").
  - rewrite E2.
    by rewrite (agent_status_stage_record m1 jobId job1 "analysis_complete" "analysis").
Qed.

Lemma analysis_then_analysis_complete_witness :
  jobs Sample.one_running !! "job_1" = Some Sample.running_job
  /\ agent_status Sample.one_running "job_1" "analysis" = Some (JStr "pending")
  /\ agent_status
       (handleProcessOutput (rt := Reference.runtime)
          (handleProcessOutput (rt := Reference.runtime) Sample.one_running "job_1"
             (with_LF (Sample.record1 "stage" "analysis")))
          "job_1" (with_LF (Sample.record1 "stage" "analysis_complete")))
       "job_1" "analysis" = Some (JStr "completed").
Proof.
  split; [reflexivity|]. split; [vm_compute; reflexivity|].
  exact (proj1 (proj2 (analysis_then_analysis_complete Sample.one_running "job_1"
                         Sample.running_job eq_refl))).
Defined.

(** ** Chunks of the output stream *)

Section Chunks.
Context {rt : Runtime}.
Variable jobId : string.

Lemma fold_process_line_keeps_job lines m :
  is_Some (jobs m !! jobId) ->
  is_Some (jobs (fold_left (process_line jobId) lines m) !! jobId).
Proof.
  intros [job Hjob].
  pose proof (fold_process_line_status_le jobId lines m) as H.
  unfold job_status in H. rewrite Hjob in H.
  destruct (jobs (fold_left (process_line jobId) lines m) !! jobId); [by eexists|done].
Qed.

(** A chunk boundary right after a line feed is not seen. *)
Lemma handleProcessOutput_app m a b :
  handleProcessOutput m jobId (a +:+ String LF b)
  = handleProcessOutput (handleProcessOutput m jobId a) jobId b.
Proof.
  unfold handleProcessOutput.
  destruct (jobs m !! jobId) as [job|] eqn:E; [|by rewrite E].
  destruct (fold_process_line_keeps_job (output_lines a) m) as [job' ->]; [by eexists|].
  by rewrite output_lines_app, fold_left_app.
Qed.

Lemma handleProcessOutput_with_LF m a :
  handleProcessOutput m jobId (with_LF a) = handleProcessOutput m jobId a.
Proof. unfold handleProcessOutput. by rewrite output_lines_with_LF. Qed.

End Chunks.

(** C4, as the code has it: every chunk is cut into lines on its own and
    nothing is kept from one chunk to the next, so the end of a chunk acts
    as a line feed: two chunks one after the other leave the state that
    the first, a line feed and the second leave in one chunk. A stream cut
    right after line feeds (every chunk but the last ends with one) is
    therefore handled like the whole stream at once, and a line cut in
    two pieces is handled as the two lines its pieces are; when the first
    piece does not end with a closing brace and the second does not start
    with an opening one, as happens to a record cut inside, both are
    written to the console as plain output and the job is as before. *)
Theorem chunk_boundary_is_a_line_feed {rt : Runtime} (jobId : string) (m : Main) :
  (forall a b,
     handleProcessOutput (handleProcessOutput m jobId a) jobId b
     = handleProcessOutput m jobId (a +:+ String LF b))
  /\ (forall ls rest,
        fold_left (fun m' chunk => handleProcessOutput m' jobId chunk)
          (map with_LF ls ++ [rest]) m
        = handleProcessOutput m jobId (stream ls rest))
  /\ (forall x y,
        is_Some (jobs m !! jobId) -> is_line x = true -> is_line y = true ->
        handleProcessOutput (handleProcessOutput m jobId x) jobId y
        = process_line jobId (process_line jobId m x) y
        /\ (endsWith "}" (trim x) = false -> startsWith "{" (trim y) = false ->
            handleProcessOutput (handleProcessOutput m jobId x) jobId y
            = console_write (log_output jobId y) (console_write (log_output jobId x) m))).
Proof.
  split; [|split].
  - intros a b. symmetry. apply handleProcessOutput_app.
  - intros ls rest. revert m. induction ls as [|l ls IH]; intros m; [reflexivity|].
    cbn [map app fold_left stream fold_right]. rewrite IH.
    fold (stream ls rest).
    by rewrite handleProcessOutput_app, handleProcessOutput_with_LF.
  - intros x y [job Hjob] Hx Hy.
    assert (E : handleProcessOutput (handleProcessOutput m jobId x) jobId y
                = process_line jobId (process_line jobId m x) y).
    { unfold handleProcessOutput at 2. rewrite Hjob, (output_lines_line x Hx).
      cbn [fold_left].
      destruct (process_line_keeps_job jobId m x) as [job1 Hjob1]; [by eexists|].
      unfold handleProcessOutput. by rewrite Hjob1, (output_lines_line y Hy). }
    split; [exact E|]. intros Ex Ey. rewrite E.
    unfold process_line. by rewrite Ex, Ey, andb_false_r.
Qed.

Lemma chunk_boundary_is_a_line_feed_witness :
  let first := "{" +:+ Sample.quoted "stage" +:+ ":" +:+ String DQUOTE "ana" in
  let second := "lysis" +:+ String DQUOTE "}" in
  (is_Some (jobs Sample.one_running !! "job_1")
   /\ is_line first = true /\ is_line second = true
   /\ endsWith "}" (trim first) = false /\ startsWith "{" (trim second) = false)
  /\ handleProcessOutput (rt := Reference.runtime)
       (handleProcessOutput (rt := Reference.runtime) Sample.one_running "job_1" first)
       "job_1" second
     = console_write (log_output "job_1" second)
         (console_write (log_output "job_1" first) Sample.one_running).
Proof.
  cbn zeta. split; [split; [by eexists | repeat split]|].
  exact (proj2 (proj2 (proj2 (chunk_boundary_is_a_line_feed (rt := Reference.runtime)
                                "job_1" Sample.one_running))
                  ("{" +:+ Sample.quoted "stage" +:+ ":" +:+ String DQUOTE "ana")
                  ("lysis" +:+ String DQUOTE "}")
                  (ex_intro _ Sample.running_job eq_refl) eq_refl eq_refl)
           eq_refl eq_refl).
Defined.

(** C4 fails on the code: the record [{"stage":"analysis"}] arrives cut
    in the middle of the word analysis. Neither piece is wrapped in braces, so each is
    written to the console as plain output and the job is as before; in
    one chunk the same record sets the stage. *)
Lemma split_record_is_lost :
  let first := "{" +:+ Sample.quoted "stage" +:+ ":" +:+ String DQUOTE "ana" in
  let second := "lysis" +:+ String DQUOTE "}" in
  let cut := handleProcessOutput (rt := Reference.runtime)
               (handleProcessOutput (rt := Reference.runtime) Sample.one_running "job_1" first)
               "job_1" (with_LF second) in
  let whole := handleProcessOutput (rt := Reference.runtime) Sample.one_running "job_1"
                 (with_LF (first +:+ second)) in
  first +:+ second = Sample.record1 "stage" "analysis"
  /\ jobs cut = jobs Sample.one_running
  /\ ipc cut = []
  /\ console cut = [log_output "job_1" first; log_output "job_1" second]
  /\ (stage ∘ progress) <$> jobs whole !! "job_1" = Some (JStr "analysis")
  /\ agent_status whole "job_1" "analysis" = Some (JStr "running").
Proof. repeat split; vm_compute; reflexivity. Qed.

(** ** Batch mode *)

(** [startProcessing] never lists a directory. *)
Lemma startProcessing_ignores_listing {rt : Runtime} h listing m options :
  startProcessing (with_listing h listing) m options = startProcessing h m options.
Proof. reflexivity. Qed.

Lemma trimEnd_empty s : trimEnd s = EmptyString -> all_whitespace s = true.
Proof.
  induction s as [|c r IH]; [done|]. cbn [trimEnd all_whitespace].
  destruct (is_whitespace c); [|done]. cbn [andb].
  destruct (trimEnd r); [auto | done].
Qed.

Lemma trimStart_whitespace s :
  all_whitespace (trimStart s) = true -> all_whitespace s = true.
Proof.
  induction s as [|c r IH]; [done|]. cbn [trimStart].
  destruct (is_whitespace c) eqn:E; [|done].
  intros H. cbn [all_whitespace]. rewrite E. auto.
Qed.

Lemma blank_iff_all_whitespace s :
  is_empty s || is_empty (trim s) = all_whitespace s.
Proof.
  destruct (all_whitespace s) eqn:E.
  - rewrite (trim_all_whitespace s E). apply orb_true_r.
  - destruct s as [|c r]; [done|]. cbn [is_empty orb].
    destruct (trim (String c r)) eqn:T; [|done].
    apply trimEnd_empty, trimStart_whitespace in T. congruence.
Qed.







(** * Further properties *)

(** ** What a sequence of notifications does to the job object *)

(** Every notification changes the job by one of four updates; a relation
    that holds across each of them holds across every trace. The update of
    the exit notification can be left out for the traces that hold
    none. *)
Section JobSteps.
Context {rt : Runtime}.
Variable jobId : string.
Variable R : ProcessingJob -> ProcessingJob -> Prop.
Variable with_close : bool.
Hypothesis R_refl : forall j, R j j.
Hypothesis R_trans : forall a b c, R a b -> R b c -> R a c.
Hypothesis R_progress : forall pd j j', apply_progress pd j = Some j' -> R j j'.
Hypothesis R_error :
  forall e j, R j (set_progress (set_message (JStr ("Error: " +:+ e)) (progress j)) j).
Hypothesis R_cancel :
  forall j child, process j = Some child ->
    R j (set_progress (set_message (JStr "Processing cancelled by user") (progress j))
           (set_status failed j)).
Hypothesis R_close :
  with_close = true -> forall h code j, R j (fst (close_job h code j)).

Definition related (m m' : Main) : Prop :=
  forall job, jobs m !! jobId = Some job ->
              exists job', jobs m' !! jobId = Some job' /\ R job job'.

Lemma related_same_jobs m m' : jobs m' = jobs m -> related m m'.
Proof. intros E job H. rewrite E. eauto. Qed.

Lemma related_refl m : related m m.
Proof. by apply related_same_jobs. Qed.

Lemma related_trans a b c : related a b -> related b c -> related a c.
Proof.
  intros Hab Hbc job H. destruct (Hab job H) as (job1 & H1 & R1).
  destruct (Hbc job1 H1) as (job2 & H2 & R2). eauto.
Qed.

Lemma updateJobProgress_related m pd : related m (fst (updateJobProgress m jobId pd)).
Proof.
  intros job H. exists (default job (apply_progress pd job)).
  rewrite lookup_updateJobProgress, H. split; [done|].
  destruct (apply_progress pd job) as [job'|] eqn:E; cbn [default from_option Datatypes.id];
    eauto.
Qed.

Lemma process_line_related m line : related m (process_line jobId m line).
Proof.
  unfold process_line. destruct (_ && _); [|by apply related_same_jobs].
  destruct (JSON_parse _) as [pd|]; [|by apply related_same_jobs].
  pose proof (updateJobProgress_related m pd) as H.
  destruct (updateJobProgress m jobId pd) as [m' []]; [exact H|].
  eapply related_trans; [exact H | by apply related_same_jobs].
Qed.

Lemma handleProcessOutput_related m output :
  related m (handleProcessOutput m jobId output).
Proof.
  unfold handleProcessOutput. destruct (jobs m !! jobId); [|apply related_refl].
  generalize (output_lines output). intros lines. revert m.
  induction lines as [|l ls IH]; intros m; [apply related_refl|].
  cbn [fold_left]. eapply related_trans; [apply process_line_related | apply IH].
Qed.

Lemma on_stderr_related m data : related m (on_stderr m jobId data).
Proof.
  intros job H. unfold on_stderr, handleProcessError.
  cbn [console_write jobs]. rewrite H. cbn [send put_job jobs].
  rewrite lookup_insert_eq. eauto.
Qed.

Lemma on_close_related h m code :
  with_close = true -> related m (on_close h m jobId code).
Proof.
  intros Hc job H. rewrite lookup_on_close, H. cbn. eauto.
Qed.

Lemma cancelJob_related h m : related m (fst (cancelJob h m jobId)).
Proof.
  intros job H. unfold cancelJob. rewrite H.
  destruct (process job) as [child|] eqn:P; [|cbn [fst]; eauto].
  destruct (kill h child "SIGTERM"); cbn [fst put_job record_signal console_write jobs].
  - rewrite lookup_insert_eq. eauto.
  - eauto.
Qed.

Lemma step_related m hn :
  (with_close = false -> is_close hn = false) -> related m (step jobId m hn).
Proof.
  destruct hn as [h [chunk | chunk | code | ]]; cbn [step]; intros Hc.
  - apply handleProcessOutput_related.
  - apply on_stderr_related.
  - apply on_close_related. destruct with_close; [done|]. by specialize (Hc eq_refl).
  - apply cancelJob_related.
Qed.

Lemma run_related trace m :
  (with_close = false -> existsb is_close trace = false) -> related m (run jobId m trace).
Proof.
  unfold run. revert m. induction trace as [|hn trace IH]; intros m Hc;
    [apply related_refl|].
  cbn [fold_left]. eapply related_trans.
  - apply step_related. intros Hw. specialize (Hc Hw). cbn in Hc.
    by apply orb_false_elim in Hc as [? ?].
  - apply IH. intros Hw. specialize (Hc Hw). cbn in Hc.
    by apply orb_false_elim in Hc as [? ?].
Qed.

End JobSteps.

(** ** Invariants of a job over every trace *)

Lemma id_apply_progress pd job job' : apply_progress pd job = Some job' -> id job' = id job.
Proof.
  intros (_ & a & _ & ->)%apply_progress_Some. unfold apply_fields.
  rewrite (when_truthy_preserves id) by reflexivity.
  rewrite (when_truthy_preserves id) by reflexivity. reflexivity.
Qed.

Lemma inputPath_apply_progress pd job job' :
  apply_progress pd job = Some job' -> inputPath job' = inputPath job.
Proof.
  intros (_ & a & _ & ->)%apply_progress_Some. unfold apply_fields.
  rewrite (when_truthy_preserves inputPath) by reflexivity.
  rewrite (when_truthy_preserves inputPath) by reflexivity. reflexivity.
Qed.

Lemma find_output_file_keeps {rt : Runtime} h job j :
  find_output_file h job = Some j ->
  id j = id job /\ inputPath j = inputPath job
  /\ (is_Some (outputPath job) -> is_Some (outputPath j)).
Proof.
  unfold find_output_file. intros H.
  destruct (outputPath job) as [dir|] eqn:E; [|inversion H; subst; by rewrite E].
  destruct (readdirSync h dir) as [files|]; [|done].
  destruct (List.filter is_image_file files); [inversion H; subst; by rewrite E|].
  destruct dir; inversion H; subst; cbn; eauto.
Qed.

Lemma close_job_keeps {rt : Runtime} h code job :
  id (fst (close_job h code job)) = id job
  /\ inputPath (fst (close_job h code job)) = inputPath job
  /\ (is_Some (outputPath job) -> is_Some (outputPath (fst (close_job h code job)))).
Proof.
  unfold close_job.
  destruct (exit_ok code && _); [|done].
  destruct (find_output_file h _) as [j|] eqn:F; [|done].
  cbn [fst]. by apply find_output_file_keeps in F.
Qed.

(** X2: over every trace of output chunks, error chunks, exit notifications and
    cancel requests a job keeps its id and its input path, and an output
    path that is set stays set: it may be replaced, never removed. *)
Theorem trace_keeps_id_input_and_output {rt : Runtime} (jobId : string) (m : Main)
    (trace : list (Host * Notification)) (job : ProcessingJob) :
  jobs m !! jobId = Some job ->
  exists job', jobs (run jobId m trace) !! jobId = Some job'
               /\ id job' = id job
               /\ inputPath job' = inputPath job
               /\ (is_Some (outputPath job) -> is_Some (outputPath job')).
Proof.
  intros Hjob.
  apply (run_related jobId
           (fun j j' => id j' = id j /\ inputPath j' = inputPath j
                        /\ (is_Some (outputPath j) -> is_Some (outputPath j')))
           true); try done.
  - intros a b c (? & ? & ?) (? & ? & ?). repeat split; try congruence. auto.
  - intros pd j j' E.
    rewrite (id_apply_progress _ _ _ E), (inputPath_apply_progress _ _ _ E).
    repeat split. rewrite (outputPath_apply_progress _ _ _ E).
    destruct (get "output_path" pd) as [v|]; cbn; [destruct (truthy v)|]; eauto.
  - intros _ h code j. apply close_job_keeps.
Qed.

Lemma trace_keeps_id_input_and_output_witness :
  jobs Sample.one_running !! "job_1" = Some Sample.running_job
  /\ exists job',
       jobs (run (rt := Reference.runtime) "job_1" Sample.one_running
               [(Sample.host 1, stdout_data (Sample.line Sample.quality_fail));
                (Sample.host 1, close (Some 0%Z))]) !! "job_1" = Some job'
       /\ id job' = id Sample.running_job
       /\ inputPath job' = inputPath Sample.running_job
       /\ (is_Some (outputPath Sample.running_job) -> is_Some (outputPath job')).
Proof.
  split; [reflexivity|].
  exact (trace_keeps_id_input_and_output (rt := Reference.runtime) "job_1"
           Sample.one_running
           [(Sample.host 1, stdout_data (Sample.line Sample.quality_fail));
            (Sample.host 1, close (Some 0%Z))] Sample.running_job eq_refl).
Defined.

(** ** The process binding *)

Lemma process_close_job {rt : Runtime} h code job :
  process (fst (close_job h code job)) = None.
Proof. apply close_job_status. Qed.

Lemma run_app {rt : Runtime} jobId m a b :
  run jobId m (a ++ b) = run jobId (run jobId m a) b.
Proof. unfold run. apply fold_left_app. Qed.

Lemma run_keeps_process {rt : Runtime} jobId m trace job :
  existsb is_close trace = false ->
  jobs m !! jobId = Some job ->
  exists job', jobs (run jobId m trace) !! jobId = Some job' /\ process job' = process job.
Proof.
  intros Hc Hjob.
  apply (run_related jobId (fun j j' => process j' = process j) false);
    try done; try congruence.
  intros pd j j' E. apply (process_apply_progress _ _ _ E).
Qed.

Lemma run_keeps_unbound {rt : Runtime} jobId m trace job :
  jobs m !! jobId = Some job ->
  process job = None ->
  exists job', jobs (run jobId m trace) !! jobId = Some job' /\ process job' = None.
Proof.
  intros Hjob Hp.
  destruct (run_related jobId (fun j j' => process j = None -> process j' = None) true)
    with (trace := trace) (m := m) (job := job) as (job' & H & HR); try done; eauto.
  - intros pd j j' E. by rewrite (process_apply_progress _ _ _ E).
  - intros _ h code j _. apply process_close_job.
Qed.

Lemma existsb_split {A : Type} (f : A -> bool) (l : list A) :
  existsb f l = true ->
  exists pre x post, l = pre ++ x :: post /\ existsb f pre = false /\ f x = true.
Proof.
  induction l as [|a l IH]; [done|]. cbn. destruct (f a) eqn:E.
  - intros _. exists [], a, l. done.
  - intros H. destruct (IH H) as (pre & x & post & -> & Hpre & Hx).
    exists (a :: pre), x, post. cbn. by rewrite E.
Qed.

Lemma run_unbinds {rt : Runtime} jobId m trace job :
  existsb is_close trace = true ->
  jobs m !! jobId = Some job ->
  exists job', jobs (run jobId m trace) !! jobId = Some job' /\ process job' = None.
Proof.
  intros Hc Hjob.
  destruct (existsb_split _ _ Hc) as (pre & [h n] & post & -> & Hpre & Hx).
  destruct n as [| |code|]; try done.
  destruct (run_keeps_process jobId m pre job Hpre Hjob) as (job1 & H1 & _).
  change (pre ++ (h, close code) :: post) with (pre ++ [(h, close code)] ++ post).
  rewrite !run_app.
  apply (run_keeps_unbound jobId _ post (fst (close_job h code job1))).
  - change (run jobId (run jobId m pre) [(h, close code)])
      with (on_close h (run jobId m pre) jobId code).
    by rewrite lookup_on_close, H1.
  - apply process_close_job.
Qed.

(** X3: the process stays bound to its job over output chunks, error chunks
    and cancel requests (a cancelled job keeps its process until it exits),
    is unbound by the exit notification, and is never bound again. *)
Theorem process_unbound_only_by_close {rt : Runtime} (jobId : string) (m : Main)
    (trace : list (Host * Notification)) (job : ProcessingJob) :
  jobs m !! jobId = Some job ->
  exists job', jobs (run jobId m trace) !! jobId = Some job'
               /\ process job' = if existsb is_close trace then None else process job.
Proof.
  intros Hjob. destruct (existsb is_close trace) eqn:Hc.
  - by apply (run_unbinds jobId m trace job).
  - by apply run_keeps_process.
Qed.

Lemma process_unbound_only_by_close_witness :
  jobs Sample.one_running !! "job_1" = Some Sample.running_job
  /\ exists job',
       jobs (run (rt := Reference.runtime) "job_1" Sample.one_running
               [(Sample.host 1, cancel);
                (Sample.host 1, stdout_data (Sample.line Sample.success_true))])
         !! "job_1" = Some job'
       /\ process job' = process Sample.running_job.
Proof.
  split; [reflexivity|].
  exact (process_unbound_only_by_close (rt := Reference.runtime) "job_1"
           Sample.one_running
           [(Sample.host 1, cancel);
            (Sample.host 1, stdout_data (Sample.line Sample.success_true))]
           Sample.running_job eq_refl).
Defined.

(** ** The other jobs *)

Section OtherJobs.
Context {rt : Runtime}.
Variables jobId other : string.
Hypothesis Hne : jobId <> other.

Lemma process_line_other m line :
  jobs (process_line jobId m line) !! other = jobs m !! other.
Proof.
  destruct (process_line_cases jobId m line) as [[pd ->] | [entry ->]]; [|done].
  by apply lookup_updateJobProgress_ne.
Qed.

Lemma handleProcessOutput_other m output :
  jobs (handleProcessOutput m jobId output) !! other = jobs m !! other.
Proof.
  unfold handleProcessOutput. destruct (jobs m !! jobId); [|done].
  generalize (output_lines output). intros lines. revert m.
  induction lines as [|l ls IH]; intros m; [done|].
  cbn [fold_left]. by rewrite IH, process_line_other.
Qed.

Lemma on_stderr_other m data : jobs (on_stderr m jobId data) !! other = jobs m !! other.
Proof.
  unfold on_stderr, handleProcessError. cbn [console_write jobs].
  destruct (jobs m !! jobId); [|done].
  cbn [send put_job jobs]. by apply lookup_insert_ne.
Qed.

Lemma on_close_other h m code : jobs (on_close h m jobId code) !! other = jobs m !! other.
Proof.
  unfold on_close. destruct (jobs m !! jobId) as [job|]; [|done].
  destruct (close_job h code job) as [job2 [|]];
    cbn [send put_job console_write jobs]; by apply lookup_insert_ne.
Qed.

Lemma cancelJob_other h m : jobs (fst (cancelJob h m jobId)) !! other = jobs m !! other.
Proof.
  unfold cancelJob. destruct (jobs m !! jobId) as [job|]; [|done].
  destruct (process job) as [child|]; [|done].
  destruct (kill h child "SIGTERM"); cbn [fst put_job record_signal console_write jobs];
    [by apply lookup_insert_ne | done].
Qed.

Lemma step_other m hn : jobs (step jobId m hn) !! other = jobs m !! other.
Proof.
  destruct hn as [h [chunk | chunk | code | ]]; cbn [step].
  - apply handleProcessOutput_other.
  - apply on_stderr_other.
  - apply on_close_other.
  - apply cancelJob_other.
Qed.

End OtherJobs.

(** X1: whatever a worker prints, however it exits and whether or not its job
    is cancelled, every other job of the table is left exactly as it
    was. *)
Theorem other_jobs_are_untouched {rt : Runtime} (jobId other : string) (m : Main)
    (trace : list (Host * Notification)) :
  jobId <> other ->
  jobs (run jobId m trace) !! other = jobs m !! other.
Proof.
  intros Hne. unfold run. revert m.
  induction trace as [|hn trace IH]; intros m; [done|].
  cbn [fold_left]. rewrite IH. by apply step_other.
Qed.

Lemma other_jobs_are_untouched_witness :
  "job_1" <> "job_2"
  /\ jobs (run (rt := Reference.runtime) "job_1" Sample.one_running
             [(Sample.host 1, stdout_data (Sample.line Sample.success_true));
              (Sample.host 1, close (Some 1%Z))]) !! "job_2"
     = jobs Sample.one_running !! "job_2".
Proof.
  split; [done|].
  apply (other_jobs_are_untouched (rt := Reference.runtime) "job_1" "job_2"
           Sample.one_running
           [(Sample.host 1, stdout_data (Sample.line Sample.success_true));
            (Sample.host 1, close (Some 1%Z))]).
  done.
Defined.

(** ** Cancelling after the exit *)

Lemma step_no_job {rt : Runtime} jobId m hn :
  jobs m !! jobId = None -> jobs (step jobId m hn) !! jobId = None.
Proof.
  intros H. destruct hn as [h [chunk | chunk | code | ]]; cbn [step].
  - unfold handleProcessOutput. by rewrite H.
  - unfold on_stderr, handleProcessError. cbn [console_write jobs]. by rewrite H.
  - unfold on_close. by rewrite H.
  - unfold cancelJob. by rewrite H.
Qed.

Lemma run_no_job {rt : Runtime} jobId trace m :
  jobs m !! jobId = None -> jobs (run jobId m trace) !! jobId = None.
Proof.
  unfold run. revert m. induction trace as [|hn trace IH]; intros m H; [done|].
  cbn [fold_left]. apply IH. by apply step_no_job.
Qed.

(** X4: once the exit of its process has been notified, a job cannot be
    cancelled any more: [cancelJob] returns [false] and changes nothing,
    so a finished job keeps the status its exit gave it. *)
Theorem cancel_after_exit_is_refused {rt : Runtime} (h : Host) (jobId : string) (m : Main)
    (trace : list (Host * Notification)) :
  existsb is_close trace = true ->
  cancelJob h (run jobId m trace) jobId = (run jobId m trace, false).
Proof.
  intros Hc. unfold cancelJob.
  destruct (jobs m !! jobId) as [job|] eqn:Hjob.
  - destruct (run_unbinds jobId m trace job Hc Hjob) as (job' & -> & Hp).
    by rewrite Hp.
  - by rewrite (run_no_job jobId trace m Hjob).
Qed.

Lemma cancel_after_exit_is_refused_witness :
  existsb is_close [(Sample.host 1, close (Some 0%Z))] = true
  /\ cancelJob (Sample.host 1)
       (run (rt := Reference.runtime) "job_1" Sample.one_running
          [(Sample.host 1, close (Some 0%Z))]) "job_1"
     = (run (rt := Reference.runtime) "job_1" Sample.one_running
          [(Sample.host 1, close (Some 0%Z))], false).
Proof.
  split; [reflexivity|].
  exact (cancel_after_exit_is_refused (rt := Reference.runtime) (Sample.host 1) "job_1"
           Sample.one_running [(Sample.host 1, close (Some 0%Z))] eq_refl).
Defined.

(** ** Blank output, and what a chunk sends and logs *)

Lemma split_lines_all_whitespace s :
  all_whitespace s = true -> Forall (fun l => all_whitespace l = true) (split_lines s).
Proof.
  induction s as [|c r IH]; cbn [all_whitespace split_lines].
  - intros _. by constructor.
  - intros [Hc Hr]%andb_prop. specialize (IH Hr).
    destruct (Ascii.eqb c LF); [by constructor|].
    destruct (split_lines r) as [|h t]; [constructor; [cbn; by rewrite Hc | done]|].
    inversion IH; subst. constructor; [cbn; by rewrite Hc | done].
Qed.

Lemma output_lines_all_whitespace s : all_whitespace s = true -> output_lines s = [].
Proof.
  intros H. unfold output_lines.
  pose proof (split_lines_all_whitespace s H) as Hall.
  induction Hall as [|l ls Hl _ IH]; [done|].
  cbn [List.filter]. by rewrite (trim_all_whitespace l Hl).
Qed.

(** X5: a chunk of nothing but spaces, tabs and line ends is ignored whole:
    the state, console included, is as before. *)
Theorem blank_output_is_ignored {rt : Runtime} (m : Main) (jobId output : string) :
  all_whitespace output = true ->
  handleProcessOutput m jobId output = m.
Proof.
  intros H. unfold handleProcessOutput.
  destruct (jobs m !! jobId); [|done].
  by rewrite (output_lines_all_whitespace output H).
Qed.

Lemma blank_output_is_ignored_witness :
  all_whitespace (String LF "  " +:+ String LF EmptyString) = true
  /\ handleProcessOutput (rt := Reference.runtime) Sample.one_running "job_1"
       (String LF "  " +:+ String LF EmptyString) = Sample.one_running.
Proof.
  split; [reflexivity|].
  apply (blank_output_is_ignored (rt := Reference.runtime) Sample.one_running "job_1"
           (String LF "  " +:+ String LF EmptyString)).
  reflexivity.
Defined.

Section ChunkEffects.
Context {rt : Runtime}.
Variable jobId : string.

Lemma updateJobProgress_effects m pd job job' :
  jobs m !! jobId = Some job ->
  apply_progress pd job = Some job' ->
  let m' := fst (updateJobProgress m jobId pd) in
  mainWindow m' = mainWindow m
  /\ console m' = console m
  /\ ipc m' = (if mainWindow m
               then ipc m ++ [job_progress jobId (progress job')]
               else ipc m)
  /\ jobs m' !! jobId = Some job'.
Proof.
  intros H E. unfold updateJobProgress. rewrite H, E.
  cbn [fst send put_job mainWindow console ipc jobs].
  repeat split. apply lookup_insert_eq.
Qed.

Lemma applied_record_returns l pd job :
  applied_record l = Some pd -> is_Some (apply_progress pd job).
Proof.
  unfold applied_record. destruct (structured_record l) as [pd'|]; [|done].
  destruct (record_throws pd') eqn:T; [done|]. intros [= <-].
  by apply apply_progress_returns.
Qed.

Lemma fold_process_line_counts lines m :
  is_Some (jobs m !! jobId) ->
  let m' := fold_left (process_line jobId) lines m in
  List.length (ipc m')
  = List.length (ipc m)
    + (if mainWindow m then List.length (omap applied_record lines) else 0)
  /\ List.length (console m')
     = List.length (console m) + List.length (List.filter is_diagnostic lines).
Proof.
  revert m. induction lines as [|l ls IH]; intros m [job Hjob]; cbn zeta.
  - cbn. destruct (mainWindow m); lia.
  - cbn [fold_left omap list_omap List.filter].
    assert (Hd : is_diagnostic l = match applied_record l with
                                   | Some _ => false | None => true end) by reflexivity.
    destruct (applied_record l) as [pd|] eqn:E; rewrite Hd.
    + rewrite (process_line_applied jobId m l pd E).
      destruct (applied_record_returns l pd job E) as [job' Ejob].
      destruct (updateJobProgress_effects m pd job job' Hjob Ejob) as (Hw & Hcon & Hipc & Hj).
      destruct (IH (fst (updateJobProgress m jobId pd))) as [H1 H2]; [by eexists|].
      rewrite H1, H2, Hw, Hcon, Hipc.
      destruct (mainWindow m); [rewrite length_app|]; cbn; lia.
    + rewrite (process_line_diagnostic jobId m l E) by (by eexists).
      destruct (IH (console_write (diagnostic jobId l) m)) as [H1 H2]; [by eexists|].
      rewrite H1, H2. cbn [console_write ipc console mainWindow].
      rewrite length_app. cbn. lia.
Qed.

End ChunkEffects.

(** X6: a chunk sends exactly one [job-progress] message per line that is a
    structured record [updateJobProgress] takes (none without a window)
    and writes exactly one console line per other non-blank line, the
    records on which [updateJobProgress] throws among them. For a chunk
    made of lines that each end with a line feed, the lines counted are
    those lines. *)
Theorem one_message_per_record {rt : Runtime} (m : Main) (jobId output : string)
    (job : ProcessingJob) :
  jobs m !! jobId = Some job ->
  let m' := handleProcessOutput m jobId output in
  List.length (ipc m')
  = List.length (ipc m) + (if mainWindow m then count_records output else 0)
  /\ List.length (console m') = List.length (console m) + count_diagnostics output
  /\ forall ls,
       Forall (fun l => is_line l = true) ls ->
       count_records (stream ls EmptyString) = List.length (omap applied_record ls)
       /\ count_diagnostics (stream ls EmptyString)
          = List.length (List.filter is_diagnostic ls).
Proof.
  intros Hjob. cbn zeta.
  assert (H : let m' := handleProcessOutput m jobId output in
              List.length (ipc m')
              = List.length (ipc m) + (if mainWindow m then count_records output else 0)
              /\ List.length (console m')
                 = List.length (console m) + count_diagnostics output).
  { unfold handleProcessOutput. rewrite Hjob.
    apply fold_process_line_counts. by eexists. }
  destruct H as [H1 H2]. split; [exact H1|]. split; [exact H2|].
  intros ls Hls. unfold count_records, count_diagnostics.
  by rewrite (output_lines_stream ls Hls).
Qed.

Lemma one_message_per_record_witness :
  jobs Sample.one_running !! "job_1" = Some Sample.running_job
  /\ List.length
       (ipc (handleProcessOutput (rt := Reference.runtime) Sample.one_running "job_1"
               (stream [Sample.record1 "stage" "analysis"; "Traceback";
                        Sample.throwing_stage] "")))
     = 1
  /\ List.length
       (console (handleProcessOutput (rt := Reference.runtime) Sample.one_running "job_1"
                   (stream [Sample.record1 "stage" "analysis"; "Traceback";
                            Sample.throwing_stage] "")))
     = 2.
Proof.
  split; [reflexivity|].
  pose proof (one_message_per_record (rt := Reference.runtime) Sample.one_running "job_1"
                (stream [Sample.record1 "stage" "analysis"; "Traceback";
                         Sample.throwing_stage] "")
                Sample.running_job eq_refl) as H.
  split; [exact (proj1 H) | exact (proj1 (proj2 H))].
Defined.

(** ** The channel to the renderer *)

Lemma extends_refl m : extends m m.
Proof. exists []. by rewrite app_nil_r. Qed.

Lemma extends_same_ipc m m' : ipc m' = ipc m -> extends m m'.
Proof. intros E. exists []. by rewrite app_nil_r. Qed.

Lemma extends_trans a b c : extends a b -> extends b c -> extends a c.
Proof. intros [n1 E1] [n2 E2]. exists (n1 ++ n2). by rewrite E2, E1, app_assoc. Qed.

Lemma new_messages_app m m' news : ipc m' = ipc m ++ news -> new_messages m m' = news.
Proof. intros E. unfold new_messages. rewrite E. apply drop_app_length. Qed.

Lemma new_messages_trans a b c :
  extends a b -> extends b c -> new_messages a c = new_messages a b ++ new_messages b c.
Proof.
  intros [n1 E1] [n2 E2].
  rewrite (new_messages_app a b n1 E1), (new_messages_app b c n2 E2).
  apply new_messages_app. by rewrite E2, E1, app_assoc.
Qed.

Lemma send_extends msg m : extends m (send msg m).
Proof.
  unfold send, extends. cbn [ipc]. destruct (mainWindow m); [by eexists|].
  exists []. by rewrite app_nil_r.
Qed.

Section Channel.
Context {rt : Runtime}.
Variable jobId : string.

Lemma updateJobProgress_extends m pd : extends m (fst (updateJobProgress m jobId pd)).
Proof.
  unfold updateJobProgress. destruct (jobs m !! jobId) as [job|]; [|apply extends_refl].
  destruct (apply_progress pd job); [|apply extends_refl]. cbn [fst].
  eapply extends_trans; [|apply send_extends]. by apply extends_same_ipc.
Qed.

Lemma process_line_extends m line : extends m (process_line jobId m line).
Proof.
  destruct (process_line_cases jobId m line) as [[pd ->] | [entry ->]].
  - apply updateJobProgress_extends.
  - by apply extends_same_ipc.
Qed.

Lemma fold_process_line_extends lines m :
  extends m (fold_left (process_line jobId) lines m).
Proof.
  revert m. induction lines as [|l ls IH]; intros m; [apply extends_refl|].
  cbn [fold_left]. eapply extends_trans; [apply process_line_extends | apply IH].
Qed.

Lemma mainWindow_updateJobProgress m pd :
  mainWindow (fst (updateJobProgress m jobId pd)) = mainWindow m.
Proof.
  unfold updateJobProgress. destruct (jobs m !! jobId) as [job|]; [|done].
  by destruct (apply_progress pd job).
Qed.

Lemma mainWindow_process_line m line : mainWindow (process_line jobId m line) = mainWindow m.
Proof.
  destruct (process_line_cases jobId m line) as [[pd ->] | [entry ->]]; [|done].
  apply mainWindow_updateJobProgress.
Qed.

Lemma mainWindow_step m hn : mainWindow (step jobId m hn) = mainWindow m.
Proof.
  destruct hn as [h [chunk | chunk | code | ]]; cbn [step].
  - unfold handleProcessOutput. destruct (jobs m !! jobId); [|done].
    generalize (output_lines chunk). intros lines. revert m.
    induction lines as [|l ls IH]; intros m; [done|].
    cbn [fold_left]. by rewrite IH, mainWindow_process_line.
  - unfold on_stderr, handleProcessError. cbn [console_write jobs].
    by destruct (jobs m !! jobId).
  - unfold on_close. destruct (jobs m !! jobId) as [job|]; [|done].
    by destruct (close_job h code job) as [job2 [|]].
  - unfold cancelJob. destruct (jobs m !! jobId) as [job|]; [|done].
    destruct (process job) as [child|]; [|done]. by destruct (kill h child "SIGTERM").
Qed.

Lemma mainWindow_run trace m : mainWindow (run jobId m trace) = mainWindow m.
Proof.
  unfold run. revert m. induction trace as [|hn trace IH]; intros m; [done|].
  cbn [fold_left]. by rewrite IH, mainWindow_step.
Qed.

End Channel.

(** ** The panel's list *)

Module PanelFacts.
Import ProcessingPanel.

Lemma In_update_job jobId f prev rj :
  In rj (update_job jobId f prev) ->
  exists rj0, In rj0 prev
              /\ rj = if String.eqb (id rj0) jobId then f rj0 else rj0.
Proof.
  unfold update_job. intros (rj0 & E & H)%in_map_iff. eauto.
Qed.

Lemma In_update_job_same jobId f prev rj :
  (forall j, id (f j) = id j) ->
  In rj (update_job jobId f prev) -> id rj = jobId ->
  exists rj0, In rj0 prev /\ id rj0 = jobId /\ rj = f rj0.
Proof.
  intros Hid (rj0 & Hin & E)%In_update_job Hrj.
  destruct (String.eqb_spec (id rj0) jobId) as [Heq|Hne].
  - eauto.
  - subst rj. done.
Qed.

Lemma ids_update_job jobId f prev :
  (forall j, id (f j) = id j /\ inputPath (f j) = inputPath j) ->
  List.map (fun j => (id j, inputPath j)) (update_job jobId f prev)
  = List.map (fun j => (id j, inputPath j)) prev.
Proof.
  intros Hf. unfold update_job. rewrite List.map_map. apply List.map_ext.
  intros j. destruct (String.eqb (id j) jobId); [|done].
  by destruct (Hf j) as [-> ->].
Qed.

Lemma ids_receive now s msg :
  List.map (fun j => (id j, inputPath j)) (jobs (receive now s msg))
  = List.map (fun j => (id j, inputPath j)) (jobs s).
Proof. destruct msg; cbn [receive]; by apply ids_update_job. Qed.

Lemma ids_cancelJob jobId s :
  List.map (fun j => (id j, inputPath j)) (jobs (cancelJob jobId s))
  = List.map (fun j => (id j, inputPath j)) (jobs s).
Proof. by apply ids_update_job. Qed.

Lemma id_update_job jobId f prev :
  (forall j, id j = jobId -> id (f j) = id j) ->
  List.map id (update_job jobId f prev) = List.map id prev.
Proof.
  intros Hf. unfold update_job. rewrite List.map_map. apply List.map_ext.
  intros j. destruct (String.eqb_spec (id j) jobId); [by apply Hf | done].
Qed.

Lemma id_refresh updatedJob s :
  List.map id (jobs (refresh updatedJob s)) = List.map id (jobs s).
Proof.
  destruct updatedJob as [u|]; [|done]. cbn [refresh jobs].
  apply id_update_job. intros j Hj. by rewrite Hj.
Qed.

Lemma jobs_select i s : jobs (select i s) = jobs s.
Proof. unfold select. by destruct (jobs s !! i). Qed.

(** The handlers registered see no active job, so no message writes to
    [activeJob]. *)
Lemma activeJob_receive now s msg : activeJob (receive now s msg) = activeJob s.
Proof. by destruct msg. Qed.

Lemma activeJob_fold_receive now msgs s :
  activeJob (fold_left (receive now) msgs s) = activeJob s.
Proof.
  revert s. induction msgs as [|msg msgs IH]; intros s; [done|].
  cbn [fold_left]. by rewrite IH, activeJob_receive.
Qed.

End PanelFacts.

(** X13: whatever messages arrive, in whatever order, whichever jobs the user
    cancels, whichever entries the user clicks on and whatever the polls
    answer in between, the panel's list keeps its length, its order and
    the id of every entry: no update adds, removes or renames a job.
    Messages, cancel requests and clicks keep the input path of every
    entry as well; only the answer to a poll can replace it. *)
Theorem panel_list_keeps_its_jobs (prev : ProcessingPanel.Panel)
    (updates : list PanelUpdate) :
  List.map ProcessingPanel.id (ProcessingPanel.jobs (fold_left panel_update updates prev))
  = List.map ProcessingPanel.id (ProcessingPanel.jobs prev)
  /\ (existsb is_polled updates = false ->
      List.map ProcessingPanel.inputPath
        (ProcessingPanel.jobs (fold_left panel_update updates prev))
      = List.map ProcessingPanel.inputPath (ProcessingPanel.jobs prev)).
Proof.
  split.
  - revert prev. induction updates as [|[now msg | jobId | u | i] updates IH]; intros prev;
      [reflexivity|..]; cbn [fold_left panel_update]; rewrite IH.
    + pose proof (PanelFacts.ids_receive now prev msg) as H.
      apply (f_equal (List.map fst)) in H. by rewrite !List.map_map in H.
    + pose proof (PanelFacts.ids_cancelJob jobId prev) as H.
      apply (f_equal (List.map fst)) in H. by rewrite !List.map_map in H.
    + apply PanelFacts.id_refresh.
    + by rewrite PanelFacts.jobs_select.
  - revert prev.
    induction updates as [|[now msg | jobId | u | i] updates IH]; intros prev Hp;
      [reflexivity|..]; cbn [existsb is_polled orb] in Hp; try done;
      cbn [fold_left panel_update]; rewrite (IH _ Hp).
    + pose proof (PanelFacts.ids_receive now prev msg) as H.
      apply (f_equal (List.map snd)) in H. by rewrite !List.map_map in H.
    + pose proof (PanelFacts.ids_cancelJob jobId prev) as H.
      apply (f_equal (List.map snd)) in H. by rewrite !List.map_map in H.
    + by rewrite PanelFacts.jobs_select.
Qed.

Lemma panel_list_keeps_its_jobs_witness :
  existsb is_polled
    [received 5 (job_error "job_1" "warning"); cancelled "job_2"; clicked 0] = false
  /\ List.map ProcessingPanel.inputPath
       (ProcessingPanel.jobs
          (fold_left panel_update
             [received 5 (job_error "job_1" "warning"); cancelled "job_2"; clicked 0]
             mounted_panel))
     = ["/tmp/a.jpg"].
Proof.
  split; [reflexivity|].
  exact (proj2 (panel_list_keeps_its_jobs mounted_panel
                  [received 5 (job_error "job_1" "warning"); cancelled "job_2"; clicked 0])
           eq_refl).
Defined.

(** ** The main process and the panel together *)

Section Mirror.
Context {rt : Runtime}.
Variable jobId : string.
Variable now : Z.

Lemma mirrors_same m m' panel :
  jobs m' = jobs m -> ipc m' = ipc m ->
  mirrors_progress jobId m (ProcessingPanel.jobs panel) ->
  mirrors_progress jobId m' (ProcessingPanel.jobs (deliver now m m' panel)).
Proof.
  intros Hj Hi Hm. unfold deliver. rewrite (new_messages_app m m' []) by (by rewrite app_nil_r).
  cbn [fold_left]. intros rj Hin Hid. rewrite Hj. by apply Hm.
Qed.

Lemma mirrors_updateJobProgress m pd panel :
  mainWindow m = true -> is_Some (jobs m !! jobId) ->
  mirrors_progress jobId m (ProcessingPanel.jobs panel) ->
  mirrors_progress jobId (fst (updateJobProgress m jobId pd))
    (ProcessingPanel.jobs (deliver now m (fst (updateJobProgress m jobId pd)) panel)).
Proof.
  intros Hw [job Hjob] Hm.
  destruct (apply_progress pd job) as [job'|] eqn:E.
  - destruct (updateJobProgress_effects jobId m pd job job' Hjob E) as (_ & _ & Hipc & Hj).
    rewrite Hw in Hipc. unfold deliver. rewrite (new_messages_app _ _ _ Hipc).
    cbn [fold_left ProcessingPanel.receive ProcessingPanel.handleJobProgress
           ProcessingPanel.jobs].
    intros rj Hin Hid. rewrite Hj. cbn.
    apply PanelFacts.In_update_job_same in Hin as (rj0 & _ & _ & ->); done.
  - assert (Hsame : fst (updateJobProgress m jobId pd) = m).
    { unfold updateJobProgress. by rewrite Hjob, E. }
    rewrite Hsame. by apply mirrors_same.
Qed.

Lemma mirrors_process_line m line panel :
  mainWindow m = true -> is_Some (jobs m !! jobId) ->
  mirrors_progress jobId m (ProcessingPanel.jobs panel) ->
  mirrors_progress jobId (process_line jobId m line)
    (ProcessingPanel.jobs (deliver now m (process_line jobId m line) panel)).
Proof.
  intros Hw Hjob Hm.
  destruct (process_line_cases jobId m line) as [[pd ->] | [entry ->]].
  - by apply mirrors_updateJobProgress.
  - by apply mirrors_same.
Qed.

Lemma mirrors_fold lines m panel :
  mainWindow m = true -> is_Some (jobs m !! jobId) ->
  mirrors_progress jobId m (ProcessingPanel.jobs panel) ->
  mirrors_progress jobId (fold_left (process_line jobId) lines m)
    (ProcessingPanel.jobs (deliver now m (fold_left (process_line jobId) lines m) panel)).
Proof.
  revert m panel. induction lines as [|l ls IH]; intros m panel Hw Hjob Hm.
  - by apply mirrors_same.
  - cbn [fold_left]. unfold deliver.
    rewrite (new_messages_trans m (process_line jobId m l))
      by (apply process_line_extends || apply fold_process_line_extends).
    rewrite fold_left_app. apply IH.
    + by rewrite mainWindow_process_line.
    + by apply process_line_keeps_job.
    + by apply mirrors_process_line.
Qed.

Lemma on_stderr_effects m data job :
  jobs m !! jobId = Some job -> mainWindow m = true ->
  ipc (on_stderr m jobId data) = ipc m ++ [job_error jobId data]
  /\ jobs (on_stderr m jobId data) !! jobId
     = Some (set_progress (set_message (JStr ("Error: " +:+ data)) (progress job)) job).
Proof.
  intros Hjob Hw. unfold on_stderr, handleProcessError. cbn [console_write jobs].
  rewrite Hjob. cbn [send put_job console_write ipc mainWindow jobs]. rewrite Hw.
  split; [done|]. apply lookup_insert_eq.
Qed.

Lemma mirrors_on_stderr m data panel :
  mainWindow m = true -> is_Some (jobs m !! jobId) ->
  mirrors_progress jobId m (ProcessingPanel.jobs panel) ->
  mirrors_progress jobId (on_stderr m jobId data)
    (ProcessingPanel.jobs (deliver now m (on_stderr m jobId data) panel)).
Proof.
  intros Hw [job Hjob] Hm.
  destruct (on_stderr_effects m data job Hjob Hw) as [Hipc Hj].
  unfold deliver. rewrite (new_messages_app _ _ _ Hipc).
  cbn [fold_left ProcessingPanel.receive ProcessingPanel.handleJobError ProcessingPanel.jobs].
  intros rj Hin Hid. rewrite Hj. cbn.
  apply PanelFacts.In_update_job_same in Hin as (rj0 & Hin0 & Hid0 & ->); [|done..].
  specialize (Hm rj0 Hin0 Hid0). rewrite Hjob in Hm. cbn in Hm.
  cbn. by injection Hm as ->.
Qed.

Lemma on_close_effects h m code job :
  jobs m !! jobId = Some job -> mainWindow m = true ->
  let job2 := fst (close_job h code job) in
  ipc (on_close h m jobId code)
  = ipc m ++ [job_completed jobId (exit_ok code) (progress job2) (outputPath job2)]
  /\ jobs (on_close h m jobId code) !! jobId = Some job2.
Proof.
  intros Hjob Hw. cbn zeta. split; [|by rewrite lookup_on_close, Hjob].
  unfold on_close. rewrite Hjob.
  destruct (close_job h code job) as [job2 [|]];
    cbn [send put_job console_write ipc mainWindow fst]; by rewrite Hw.
Qed.

Lemma mirrors_on_close h m code panel :
  mainWindow m = true -> is_Some (jobs m !! jobId) ->
  mirrors_progress jobId (on_close h m jobId code)
    (ProcessingPanel.jobs (deliver now m (on_close h m jobId code) panel)).
Proof.
  intros Hw [job Hjob].
  destruct (on_close_effects h m code job Hjob Hw) as [Hipc Hj].
  unfold deliver. rewrite (new_messages_app _ _ _ Hipc).
  cbn [fold_left ProcessingPanel.receive ProcessingPanel.handleJobCompleted
         ProcessingPanel.jobs].
  intros rj Hin Hid. rewrite Hj. cbn.
  apply PanelFacts.In_update_job_same in Hin as (rj0 & _ & _ & ->); done.
Qed.

Lemma activeJob_deliver m m' panel :
  ProcessingPanel.activeJob (deliver now m m' panel) = ProcessingPanel.activeJob panel.
Proof. unfold deliver. apply PanelFacts.activeJob_fold_receive. Qed.

End Mirror.

Lemma step_keeps_job {rt : Runtime} jobId m hn :
  is_Some (jobs m !! jobId) -> is_Some (jobs (step jobId m hn) !! jobId).
Proof.
  intros [job Hjob]. pose proof (step_status_le jobId m hn) as H.
  unfold job_status in H. rewrite Hjob in H.
  destruct (jobs (step jobId m hn) !! jobId); [by eexists | done].
Qed.

Lemma fst_system_run {rt : Runtime} jobId trace s :
  fst (system_run jobId s trace) = run jobId (fst s) (notifications trace).
Proof.
  unfold system_run, run, notifications. revert s.
  induction trace as [|[now h n | activeId | i] trace IH]; intros s; [done|..];
    cbn [fold_left omap list_omap]; by rewrite IH.
Qed.

(** No notification writes to [activeJob]: not what the main process sends
    for it, and not the panel's own update after a cancel request. *)
Lemma activeJob_system_step {rt : Runtime} jobId s e :
  is_notified e = true ->
  ProcessingPanel.activeJob (snd (system_step jobId s e)) = ProcessingPanel.activeJob (snd s).
Proof.
  destruct e as [now h n | activeId | i]; [|done..]. intros _.
  cbn [system_step snd].
  destruct n; cbn [ProcessingPanel.cancelJob ProcessingPanel.activeJob];
    apply activeJob_deliver.
Qed.

Lemma activeJob_system_run {rt : Runtime} jobId trace s :
  forallb is_notified trace = true ->
  ProcessingPanel.activeJob (snd (system_run jobId s trace)) = ProcessingPanel.activeJob (snd s).
Proof.
  unfold system_run. revert s. induction trace as [|e trace IH]; intros s H; [done|].
  cbn [forallb] in H. apply andb_prop in H as [He H].
  cbn [fold_left]. rewrite (IH _ H). by apply activeJob_system_step.
Qed.

Lemma system_run_app {rt : Runtime} jobId s a b :
  system_run jobId s (a ++ b) = system_run jobId (system_run jobId s a) b.
Proof. unfold system_run. apply fold_left_app. Qed.

Lemma run_keeps_job {rt : Runtime} jobId trace m :
  is_Some (jobs m !! jobId) -> is_Some (jobs (run jobId m trace) !! jobId).
Proof.
  unfold run. revert m. induction trace as [|hn trace IH]; intros m H; [done|].
  cbn [fold_left]. by apply IH, step_keeps_job.
Qed.

(** ** Jobs are filed under their ids *)

Lemma step_keeps_id {rt : Runtime} jobId m hn job job' :
  jobs m !! jobId = Some job -> jobs (step jobId m hn) !! jobId = Some job' ->
  id job' = id job.
Proof.
  intros Hjob Hjob'.
  destruct (step_related jobId (fun j j' => id j' = id j) true) with (m := m) (hn := hn)
    (job := job) as (job2 & H2 & Hid); try done; try congruence.
  - intros pd j j' E. apply (id_apply_progress _ _ _ E).
  - intros _ h code j. apply close_job_keeps.
Qed.

Lemma step_keyed {rt : Runtime} jobId m hn :
  keyed_by_id m -> keyed_by_id (step jobId m hn).
Proof.
  intros K k job' H. destruct (decide (jobId = k)) as [<-|Hne].
  - destruct (jobs m !! jobId) as [job|] eqn:Hjob.
    + rewrite (step_keeps_id jobId m hn job job' Hjob H). by apply K.
    + by rewrite (step_no_job jobId m hn Hjob) in H.
  - rewrite (step_other jobId k Hne) in H. by apply K.
Qed.

Lemma run_keyed {rt : Runtime} jobId trace m :
  keyed_by_id m -> keyed_by_id (run jobId m trace).
Proof.
  unfold run. revert m. induction trace as [|hn trace IH]; intros m K; [done|].
  cbn [fold_left]. by apply IH, step_keyed.
Qed.

Lemma insert_keyed k job (table : gmap string ProcessingJob) :
  id job = k ->
  (forall k' j, table !! k' = Some j -> id j = k') ->
  forall k' j, <[k := job]> table !! k' = Some j -> id j = k'.
Proof.
  intros Hid K k' j H. destruct (decide (k = k')) as [<-|Hne].
  - rewrite lookup_insert_eq in H. by injection H as <-.
  - rewrite lookup_insert_ne in H by done. by apply K.
Qed.

Lemma startProcessing_keyed {rt : Runtime} h m options :
  keyed_by_id m -> keyed_by_id (fst (startProcessing h m options)).
Proof.
  intros K. unfold startProcessing.
  destruct (is_empty _ || is_empty _); [done|].
  destruct (negb (existsSync h _)); [done|].
  assert (K1 : keyed_by_id (put_job (generateJobId h)
                              (initial_job (generateJobId h) (opt_inputPath options)) m)).
  { unfold keyed_by_id. cbn [put_job jobs]. by apply insert_keyed. }
  match goal with |- context [match ?c with Some _ => _ | None => _ end] =>
    destruct c as [outputDir|] end; [|done].
  destruct (negb (existsSync h outputDir) && negb (mkdirSync h outputDir)); [done|].
  cbn [pythonExecutable projectRoot console_write put_job].
  match goal with |- context [spawn h ?r] => destruct (spawn h r) as [child|] end;
    unfold keyed_by_id; cbn [fst record_spawn console_write put_job jobs];
    repeat (apply insert_keyed; [reflexivity|]); exact K.
Qed.

Lemma mirrors_refresh jobId m activeId panel :
  keyed_by_id m ->
  mirrors_progress jobId m (ProcessingPanel.jobs panel) ->
  mirrors_progress jobId m
    (ProcessingPanel.jobs (ProcessingPanel.refresh (getJobStatus m activeId) panel)).
Proof.
  intros K Hm. unfold getJobStatus.
  destruct (jobs m !! activeId) as [job|] eqn:Hjob; [|done].
  cbn [fmap option_fmap option_map ProcessingPanel.refresh ProcessingPanel.jobs].
  intros rj Hin Hid.
  apply PanelFacts.In_update_job in Hin as (rj0 & Hin0 & ->).
  cbn [getSerializableJob s_id] in *.
  destruct (String.eqb (ProcessingPanel.id rj0) (id job)); [|by apply Hm].
  cbn in Hid. rewrite (K activeId job Hjob) in Hid. subst activeId.
  by rewrite Hjob.
Qed.

(** X14: as long as nothing is cancelled, the list of a mounted panel that
    showed the progress of a job keeps showing it: after every output
    chunk, error chunk and exit notification, once the messages sent have
    arrived, after every poll of the panel's timer, for whichever job,
    and after every click, the progress in every entry of the list for
    the job (stage, message, agent status, quality score, strategy) is
    the progress the main process holds. The copy in the detail pane,
    [activeJob], is not kept up by the messages: the handlers registered
    see no active job, so over notifications alone, cancel requests
    included, [activeJob] stays exactly as it was, whatever the list
    shows. *)
Theorem panel_mirrors_progress {rt : Runtime} (jobId : string) (m : Main)
    (panel : ProcessingPanel.Panel) (trace : list SystemEvent) :
  mainWindow m = true ->
  keyed_by_id m ->
  is_Some (jobs m !! jobId) ->
  mirrors_progress jobId m (ProcessingPanel.jobs panel) ->
  let s' := system_run jobId (m, panel) trace in
  (existsb is_cancel trace = false ->
   mirrors_progress jobId (fst s') (ProcessingPanel.jobs (snd s')))
  /\ (forallb is_notified trace = true ->
      ProcessingPanel.activeJob (snd s') = ProcessingPanel.activeJob panel).
Proof.
  intros Hw K Hjob Hm s'. subst s'.
  split; [|by apply (activeJob_system_run jobId trace (m, panel))].
  unfold system_run. revert m panel Hw K Hjob Hm.
  induction trace as [|[now h n | activeId | i] trace IH]; intros m panel Hw K Hjob Hm Hc;
    [done|..].
  - cbn [existsb] in Hc. apply orb_false_elim in Hc as [Hn Hc].
    cbn [fold_left].
    assert (Hstep : mirrors_progress jobId (step jobId m (h, n))
                      (ProcessingPanel.jobs
                         (snd (system_step jobId (m, panel) (notified now h n))))).
    { unfold system_step. cbn [fst snd].
      destruct n as [chunk | chunk | code | ]; [..|done]; cbn [step].
      - unfold handleProcessOutput. destruct Hjob as [job Hjob]. rewrite Hjob.
        apply mirrors_fold; [done | by eexists | done].
      - by apply mirrors_on_stderr.
      - by apply mirrors_on_close. }
    destruct (system_step jobId (m, panel) (notified now h n)) as [m1 panel1] eqn:E.
    assert (Hm1 : m1 = step jobId m (h, n)) by (by inversion E).
    subst m1. apply IH; try done.
    + by rewrite mainWindow_step.
    + by apply step_keyed.
    + by apply step_keeps_job.
  - cbn [existsb is_cancel orb] in Hc. cbn [fold_left system_step fst snd].
    apply IH; try done. by apply mirrors_refresh.
  - cbn [existsb is_cancel orb] in Hc. cbn [fold_left system_step fst snd].
    apply IH; try done. by rewrite PanelFacts.jobs_select.
Qed.

Lemma panel_mirrors_progress_witness :
  (mainWindow Sample.one_running = true
   /\ keyed_by_id Sample.one_running
   /\ is_Some (jobs Sample.one_running !! "job_1")
   /\ mirrors_progress "job_1" Sample.one_running (ProcessingPanel.jobs mounted_panel))
  /\ mirrors_progress "job_1"
       (fst (system_run (rt := Reference.runtime) "job_1" (Sample.one_running, mounted_panel)
               [notified 5 (Sample.host 1)
                  (stdout_data (Sample.line (Sample.record1 "stage" "analysis")));
                notified 6 (Sample.host 1) (stderr_data "warning")]))
       (ProcessingPanel.jobs
          (snd (system_run (rt := Reference.runtime) "job_1"
                  (Sample.one_running, mounted_panel)
                  [notified 5 (Sample.host 1)
                     (stdout_data (Sample.line (Sample.record1 "stage" "analysis")));
                   notified 6 (Sample.host 1) (stderr_data "warning")])))
  /\ ProcessingPanel.activeJob
       (snd (system_run (rt := Reference.runtime) "job_1" (Sample.one_running, mounted_panel)
               [notified 5 (Sample.host 1)
                  (stdout_data (Sample.line (Sample.record1 "stage" "analysis")));
                notified 6 (Sample.host 1) (stderr_data "warning")]))
     = ProcessingPanel.activeJob mounted_panel.
Proof.
  assert (H0 : mirrors_progress "job_1" Sample.one_running
                 (ProcessingPanel.jobs mounted_panel)).
  { intros rj [<- | []] _. reflexivity. }
  assert (K0 : keyed_by_id Sample.one_running).
  { intros k job H. cbn [Sample.one_running jobs] in H.
    apply lookup_singleton_Some in H as [<- <-]. reflexivity. }
  split; [repeat split; [exact K0 | by eexists | exact H0]|].
  pose proof (panel_mirrors_progress (rt := Reference.runtime) "job_1" Sample.one_running
                mounted_panel
                [notified 5 (Sample.host 1)
                   (stdout_data (Sample.line (Sample.record1 "stage" "analysis")));
                 notified 6 (Sample.host 1) (stderr_data "warning")]
                eq_refl K0 (ex_intro _ _ eq_refl) H0) as H.
  split; [exact (proj1 H eq_refl) | exact (proj2 H eq_refl)].
Defined.

(** X15: however the list of the panel and the main process came to differ (an
    error chunk has marked the job failed in the list, the user has
    cancelled it, a success event has completed it in the main process
    only, a poll has taken the end time away), the exit notification
    brings the two together: every entry of the list for the job then has
    the status the main process has, [completed] for exit code 0 and
    [failed] otherwise, the same progress, the same output path when the
    main process has one, and the time of arrival as its end time. The
    copy in the detail pane, [activeJob], is not written to: it is as it
    was before the notification. *)
Theorem exit_synchronises_the_panel {rt : Runtime} (jobId : string) (m : Main)
    (panel : ProcessingPanel.Panel) (trace : list SystemEvent)
    (now : Z) (h : Host) (code : option Z) :
  mainWindow m = true ->
  is_Some (jobs m !! jobId) ->
  let s0 := system_run jobId (m, panel) trace in
  let s' := system_run jobId (m, panel) (trace ++ [notified now h (close code)]) in
  (forall rj, In rj (ProcessingPanel.jobs (snd s')) -> ProcessingPanel.id rj = jobId ->
     exists job', jobs (fst s') !! jobId = Some job'
       /\ ProcessingPanel.status rj = status job'
       /\ status job' = (if exit_ok code then completed else failed)
       /\ ProcessingPanel.progress rj = progress job'
       /\ (truthy_prop (outputPath job') = true ->
           ProcessingPanel.outputPath rj = outputPath job')
       /\ ProcessingPanel.endTime rj = Some now)
  /\ ProcessingPanel.activeJob (snd s') = ProcessingPanel.activeJob (snd s0).
Proof.
  intros Hw Hjob s0 s'. subst s0 s'. rewrite system_run_app.
  destruct (system_run jobId (m, panel) trace) as [m1 panel1] eqn:E.
  assert (Hm1 : m1 = run jobId m (notifications trace)).
  { change m1 with (fst (m1, panel1)). rewrite <- E. apply fst_system_run. }
  assert (Hw1 : mainWindow m1 = true) by (by rewrite Hm1, mainWindow_run).
  assert (Hjob1 : is_Some (jobs m1 !! jobId)) by (rewrite Hm1; by apply run_keeps_job).
  destruct Hjob1 as [job1 Hjob1].
  split; [|by apply (activeJob_system_run jobId [notified now h (close code)] (m1, panel1))].
  unfold system_run. cbn [fold_left]. unfold system_step. cbn [fst snd step].
  destruct (on_close_effects jobId h m1 code job1 Hjob1 Hw1) as [Hipc Hj].
  unfold deliver. rewrite (new_messages_app _ _ _ Hipc).
  cbn [fold_left ProcessingPanel.receive ProcessingPanel.handleJobCompleted
         ProcessingPanel.jobs].
  intros rj Hin Hid. exists (fst (close_job h code job1)). split; [exact Hj|].
  apply PanelFacts.In_update_job_same in Hin as (rj0 & _ & _ & ->); [|done..].
  destruct (close_job_status h code job1) as [Hst _]. cbn. rewrite Hst.
  repeat split. intros Ht. by rewrite Ht.
Qed.

Lemma exit_synchronises_the_panel_witness :
  (mainWindow Sample.one_running = true /\ is_Some (jobs Sample.one_running !! "job_1"))
  /\ (forall rj,
        In rj (ProcessingPanel.jobs
                 (snd (system_run (rt := Reference.runtime) "job_1"
                         (Sample.one_running, mounted_panel)
                         ([notified 5 (Sample.host 1) (stderr_data "warning");
                           refreshed "job_1"]
                            ++ [notified 9 (Sample.host 1) (close (Some 0%Z))])))) ->
        ProcessingPanel.id rj = "job_1" ->
        ProcessingPanel.status rj = completed /\ ProcessingPanel.endTime rj = Some 9%Z)
  /\ ProcessingPanel.status
       <$> ProcessingPanel.activeJob
             (snd (system_run (rt := Reference.runtime) "job_1"
                     (Sample.one_running, mounted_panel)
                     ([notified 5 (Sample.host 1) (stderr_data "warning");
                       refreshed "job_1"]
                        ++ [notified 9 (Sample.host 1) (close (Some 0%Z))])))
     = Some running.
Proof.
  split; [split; [reflexivity | by eexists]|].
  destruct (exit_synchronises_the_panel (rt := Reference.runtime) "job_1" Sample.one_running
              mounted_panel
              [notified 5 (Sample.host 1) (stderr_data "warning"); refreshed "job_1"]
              9%Z (Sample.host 1) (Some 0%Z) eq_refl (ex_intro _ _ eq_refl))
    as [Hlist Hactive].
  split.
  - intros rj Hin Hid.
    destruct (Hlist rj Hin Hid) as (job' & _ & Hs & Hc & _ & _ & He).
    split; [by rewrite Hs, Hc | exact He].
  - rewrite Hactive. vm_compute. reflexivity.
Defined.

(** X16: one chunk on the worker's error stream, a warning say, leaves the
    status of the job in the main process as it was and marks every entry
    of the panel's list for the job [failed], with the same error message
    on both sides; the copy in the detail pane, [activeJob], is not
    written to. The list shows the job failed until the panel next polls
    that job: the answer puts the status of the main process back in the
    list, keeps the message and drops the end time, and becomes the
    active job. *)
Theorem stderr_fails_the_job_in_the_panel_only {rt : Runtime} (jobId : string) (m : Main)
    (panel : ProcessingPanel.Panel) (now : Z) (h : Host) (data : string)
    (job : ProcessingJob) :
  mainWindow m = true ->
  jobs m !! jobId = Some job ->
  id job = jobId ->
  let s' := system_step jobId (m, panel) (notified now h (stderr_data data)) in
  let s'' := system_step jobId s' (refreshed jobId) in
  (exists job', jobs (fst s') !! jobId = Some job'
                /\ status job' = status job
                /\ message (progress job') = JStr ("Error: " +:+ data))
  /\ (forall rj, In rj (ProcessingPanel.jobs (snd s')) -> ProcessingPanel.id rj = jobId ->
        ProcessingPanel.status rj = failed
        /\ message (ProcessingPanel.progress rj) = JStr ("Error: " +:+ data)
        /\ ProcessingPanel.endTime rj = Some now)
  /\ ProcessingPanel.activeJob (snd s') = ProcessingPanel.activeJob panel
  /\ (forall rj, In rj (ProcessingPanel.jobs (snd s'')) -> ProcessingPanel.id rj = jobId ->
        ProcessingPanel.status rj = status job
        /\ message (ProcessingPanel.progress rj) = JStr ("Error: " +:+ data)
        /\ ProcessingPanel.endTime rj = None)
  /\ (exists aj, ProcessingPanel.activeJob (snd s'') = Some aj
                 /\ ProcessingPanel.id aj = jobId
                 /\ ProcessingPanel.status aj = status job
                 /\ message (ProcessingPanel.progress aj) = JStr ("Error: " +:+ data)).
Proof.
  intros Hw Hjob Hkey s' s''. subst s' s''. unfold system_step. cbn [fst snd step].
  destruct (on_stderr_effects jobId m data job Hjob Hw) as [Hipc Hj].
  split; [|split; [|split; [|split]]].
  - eexists. split; [exact Hj|]. split; reflexivity.
  - unfold deliver. rewrite (new_messages_app _ _ _ Hipc).
    cbn [fold_left ProcessingPanel.receive ProcessingPanel.handleJobError
           ProcessingPanel.jobs].
    intros rj Hin Hid.
    apply PanelFacts.In_update_job_same in Hin as (rj0 & _ & _ & ->); done.
  - apply activeJob_deliver.
  - unfold getJobStatus. rewrite Hj.
    cbn [fmap option_fmap option_map ProcessingPanel.refresh ProcessingPanel.jobs].
    intros rj Hin Hid.
    apply PanelFacts.In_update_job in Hin as (rj0 & _ & ->).
    cbn [getSerializableJob s_id set_progress id] in *. rewrite Hkey in *.
    destruct (String.eqb_spec (ProcessingPanel.id rj0) jobId) as [_|Hne]; [|done].
    repeat split.
  - unfold getJobStatus. rewrite Hj.
    cbn [fmap option_fmap option_map ProcessingPanel.refresh ProcessingPanel.activeJob].
    eexists. split; [reflexivity|]. repeat split. exact Hkey.
Qed.

Lemma stderr_fails_the_job_in_the_panel_only_witness :
  (mainWindow Sample.one_running = true
   /\ jobs Sample.one_running !! "job_1" = Some Sample.running_job
   /\ id Sample.running_job = "job_1")
  /\ (forall rj,
        In rj (ProcessingPanel.jobs
                 (snd (system_step (rt := Reference.runtime) "job_1"
                         (Sample.one_running, mounted_panel)
                         (notified 5 (Sample.host 1) (stderr_data "warning"))))) ->
        ProcessingPanel.id rj = "job_1" ->
        ProcessingPanel.status rj = failed
        /\ message (ProcessingPanel.progress rj) = JStr ("Error: " +:+ "warning")
        /\ ProcessingPanel.endTime rj = Some 5%Z)
  /\ ProcessingPanel.activeJob
       (snd (system_step (rt := Reference.runtime) "job_1"
               (Sample.one_running, mounted_panel)
               (notified 5 (Sample.host 1) (stderr_data "warning"))))
     = ProcessingPanel.activeJob mounted_panel.
Proof.
  split; [repeat split|].
  pose proof (stderr_fails_the_job_in_the_panel_only (rt := Reference.runtime) "job_1"
                Sample.one_running mounted_panel 5%Z (Sample.host 1) "warning"
                Sample.running_job eq_refl eq_refl eq_refl) as H.
  split; [exact (proj1 (proj2 H)) | exact (proj1 (proj2 (proj2 H)))].
Defined.

(** ** Agent status given directly *)

Lemma props_assign_property a k' v k :
  k <> "__proto__" ->
  props (assign_property a (k', v)) !! k
  = if String.eqb k k' then Some v else props a !! k.
Proof.
  intros Hk. unfold assign_property.
  destruct (String.eqb_spec k' "__proto__") as [->|Hk'].
  - destruct (String.eqb_spec k "__proto__") as [|_]; [done|].
    destruct (proto_shadowed a); cbn [andb negb].
    + cbn [props]. by rewrite lookup_insert_ne.
    + by destruct v.
  - cbn [andb props]. destruct (String.eqb_spec k k') as [->|Hne].
    + apply lookup_insert_eq.
    + by rewrite lookup_insert_ne.
Qed.

Lemma props_fold_assign l a k :
  k <> "__proto__" ->
  props (fold_left assign_property l a) !! k
  = match get k l with Some v => Some v | None => props a !! k end.
Proof.
  intros Hk. revert a. induction l as [|[k' v] rest IH]; intros a; [done|].
  cbn [fold_left get]. rewrite IH.
  destruct (get k rest) as [w|]; [done|].
  rewrite props_assign_property by done. by destruct (String.eqb k k').
Qed.

Lemma get_is_Some_of_key k (l : list (string * json)) :
  existsb (fun kv => String.eqb k (fst kv)) l = true -> is_Some (get k l).
Proof.
  induction l as [|[k' v] rest IH]; [done|]. cbn [existsb get fst].
  destruct (get k rest) as [w|]; [by eexists|].
  destruct (String.eqb k k'); [by eexists|]. cbn. intros H. by destruct (IH H).
Qed.

Lemma get_last_members k ms : get k (last_members ms) = get k ms.
Proof.
  induction ms as [|[k' v] rest IH]; [done|]. cbn [last_members get].
  destruct (existsb _ rest) eqn:E.
  - rewrite IH. destruct (get k rest) as [w|] eqn:G; [done|].
    destruct (String.eqb_spec k k') as [->|]; [|done].
    apply get_is_Some_of_key in E as [w Hw]. congruence.
  - cbn [get]. by rewrite IH.
Qed.

(** X7: an event that carries an [agentStatus] object never makes
    [updateJobProgress] throw, and is merged into the job's agent status
    member by member: every name of the object other than [__proto__]
    gets the object's (last) value for it, and every name the object
    leaves out keeps the value it had. *)
Theorem direct_agent_status_is_merged (m : Main) (jobId : string) (job : ProcessingJob)
    (progressData members : list (string * json)) (k : string) :
  jobs m !! jobId = Some job ->
  get "agentStatus" progressData = Some (JObj members) ->
  k <> "__proto__" ->
  snd (updateJobProgress m jobId progressData) = call_returned
  /\ agent_status (fst (updateJobProgress m jobId progressData)) jobId k
     = match get k members with
       | Some v => Some v
       | None => agent_status m jobId k
       end.
Proof.
  intros Hjob Hdirect Hk.
  assert (T : record_throws progressData = false).
  { unfold record_throws. by rewrite Hdirect. }
  split; [by apply updateJobProgress_returns|].
  unfold agent_status.
  rewrite lookup_updateJobProgress, Hjob. cbn [fmap option_fmap option_map mbind option_bind].
  destruct (apply_progress_returns progressData job T) as [job' E].
  rewrite E. cbn [default from_option Datatypes.id].
  apply agentStatus_apply_progress in E. unfold update_agentStatus in E.
  rewrite Hdirect in E. cbn [truthy] in E. injection E as <-.
  unfold Object_assign. cbn [own_enumerable].
  by rewrite props_fold_assign, get_last_members.
Qed.

Lemma direct_agent_status_is_merged_witness :
  (jobs Sample.one_running !! "job_1" = Some Sample.running_job
   /\ get "agentStatus" [("agentStatus", JObj [("qc", JStr "running")])]
      = Some (JObj [("qc", JStr "running")])
   /\ "analysis" <> "__proto__")
  /\ agent_status
       (fst (updateJobProgress Sample.one_running "job_1"
               [("agentStatus", JObj [("qc", JStr "running")])])) "job_1" "analysis"
     = match get "analysis" [("qc", JStr "running")] with
       | Some v => Some v
       | None => agent_status Sample.one_running "job_1" "analysis"
       end.
Proof.
  split; [repeat split; done|].
  apply (direct_agent_status_is_merged Sample.one_running "job_1" Sample.running_job
           [("agentStatus", JObj [("qc", JStr "running")])] [("qc", JStr "running")]
           "analysis"); done.
Defined.

(** ** Agent status derived from the stage *)

Lemma Object_prototype_key_is_no_agent key x :
  Object_prototype_key key = Some x -> ~ In x agent_names.
Proof.
  unfold Object_prototype_key.
  destruct (String.eqb key "constructor"); [intros [= <-]; cbn; intuition discriminate|].
  destruct (String.eqb key "__proto__"); [intros [= <-]; cbn; intuition discriminate|].
  destruct (existsb _ _); [|done].
  intros [= <-]. cbv [native_function String.append agent_names In].
  intuition discriminate.
Qed.

(** X8: an event without an [agentStatus] changes the entry of one of the five
    agents only when its stage resolves, through [stageAgentMap], to that
    agent; the entry is then the status derived from the stage. A stage
    that is not in the table, or on which the lookup throws, leaves all
    five as they were. *)
Theorem stage_event_touches_only_its_agent (m : Main) (jobId : string) (job : ProcessingJob)
    (progressData : list (string * json)) (k : string) :
  jobs m !! jobId = Some job ->
  truthy_prop (get "agentStatus" progressData) = false ->
  In k agent_names ->
  agent_status (fst (updateJobProgress m jobId progressData)) jobId k
  <> agent_status m jobId k ->
  exists st key,
    get "stage" progressData = Some st
    /\ js_key st = key_of key
    /\ assoc key stageAgentMap = Some k
    /\ agent_status (fst (updateJobProgress m jobId progressData)) jobId k
       = Some (JStr (stage_status st)).
Proof.
  intros Hjob Hdirect Hk. unfold agent_status.
  rewrite lookup_updateJobProgress, Hjob. cbn [fmap option_fmap option_map mbind option_bind].
  destruct (apply_progress progressData job) as [job'|] eqn:E;
    cbn [default from_option Datatypes.id]; [|done].
  apply agentStatus_apply_progress in E.
  assert (Hu : update_agentStatus progressData (agentStatus (progress job))
               = update_from_stage progressData (agentStatus (progress job))).
  { unfold update_agentStatus. destruct (get "agentStatus" progressData) as [d|]; [|done].
    cbn in Hdirect. by rewrite Hdirect. }
  rewrite Hu in E. unfold update_from_stage, stageAgentMap_lookup, lookup_throws in E.
  destruct (get "stage" progressData) as [st|]; [|by injection E as <-].
  destruct (truthy st); [|by injection E as <-].
  destruct (js_key st) as [key| |] eqn:K; [|by injection E as <-|done].
  destruct (assoc key stageAgentMap) as [agent|] eqn:A.
  - injection E as <-. cbn [props]. destruct (String.eqb_spec agent k) as [->|Hne].
    + intros _. exists st, key. by rewrite lookup_insert_eq.
    + rewrite lookup_insert_ne by done. intros H. by destruct H.
  - destruct (Object_prototype_key key) as [x|] eqn:P; [|by injection E as <-].
    injection E as <-.
    cbn [props]. rewrite lookup_insert_ne; [intros H; by destruct H|].
    intros ->. by apply (Object_prototype_key_is_no_agent key k).
Qed.

Lemma stage_event_touches_only_its_agent_witness :
  (jobs Sample.one_running !! "job_1" = Some Sample.running_job
   /\ truthy_prop (get "agentStatus" [("stage", JStr "gemini_complete")]) = false
   /\ In "gemini" agent_names
   /\ agent_status (fst (updateJobProgress Sample.one_running "job_1"
                           [("stage", JStr "gemini_complete")])) "job_1" "gemini"
      <> agent_status Sample.one_running "job_1" "gemini")
  /\ exists st key,
       get "stage" [("stage", JStr "gemini_complete")] = Some st
       /\ js_key st = key_of key
       /\ assoc key stageAgentMap = Some "gemini"
       /\ agent_status (fst (updateJobProgress Sample.one_running "job_1"
                               [("stage", JStr "gemini_complete")])) "job_1" "gemini"
          = Some (JStr (stage_status st)).
Proof.
  assert (Hchanged :
            agent_status (fst (updateJobProgress Sample.one_running "job_1"
                                 [("stage", JStr "gemini_complete")])) "job_1" "gemini"
            <> agent_status Sample.one_running "job_1" "gemini").
  { vm_compute. discriminate. }
  split; [repeat split; [cbn; tauto | exact Hchanged]|].
  exact (stage_event_touches_only_its_agent Sample.one_running "job_1" Sample.running_job
           [("stage", JStr "gemini_complete")] "gemini" eq_refl eq_refl
           (or_intror (or_intror (or_introl eq_refl))) Hchanged).
Defined.

(** X9: for the stage names of [stageAgentMap] the derived status is never
    [error], and it is [completed] only for the agents [analysis] and
    [gemini]: through stage names alone the background, imagemagick and
    quality-control agents never get past [running]. *)
Theorem table_stages_never_report_error (name agent : string) :
  assoc name stageAgentMap = Some agent ->
  stage_status (JStr name) <> "error"
  /\ (stage_status (JStr name) = "completed" -> agent = "analysis" \/ agent = "gemini").
Proof.
  unfold stageAgentMap. cbn [assoc].
  repeat match goal with
         | |- context [String.eqb name ?key] =>
             destruct (String.eqb_spec name key) as [->|_];
             [intros [= <-]; split;
              [vm_compute; discriminate
              | vm_compute; intros H; try discriminate H; auto]|]
         end.
  done.
Qed.

Lemma table_stages_never_report_error_witness :
  assoc "quality_control" stageAgentMap = Some "qc"
  /\ stage_status (JStr "quality_control") <> "error"
  /\ (stage_status (JStr "quality_control") = "completed" -> "qc" = "analysis" \/ "qc" = "gemini").
Proof.
  split; [reflexivity|].
  exact (table_stages_never_report_error "quality_control" "qc" eq_refl).
Defined.

(** ** Starts that fail, and starts that succeed *)

(** X10: a start that throws has spawned nothing and sent nothing. When the
    input path is blank or does not exist the state is untouched; when the
    output directory cannot be examined or created the new job stays in
    the table as it was created, [pending] and without a process; when
    [spawn] throws the new job stays in the table [failed], without a
    process. *)
Theorem failed_start_never_spawns {rt : Runtime} (h : Host) (m m' : Main)
    (options : StartOptions) (e : StartError) :
  startProcessing h m options = (m', thrown e) ->
  spawned m' = spawned m /\ signals m' = signals m /\ ipc m' = ipc m
  /\ match e with
     | input_path_required | input_path_does_not_exist _ => m' = m
     | fs_error =>
         jobs m' = <[generateJobId h :=
                       initial_job (generateJobId h) (opt_inputPath options)]> (jobs m)
     | spawn_error =>
         exists outputDir,
           jobs m' = <[generateJobId h :=
                         mkJob (generateJobId h) failed (opt_inputPath options)
                           (Some (JStr outputDir))
                           (progress (initial_job (generateJobId h)
                                        (opt_inputPath options)))
                           None]> (jobs m)
     end.
Proof.
  unfold startProcessing.
  destruct (is_empty _ || is_empty _); [by intros [= <- <-]|].
  destruct (negb (existsSync h _)); [by intros [= <- <-]|].
  match goal with |- context [match ?c with Some _ => _ | None => _ end] =>
    destruct c as [outputDir|] end; [|by intros [= <- <-]].
  destruct (negb (existsSync h outputDir) && negb (mkdirSync h outputDir));
    [by intros [= <- <-]|].
  cbn [pythonExecutable projectRoot console_write put_job].
  match goal with |- context [spawn h ?r] => destruct (spawn h r) as [child|] end; [done|].
  intros [= <- <-]. repeat split. exists outputDir.
  cbn [console_write put_job jobs]. by rewrite !insert_insert_eq.
Qed.

Lemma failed_start_never_spawns_witness :
  startProcessing (rt := Reference.runtime)
    (mkHost (fun _ => true) (fun _ => Some true) (fun _ => true) (fun _ => None)
       (fun _ => None) (fun _ _ => true) "job_9")
    Sample.one_running (mkOptions "/in/a.jpg" None None single)
  = (fst (startProcessing (rt := Reference.runtime)
            (mkHost (fun _ => true) (fun _ => Some true) (fun _ => true) (fun _ => None)
               (fun _ => None) (fun _ _ => true) "job_9")
            Sample.one_running (mkOptions "/in/a.jpg" None None single)),
     thrown spawn_error)
  /\ spawned (fst (startProcessing (rt := Reference.runtime)
                     (mkHost (fun _ => true) (fun _ => Some true) (fun _ => true)
                        (fun _ => None) (fun _ => None) (fun _ _ => true) "job_9")
                     Sample.one_running (mkOptions "/in/a.jpg" None None single)))
     = spawned Sample.one_running.
Proof.
  split; [vm_compute; reflexivity|].
  exact (proj1 (failed_start_never_spawns (rt := Reference.runtime)
                  (mkHost (fun _ => true) (fun _ => Some true) (fun _ => true)
                     (fun _ => None) (fun _ => None) (fun _ _ => true) "job_9")
                  Sample.one_running _ (mkOptions "/in/a.jpg" None None single)
                  spawn_error (surjective_pairing _))).
Defined.

(** X11: a start that returns an id has put under that id a job that
    [getJobStatus] reports at once as [running], with the input path given,
    the five agents [pending], and as output path the directory the caller
    named, if it named one; the job has a process bound, so it can be
    cancelled. *)
Theorem started_job_is_running_and_visible {rt : Runtime} (h : Host) (m m' : Main)
    (options : StartOptions) (jobId : string) :
  startProcessing h m options = (m', returned jobId) ->
  exists outputDir child,
    getJobStatus m' jobId
    = Some (mkSerializableJob jobId running (opt_inputPath options) (Some (JStr outputDir))
              (mkProgress (JStr "initializing") (JStr "Starting processing...")
                 initial_agentStatus None None))
    /\ process <$> jobs m' !! jobId = Some (Some child)
    /\ (forall a, In a agent_names ->
                  agent_status m' jobId a = Some (JStr "pending"))
    /\ (forall d, opt_outputDir options = Some d -> is_empty d = false -> outputDir = d).
Proof.
  unfold startProcessing.
  destruct (is_empty _ || is_empty _); [done|].
  destruct (negb (existsSync h _)); [done|].
  match goal with |- context [match ?c with Some _ => _ | None => _ end] =>
    destruct c as [outputDir|] eqn:Hdir end; [|done].
  destruct (negb (existsSync h outputDir) && negb (mkdirSync h outputDir)); [done|].
  cbn [pythonExecutable projectRoot console_write put_job].
  match goal with |- context [spawn h ?r] => destruct (spawn h r) as [child|] end; [|done].
  intros [= <- <-]. exists outputDir, child.
  unfold getJobStatus, agent_status.
  cbn [record_spawn put_job console_write jobs]. rewrite !lookup_insert_eq.
  split; [reflexivity|]. split; [reflexivity|]. split.
  - intros a Ha. cbn in Ha.
    destruct Ha as [<-|[<-|[<-|[<-|[<-|[]]]]]]; vm_compute; reflexivity.
  - intros d Hd Hne. unfold chosen_outputDir in Hdir. rewrite Hd, Hne in Hdir.
    by injection Hdir.
Qed.

Lemma started_job_is_running_and_visible_witness :
  snd (startProcessing (rt := Reference.runtime) (Sample.host 1) Sample.empty_main
         (mkOptions "/in/a.jpg" (Some "/out") None single)) = returned "job_1"
  /\ s_status <$> getJobStatus
       (fst (startProcessing (rt := Reference.runtime) (Sample.host 1) Sample.empty_main
               (mkOptions "/in/a.jpg" (Some "/out") None single))) "job_1" = Some running.
Proof.
  split; [vm_compute; reflexivity|].
  destruct (started_job_is_running_and_visible (rt := Reference.runtime) (Sample.host 1)
              Sample.empty_main _ (mkOptions "/in/a.jpg" (Some "/out") None single) "job_1"
              (surjective_pairing _)) as (outputDir & child & -> & _).
  reflexivity.
Defined.

(** ** Polling the table *)

(** X12: [getAllJobs] and [getJobStatus] agree: a snapshot is in the list
    exactly when it is what [getJobStatus] returns for some id, and the
    list has one entry per job of the table. *)
Theorem all_jobs_are_the_job_statuses (m : Main) (s : SerializableJob) :
  (s ∈ getSerializableJobs m <-> exists jobId, getJobStatus m jobId = Some s)
  /\ List.length (getSerializableJobs m) = size (jobs m).
Proof.
  unfold getSerializableJobs, getJobStatus. split; [split|].
  - intros ([jobId job] & -> & Hin)%list_elem_of_fmap.
    apply elem_of_map_to_list in Hin. exists jobId. cbn. by rewrite Hin.
  - intros (jobId & H). destruct (jobs m !! jobId) as [job|] eqn:E; [|done].
    injection H as <-. apply list_elem_of_fmap. exists (jobId, job).
    split; [done|]. by apply elem_of_map_to_list.
  - rewrite length_fmap. apply length_map_to_list.
Qed.

(** ** API keys *)

(** X18: a key is accepted exactly when it is not blank and has the format of
    its provider, the provider's name being read without regard to case:
    for Anthropic the prefix [sk-ant-] and at least 20 characters, for
    Gemini at least 20 characters, all letters, digits, underscores or
    hyphens, for Remove.bg at least 10 characters, all letters or digits.
    No other provider has any key accepted, and exactly the accepted
    results carry no message. *)
Theorem key_is_accepted_iff (provider key : string) :
  (key_valid (validateAPIKey provider key) = true <->
   all_whitespace key = false
   /\ ((toLowerCase provider = "anthropic"
        /\ startsWith "sk-ant-" key = true /\ 20 <= String.length key)
       \/ (toLowerCase provider = "gemini"
           /\ 20 <= String.length key /\ gemini_pattern key = true)
       \/ (toLowerCase provider = "removebg"
           /\ 10 <= String.length key /\ removebg_pattern key = true)))
  /\ (key_message (validateAPIKey provider key) = None <->
      key_valid (validateAPIKey provider key) = true).
Proof.
  unfold validateAPIKey. rewrite blank_iff_all_whitespace.
  destruct (all_whitespace key);
    [cbn; intuition (try discriminate; try congruence)|].
  destruct (String.eqb_spec (toLowerCase provider) "anthropic") as [Ea|Na].
  { rewrite Ea. destruct (startsWith "sk-ant-" key); cbn [negb];
      [|cbn; intuition (try discriminate; try congruence)].
    destruct (Nat.ltb_spec (String.length key) 20); cbn;
      intuition (try discriminate; try congruence; try lia). }
  destruct (String.eqb_spec (toLowerCase provider) "gemini") as [Eg|Ng].
  { rewrite Eg. destruct (Nat.ltb_spec (String.length key) 20); cbn [orb];
      [cbn; intuition (try discriminate; try congruence; try lia)|].
    destruct (gemini_pattern key); cbn;
      intuition (try discriminate; try congruence; try lia). }
  destruct (String.eqb_spec (toLowerCase provider) "removebg") as [Er|Nr].
  { rewrite Er. destruct (Nat.ltb_spec (String.length key) 10); cbn [orb];
      [cbn; intuition (try discriminate; try congruence; try lia)|].
    destruct (removebg_pattern key); cbn;
      intuition (try discriminate; try congruence; try lia). }
  cbn. intuition (try discriminate; try congruence).
Qed.

(** ** File names in the panel *)

Module FileNames.
Import ProcessingPanel.

Lemma split_path_nonempty s : split_path s <> [].
Proof.
  destruct s as [|c r]; cbn; [done|].
  destruct (is_separator c); [done|]. by destruct (split_path r).
Qed.

Lemma split_path_app pre sep name :
  is_separator sep = true ->
  split_path (pre +:+ String sep name) = split_path pre ++ split_path name.
Proof.
  intros Hsep. induction pre as [|c r IH].
  - change (EmptyString +:+ String sep name) with (String sep name).
    cbn [split_path app]. by rewrite Hsep.
  - rewrite append_cons. cbn [split_path]. rewrite IH.
    destruct (is_separator c); [done|].
    pose proof (split_path_nonempty r). by destruct (split_path r).
Qed.

Lemma split_path_plain name :
  all_chars (fun c => negb (is_separator c)) name = true -> split_path name = [name].
Proof.
  induction name as [|c r IH]; [done|]. cbn [all_chars split_path].
  intros [Hc Hr]%andb_prop. apply negb_true_iff in Hc. rewrite Hc, (IH Hr). done.
Qed.

End FileNames.

(** X19: [getFileName] gives what follows the last slash or backslash of a
    path; a path that ends with a separator, and a path without any, come
    back whole. *)
Theorem getFileName_is_the_last_segment (pre name : string) (sep : ascii) :
  all_chars (fun c => negb (ProcessingPanel.is_separator c)) name = true ->
  ProcessingPanel.getFileName name = name
  /\ (ProcessingPanel.is_separator sep = true ->
      ProcessingPanel.getFileName (pre +:+ String sep name)
      = if is_empty name then pre +:+ String sep name else name).
Proof.
  intros Hname. unfold ProcessingPanel.getFileName. split.
  - rewrite (FileNames.split_path_plain name Hname). cbn. by destruct name.
  - intros Hsep.
    rewrite (FileNames.split_path_app pre sep name Hsep),
      (FileNames.split_path_plain name Hname).
    by rewrite List.last_last.
Qed.

Lemma getFileName_is_the_last_segment_witness :
  all_chars (fun c => negb (ProcessingPanel.is_separator c)) "a.jpg" = true
  /\ ProcessingPanel.getFileName "a.jpg" = "a.jpg"
  /\ (ProcessingPanel.is_separator "/" = true ->
      ProcessingPanel.getFileName ("C:\photos" +:+ String "/" "a.jpg")
      = if is_empty "a.jpg" then "C:\photos" +:+ String "/" "a.jpg" else "a.jpg").
Proof.
  split; [reflexivity|].
  exact (getFileName_is_the_last_segment "C:\photos" "a.jpg" "/" eq_refl).
Defined.

(** ** Settings *)

(** X20: settings that [saveSettings] has saved are the settings [loadSettings]
    loads: the save writes one file, the text of the settings, at the path
    the load reads, and reports nothing on the console; when that file is
    on the disk with that text, the load returns the settings saved,
    without falling back to the defaults. This needs of the library that
    [path.join] gives the same path in one step as in two, and that
    [JSON.parse] reads back what [JSON.stringify] wrote. *)
Theorem saved_settings_are_loaded {rt : Runtime} {lib : Library} (d : Disk)
    (settings : json) (effects : list DiskEffect) (logs : list SettingsConsole) :
  let settingsPath := path_join [os_homedir; ".agentic-photo-editor"; "settings.json"] in
  path_join [path_join [os_homedir; ".agentic-photo-editor"]; "settings.json"] = settingsPath ->
  JSON_parse_text (JSON_stringify settings) = Some settings ->
  saveSettings d settings = (effects, logs, true) ->
  logs = []
  /\ last effects = Some (wrote_file settingsPath (JSON_stringify settings))
  /\ forall d',
       d_existsSync d' settingsPath = true ->
       d_readFileSync d' settingsPath = Some (JSON_stringify settings) ->
       loadSettings d' = (settings, []).
Proof.
  intros settingsPath Hpath Hparse. unfold saveSettings. rewrite Hpath.
  destruct (negb _ && negb _); [done|].
  destruct (d_writeFileSync d settingsPath _); [|done].
  intros [= <- <-]. split; [done|]. split; [by rewrite last_snoc|].
  intros d' He Hr. unfold loadSettings. fold settingsPath. by rewrite He, Hr, Hparse.
Qed.

Lemma saved_settings_are_loaded_witness :
  (path_join (Runtime := Reference.runtime)
     [path_join (Runtime := Reference.runtime)
        [os_homedir (Runtime := Reference.runtime); ".agentic-photo-editor"];
      "settings.json"]
   = path_join (Runtime := Reference.runtime)
       [os_homedir (Runtime := Reference.runtime); ".agentic-photo-editor"; "settings.json"]
   /\ JSON_parse_text (Library := ReferenceLibrary.library)
        (JSON_stringify (Library := ReferenceLibrary.library) default_settings)
      = Some default_settings)
  /\ loadSettings (rt := Reference.runtime) (lib := ReferenceLibrary.library)
       (mkDisk (fun _ => true)
          (fun _ => Some (ReferenceLibrary.stringify default_settings))
          (fun _ => true) (fun _ _ => true) 5)
     = (default_settings, []).
Proof.
  split; [split; vm_compute; reflexivity|].
  apply (proj2 (proj2
    (saved_settings_are_loaded (rt := Reference.runtime) (lib := ReferenceLibrary.library)
       (mkDisk (fun _ => false) (fun _ => None) (fun _ => true) (fun _ _ => true) 5)
       default_settings _ _ eq_refl eq_refl eq_refl))); reflexivity.
Defined.

(** ** Dropped files *)

(** X21: [saveFileData] writes at most one file. Whenever it writes, the name
    has one of the four image extensions (whatever its case), the content
    is the data received, the file is under [agentic-photo-editor-temp] in
    the temporary directory under the base name, the time and the
    extension in lower case, and its path is what the call returns: a file
    of another type is refused with nothing written. *)
Theorem dropped_file_is_written_once {rt : Runtime} {lib : Library} (d : Disk)
    (fileName fileData : string) (effects : list DiskEffect)
    (logs : list SettingsConsole) (result : SaveFileError + string) :
  saveFileData d fileName fileData = (effects, logs, result) ->
  let extension := toLowerCase (path_parse_ext fileName) in
  let tempFilePath :=
    path_join [path_join [os_tmpdir; "agentic-photo-editor-temp"];
               path_parse_name fileName +:+ "_" +:+ pretty (d_now d) +:+ extension] in
  (In extension allowedExtensions \/ (effects = [] /\ result = inl (unsupported_file_type extension)))
  /\ (forall q c, In (wrote_file q c) effects ->
        In extension allowedExtensions /\ q = tempFilePath /\ c = fileData
        /\ result = inr tempFilePath)
  /\ (forall q, result = inr q -> In (wrote_file q fileData) effects).
Proof.
  intros H. cbn zeta. unfold saveFileData in H.
  set (extension := toLowerCase (path_parse_ext fileName)) in *.
  set (tempFilePath := path_join [_; _ +:+ "_" +:+ _ +:+ extension]) in *.
  destruct (existsb (String.eqb extension) allowedExtensions) eqn:Hext; cbn [negb] in H.
  - assert (Hin : In extension allowedExtensions).
    { apply existsb_exists in Hext as (x & Hx & ->%String.eqb_eq). exact Hx. }
    split; [by left|].
    destruct (negb _ && negb _) in H; [injection H as <- <- <-; split; [intros q c []|done]|].
    destruct (d_writeFileSync d tempFilePath fileData).
    + injection H as <- <- <-. split.
      * intros q c Hq. apply in_app_or in Hq as [Hq|[Hq|[]]].
        -- destruct (d_existsSync d _); [destruct Hq | by destruct Hq as [|[]]].
        -- by injection Hq as <- <-.
      * intros q [= <-]. apply in_or_app. right. by left.
    + injection H as <- <- <-. split; [|done].
      intros q c Hq. destruct (d_existsSync d _); [destruct Hq | by destruct Hq as [|[]]].
  - injection H as <- <- <-. split; [by right|]. split; [intros q c []|done].
Qed.

Lemma dropped_file_is_written_once_witness :
  saveFileData (rt := Reference.runtime) (lib := ReferenceLibrary.library)
    (mkDisk (fun _ => false) (fun _ => None) (fun _ => true) (fun _ _ => true) 1700)
    "Photo.JPG" "bytes"
  = ([made_directory "/tmp/agentic-photo-editor-temp";
      wrote_file "/tmp/agentic-photo-editor-temp/Photo_1700.jpg" "bytes"],
     [log_saved_file "Photo.JPG" "/tmp/agentic-photo-editor-temp/Photo_1700.jpg"],
     inr "/tmp/agentic-photo-editor-temp/Photo_1700.jpg")
  /\ forall q,
       @inr SaveFileError string "/tmp/agentic-photo-editor-temp/Photo_1700.jpg" = inr q ->
       In (wrote_file q "bytes")
         [made_directory "/tmp/agentic-photo-editor-temp";
          wrote_file "/tmp/agentic-photo-editor-temp/Photo_1700.jpg" "bytes"].
Proof.
  split; [vm_compute; reflexivity|].
  exact (proj2 (proj2
    (dropped_file_is_written_once (rt := Reference.runtime) (lib := ReferenceLibrary.library)
       (mkDisk (fun _ => false) (fun _ => None) (fun _ => true) (fun _ _ => true) 1700)
       "Photo.JPG" "bytes" _ _ _ eq_refl))).
Defined.

(** X22: the results of a dropped file do not land beside it: when the path
    [saveFileData] returned is then processed without an output directory,
    the job's output path is the application's folder under the user's
    Pictures, or under Documents when there is no Pictures folder. This
    needs of [path.dirname] that it gives back the temporary directory the
    file was put in, and of [path.join] that the name of that directory
    still reads temp. *)
Theorem dropped_file_results_go_to_the_user_folders {rt : Runtime} {lib : Library}
    (d : Disk) (fileName fileData : string) (effects : list DiskEffect)
    (logs : list SettingsConsole) (p : string) (h : Host) (m m' : Main)
    (instructions : option string) (jobId : string) :
  saveFileData d fileName fileData = (effects, logs, inr p) ->
  path_dirname p = path_join [os_tmpdir; "agentic-photo-editor-temp"] ->
  includes "temp" (path_join [os_tmpdir; "agentic-photo-editor-temp"]) = true ->
  statSync_isFile h p = Some true ->
  startProcessing h m (mkOptions p None instructions single) = (m', returned jobId) ->
  job_outputPath m' jobId
  = Some (Some (JStr (path_join [os_homedir;
                                 (if existsSync h (path_join [os_homedir; "Pictures"])
                                  then "Pictures" else "Documents");
                                 "Agentic Photo Editor"]))).
Proof.
  intros _ Hdir Htemp Hfile. unfold startProcessing.
  cbn [opt_inputPath opt_outputDir].
  destruct (is_empty _ || is_empty _); [done|].
  destruct (negb (existsSync h p)); [done|].
  unfold chosen_outputDir, default_outputDir. cbn [opt_inputPath opt_outputDir].
  rewrite Hfile, Hdir, Htemp, orb_true_r. cbn [orb].
  set (outputDir := path_join [os_homedir;
                                (if existsSync h (path_join [os_homedir; "Pictures"])
                                 then "Pictures" else "Documents");
                                "Agentic Photo Editor"]).
  assert (Hout : (if existsSync h (path_join [os_homedir; "Pictures"])
                  then Some (path_join [os_homedir; "Pictures"; "Agentic Photo Editor"])
                  else Some (path_join [os_homedir; "Documents"; "Agentic Photo Editor"]))
                 = Some outputDir).
  { subst outputDir. by destruct (existsSync h _). }
  rewrite Hout.
  destruct (negb (existsSync h outputDir) && negb (mkdirSync h outputDir)); [done|].
  cbn [pythonExecutable projectRoot console_write put_job].
  match goal with |- context [spawn h ?r] => destruct (spawn h r) as [child|] end; [|done].
  intros [= <- <-]. unfold job_outputPath.
  cbn [record_spawn put_job console_write jobs]. by rewrite lookup_insert_eq.
Qed.

Lemma dropped_file_results_go_to_the_user_folders_witness :
  (path_dirname (Runtime := Reference.runtime) "/tmp/agentic-photo-editor-temp/Photo_1700.jpg"
   = path_join (Runtime := Reference.runtime)
       [os_tmpdir (Runtime := Reference.runtime); "agentic-photo-editor-temp"]
   /\ includes "temp"
        (path_join (Runtime := Reference.runtime)
           [os_tmpdir (Runtime := Reference.runtime); "agentic-photo-editor-temp"]) = true)
  /\ job_outputPath
       (fst (startProcessing (rt := Reference.runtime) (Sample.host 1) Sample.empty_main
               (mkOptions "/tmp/agentic-photo-editor-temp/Photo_1700.jpg" None None single)))
       "job_1"
     = Some (Some (JStr "/home/user/Pictures/Agentic Photo Editor")).
Proof.
  split; [split; vm_compute; reflexivity|].
  exact (dropped_file_results_go_to_the_user_folders
           (rt := Reference.runtime) (lib := ReferenceLibrary.library)
           (mkDisk (fun _ => false) (fun _ => None) (fun _ => true) (fun _ _ => true) 1700)
           "Photo.JPG" "bytes" _ _ "/tmp/agentic-photo-editor-temp/Photo_1700.jpg"
           (Sample.host 1) Sample.empty_main _ None "job_1"
           eq_refl eq_refl eq_refl eq_refl (surjective_pairing _)).
Defined.

(** ** Cancelling in the panel after the exit *)

(** X17: a cancel request that comes after the exit of the process is refused
    by the main process, whose state stays as it is, the status the exit
    code gave included; the panel marks the job [failed] in its list with
    the message "Cancelled by user" all the same, so a job that completed
    is listed as failed. The copy in the detail pane, [activeJob], is not
    written to. *)
Theorem late_cancel_fails_the_job_in_the_panel_only {rt : Runtime} (jobId : string)
    (m : Main) (panel : ProcessingPanel.Panel)
    (trace : list SystemEvent) (now : Z) (h : Host) :
  existsb is_close (notifications trace) = true ->
  let before := system_run jobId (m, panel) trace in
  let after := system_run jobId (m, panel) (trace ++ [notified now h cancel]) in
  fst after = fst before
  /\ (forall rj, In rj (ProcessingPanel.jobs (snd after)) -> ProcessingPanel.id rj = jobId ->
        ProcessingPanel.status rj = failed
        /\ message (ProcessingPanel.progress rj) = JStr "Cancelled by user")
  /\ ProcessingPanel.activeJob (snd after) = ProcessingPanel.activeJob (snd before).
Proof.
  intros Hc before after. subst before after. rewrite system_run_app.
  destruct (system_run jobId (m, panel) trace) as [m1 panel1] eqn:E.
  assert (Hm1 : m1 = run jobId m (notifications trace)).
  { change m1 with (fst (m1, panel1)). rewrite <- E. apply fst_system_run. }
  assert (Hcancel : cancelJob h m1 jobId = (m1, false)).
  { rewrite Hm1. unfold cancelJob.
    destruct (jobs m !! jobId) as [job|] eqn:Hjob.
    - destruct (run_unbinds jobId m _ job Hc Hjob) as (job' & -> & Hp). by rewrite Hp.
    - by rewrite (run_no_job jobId _ m Hjob). }
  split; [|split; [|by apply (activeJob_system_run jobId [notified now h cancel]
                                (m1, panel1))]].
  - unfold system_run. cbn [fold_left]. unfold system_step. cbn [fst snd step].
    by rewrite Hcancel.
  - unfold system_run. cbn [fold_left]. unfold system_step. cbn [fst snd step].
    rewrite Hcancel. cbn [fst].
    unfold deliver. rewrite (new_messages_app m1 m1 []) by (by rewrite app_nil_r).
    cbn [fold_left ProcessingPanel.cancelJob ProcessingPanel.jobs]. intros rj Hin Hid.
    apply PanelFacts.In_update_job_same in Hin as (rj0 & _ & _ & ->); done.
Qed.

Lemma late_cancel_fails_the_job_in_the_panel_only_witness :
  existsb is_close
    (notifications [notified 5 (Sample.host 1) (close (Some 0%Z)); refreshed "job_1"])
  = true
  /\ job_status
       (fst (system_run (rt := Reference.runtime) "job_1"
               (Sample.one_running, mounted_panel)
               ([notified 5 (Sample.host 1) (close (Some 0%Z)); refreshed "job_1"]
                  ++ [notified 7 (Sample.host 1) cancel]))) "job_1" = Some completed
  /\ forall rj,
       In rj (ProcessingPanel.jobs
                (snd (system_run (rt := Reference.runtime) "job_1"
                        (Sample.one_running, mounted_panel)
                        ([notified 5 (Sample.host 1) (close (Some 0%Z)); refreshed "job_1"]
                           ++ [notified 7 (Sample.host 1) cancel])))) ->
       ProcessingPanel.id rj = "job_1" ->
       ProcessingPanel.status rj = failed
       /\ message (ProcessingPanel.progress rj) = JStr "Cancelled by user".
Proof.
  split; [reflexivity|].
  destruct (late_cancel_fails_the_job_in_the_panel_only (rt := Reference.runtime) "job_1"
              Sample.one_running mounted_panel
              [notified 5 (Sample.host 1) (close (Some 0%Z)); refreshed "job_1"]
              7%Z (Sample.host 1) eq_refl)
    as (Hmain & Hpanel & _).
  split; [rewrite Hmain; vm_compute; reflexivity | exact Hpanel].
Defined.

(** ** The table of jobs over the life of the main process *)

(** X23: the table starts empty, and whatever jobs are started and whatever
    their workers print, however they exit and whenever they are
    cancelled, every job stays filed under its own id: [getJobStatus]
    never answers a request for one job with a snapshot that names
    another, and no two snapshots of [getAllJobs] share an id with
    different contents. *)
Theorem jobs_stay_filed_under_their_ids {rt : Runtime} (m : Main) (ops : list Operation) :
  jobs m = ∅ ->
  let m' := fold_left operate ops m in
  (forall jobId s, getJobStatus m' jobId = Some s -> s_id s = jobId)
  /\ (forall s1 s2, s1 ∈ getSerializableJobs m' -> s2 ∈ getSerializableJobs m' ->
                    s_id s1 = s_id s2 -> s1 = s2).
Proof.
  intros Hempty m'.
  assert (K : keyed_by_id m').
  { subst m'. assert (K0 : keyed_by_id m).
    { intros k job H. by rewrite Hempty, lookup_empty in H. }
    clear Hempty. revert m K0.
    induction ops as [|[h options | jobId h n] ops IH]; intros m K0; [done|..];
      cbn [fold_left operate]; apply IH.
    - by apply startProcessing_keyed.
    - by apply step_keyed. }
  assert (Hsnap : forall jobId s, getJobStatus m' jobId = Some s -> s_id s = jobId).
  { intros jobId s. unfold getJobStatus.
    destruct (jobs m' !! jobId) as [job|] eqn:Hjob; [|done].
    intros [= <-]. cbn. by apply K. }
  split; [exact Hsnap|].
  intros s1 s2 H1 H2 Hid.
  unfold getSerializableJobs in H1, H2.
  apply list_elem_of_fmap in H1 as ([k1 j1] & -> & H1).
  apply list_elem_of_fmap in H2 as ([k2 j2] & -> & H2).
  apply elem_of_map_to_list in H1, H2. cbn [getSerializableJob s_id snd] in *.
  pose proof (K k1 j1 H1) as E1. pose proof (K k2 j2 H2) as E2.
  assert (Hk : k1 = k2) by congruence. rewrite Hk in H1.
  assert (Hj : j1 = j2) by congruence. by rewrite Hj.
Qed.

Lemma jobs_stay_filed_under_their_ids_witness :
  jobs Sample.empty_main = ∅
  /\ forall jobId s,
       getJobStatus
         (fold_left (operate (rt := Reference.runtime))
            [started (Sample.host 1) (mkOptions "/in/a.jpg" (Some "/out") None single);
             job_notified "job_1" (Sample.host 1) (close (Some 0%Z));
             started (Sample.host 2) (mkOptions "/in/b.jpg" (Some "/out") None single)]
            Sample.empty_main) jobId = Some s ->
       s_id s = jobId.
Proof.
  split; [reflexivity|].
  exact (proj1 (jobs_stay_filed_under_their_ids (rt := Reference.runtime) Sample.empty_main
                  [started (Sample.host 1) (mkOptions "/in/a.jpg" (Some "/out") None single);
                   job_notified "job_1" (Sample.host 1) (close (Some 0%Z));
                   started (Sample.host 2) (mkOptions "/in/b.jpg" (Some "/out") None single)]
                  eq_refl)).
Defined.

